(** * EXtra-foam image-processing kernels (f_imageproc.hpp)

    A shallow embedding of the pixel-wise kernels of
    [src/extra_foam/include/f_imageproc.hpp]: NaN-aware masking, NaN-aware
    means, the moving average and the gain/offset correction, together with
    the properties the specification states about them.

    Conventions.
    - The element type [value_type] of the C++ templates is a type [V]
      equipped with the operations of the class [Floating]; [binary32] is
      the IEEE-754 single precision instance, built on the Standard
      Library's [SpecFloat].
    - An [xt::pytensor] is a shape with a row-major buffer ([xtensor]).
    - A kernel is a computation in the monad [M St]: [St] holds the buffers
      the kernel receives by mutable reference, and an exception leaves the
      state as it was when the exception was thrown (C++ does not roll
      back).
    - The build flag [FOAM_WITH_TBB] is the [backend] argument of the
      kernels that depend on it. *)

From Stdlib Require Import ZArith String.
From Stdlib Require Import Floats.SpecFloat.
From stdpp Require Import base list.

Local Open Scope nat_scope.

(** ** Element type *)

(** The operations the kernels use on [value_type].  [quiet_NaN] is
    [std::numeric_limits<value_type>::quiet_NaN()], [of_size n] is the
    conversion [value_type(n)] of a [size_t], [flt] is [<].  The laws are
    those of IEEE-754 that the properties below rely on: arithmetic on a NaN
    gives a NaN, a comparison with a NaN is false, and 0/0 is a NaN. *)
Class Floating (V : Type) := {
  quiet_NaN : V;
  fzero : V;
  fhalf : V;
  of_size : nat -> V;
  isnan : V -> bool;
  flt : V -> V -> bool;
  fadd : V -> V -> V;
  fsub : V -> V -> V;
  fmul : V -> V -> V;
  fdiv : V -> V -> V;
  isnan_quiet_NaN : isnan quiet_NaN = true;
  isnan_fzero : isnan fzero = false;
  flt_nan_l : forall x y, isnan x = true -> flt x y = false;
  flt_nan_r : forall x y, isnan y = true -> flt x y = false;
  isnan_fadd : forall x y, isnan x || isnan y = true -> isnan (fadd x y) = true;
  isnan_fsub : forall x y, isnan x || isnan y = true -> isnan (fsub x y) = true;
  isnan_fdiv : forall x y, isnan x || isnan y = true -> isnan (fdiv x y) = true;
  isnan_zero_div_zero : isnan (fdiv fzero (of_size 0)) = true
}.

(** [v > ub] *)
Definition fgt `{Floating V} (x y : V) : bool := flt y x.

#[global] Instance Floating_inhabited `{Floating V} : Inhabited V :=
  populate quiet_NaN.

(** IEEE-754 binary32 ([float]): 24 bits of precision, [emax = 128]. *)
Module Binary32.

Definition prec : Z := 24.
Definition emax : Z := 128.

Definition of_Z (z : Z) : spec_float := binary_normalize prec emax z 0 false.

Definition is_nan (x : spec_float) : bool :=
  match x with S754_nan => true | _ => false end.

End Binary32.

#[global] Instance binary32 : Floating spec_float := {|
  quiet_NaN := S754_nan;
  fzero := S754_zero false;
  fhalf := SFdiv Binary32.prec Binary32.emax (Binary32.of_Z 1) (Binary32.of_Z 2);
  of_size n := Binary32.of_Z (Z.of_nat n);
  isnan := Binary32.is_nan;
  flt := SFltb;
  fadd := SFadd Binary32.prec Binary32.emax;
  fsub := SFsub Binary32.prec Binary32.emax;
  fmul := SFmul Binary32.prec Binary32.emax;
  fdiv := SFdiv Binary32.prec Binary32.emax;
  isnan_quiet_NaN := eq_refl;
  isnan_fzero := eq_refl;
  flt_nan_l := ltac:(by intros [[]|[]| |[]] [[]|[]| |[]]);
  flt_nan_r := ltac:(by intros [[]|[]| |[]] [[]|[]| |[]]);
  isnan_fadd := ltac:(by intros [[]|[]| |[]] [[]|[]| |[]]);
  isnan_fsub := ltac:(by intros [[]|[]| |[]] [[]|[]| |[]]);
  isnan_fdiv := ltac:(by intros [[]|[]| |[]] [[]|[]| |[]]);
  isnan_zero_div_zero := eq_refl
|}.

(** ** Exceptions and the kernel monad *)

Inductive exn :=
  | shape_mismatch (msg : string)
  | invalid_argument (msg : string).

Inductive outcome (A : Type) :=
  | Returned (a : A)
  | Raised (e : exn).
Arguments Returned {A} a.
Arguments Raised {A} e.

(** A computation over the mutable buffers [St]: the outcome and the buffers
    as the computation leaves them. *)
Definition M (St A : Type) : Type := St -> outcome A * St.

#[global] Instance M_ret {St} : MRet (M St) :=
  fun A a s => (Returned a, s).

#[global] Instance M_bind {St} : MBind (M St) :=
  fun A B k m s =>
    match m s with
    | (Returned a, s') => k a s'
    | (Raised e, s') => (Raised e, s')
    end.

Definition throw {St A} (e : exn) : M St A := fun s => (Raised e, s).
Definition get {St} : M St St := fun s => (Returned s, s).
Definition modify {St} (f : St -> St) : M St unit := fun s => (Returned tt, f s).

(** ** Tensors *)

(** An [xt::pytensor<A, n>]: its shape and its buffer in row-major order.
    [operator()] does no bounds check; here a read out of the buffer gives
    the inhabitant of [A] and a write out of the buffer does nothing.  The
    kernels never index out of a well-formed tensor. *)
Record xtensor (A : Type) := XTensor { shape : list nat; storage : list A }.
Arguments XTensor {A} shape storage.
Arguments shape {A} _.
Arguments storage {A} _.

(** [sh[d]] *)
Definition extent (sh : list nat) (d : nat) : nat := nth d sh 0.

Definition offset2 (sh : list nat) (j k : nat) : nat := j * extent sh 1 + k.
Definition offset3 (sh : list nat) (i j k : nat) : nat :=
  (i * extent sh 1 + j) * extent sh 2 + k.

Definition at2 {A} `{Inhabited A} (t : xtensor A) (j k : nat) : A :=
  storage t !!! offset2 (shape t) j k.
Definition at3 {A} `{Inhabited A} (t : xtensor A) (i j k : nat) : A :=
  storage t !!! offset3 (shape t) i j k.

Definition set2 {A} (t : xtensor A) (j k : nat) (v : A) : xtensor A :=
  XTensor (shape t) (<[offset2 (shape t) j k := v]> (storage t)).
Definition set3 {A} (t : xtensor A) (i j k : nat) (v : A) : xtensor A :=
  XTensor (shape t) (<[offset3 (shape t) i j k := v]> (storage t)).

(** A container of the given shape whose cells are about to be written
    ([from_shape], or the shape constructor): the C++ cells start
    uninitialised, here they start at the inhabitant of [A]. *)
Definition from_shape {A} `{Inhabited A} (sh : list nat) : xtensor A :=
  XTensor sh (replicate (foldr Nat.mul 1 sh) inhabitant).

(** Well-formed images (2D) and image arrays (3D). *)
Definition is_image {A} (t : xtensor A) (h w : nat) : Prop :=
  shape t = [h; w] /\ length (storage t) = h * w.
Definition is_image_array {A} (t : xtensor A) (n h w : nat) : Prop :=
  shape t = [n; h; w] /\ length (storage t) = n * h * w.

(** Modelled from the spec: [checkShape] of f_utilities.hpp, which is not
    among the sources.  It compares the first shape, without its first
    [offset] dimensions, with the second one and raises a shape-mismatch
    error carrying the message when they differ. *)
Definition checkShape {St} (s1 s2 : list nat) (msg : string) (offset : nat) : M St unit :=
  if decide (drop offset s1 = s2) then mret tt else throw (shape_mismatch msg).

(** ** Loops *)

(** [for (i = b; i != e; ++i) body], for [b <= e]. *)
Definition for_range {St} (b e : nat) (body : nat -> St -> St) (s : St) : St :=
  foldl (fun s i => body i s) s (seq b (e - b)).

(** The blocks [tbb::parallel_for] hands to its body. *)
Record blocked_range := BlockedRange { r_begin : nat; r_end : nat }.
Record blocked_range2d := BlockedRange2d { rows2 : blocked_range; cols2 : blocked_range }.
Record blocked_range3d :=
  BlockedRange3d { pages3 : blocked_range; rows3 : blocked_range; cols3 : blocked_range }.

(** How the scheduler cuts an iteration space into blocks, in the order in
    which the effects of the blocks take place.  The cut is the scheduler's
    choice, so it is a parameter of every kernel that runs on TBB. *)
Record scheduler := Scheduler {
  split2 : nat -> nat -> list blocked_range2d;
  split3 : nat -> nat -> nat -> list blocked_range3d
}.

(** The build flag [FOAM_WITH_TBB]. *)
Inductive backend :=
  | with_tbb (sch : scheduler)
  | without_tbb.

(** [tbb::parallel_for(range, body)]: the body runs once on every block. *)
Definition parallel_for {B St} (blocks : list B) (body : B -> St -> St) (s : St) : St :=
  foldl (fun s b => body b s) s blocks.

(** The points a loop nest over a block visits, in order. *)
Definition span (r : blocked_range) : list nat := seq (r_begin r) (r_end r - r_begin r).
Definition points2 (b : blocked_range2d) : list (nat * nat) :=
  j ← span (rows2 b); k ← span (cols2 b); [(j, k)].
Definition points3 (b : blocked_range3d) : list (nat * nat * nat) :=
  i ← span (pages3 b); j ← span (rows3 b); k ← span (cols3 b); [(i, j, k)].

Definition box2 (h w : nat) : blocked_range2d :=
  BlockedRange2d (BlockedRange 0 h) (BlockedRange 0 w).
Definition box3 (n h w : nat) : blocked_range3d :=
  BlockedRange3d (BlockedRange 0 n) (BlockedRange 0 h) (BlockedRange 0 w).

(** TBB's contract: the blocks are disjoint and cover the iteration space. *)
Definition tiles2 (blocks : list blocked_range2d) (h w : nat) : Prop :=
  (blocks ≫= points2) ≡ₚ points2 (box2 h w).
Definition tiles3 (blocks : list blocked_range3d) (n h w : nat) : Prop :=
  (blocks ≫= points3) ≡ₚ points3 (box3 n h w).
Definition fair (sch : scheduler) : Prop :=
  (forall h w, tiles2 (split2 sch h w) h w) /\
  (forall n h w, tiles3 (split3 sch n h w) n h w).

(** The scheduler that never splits. *)
Definition one_block : scheduler :=
  Scheduler (fun h w => [box2 h w]) (fun n h w => [box3 n h w]).

(** A scheduler that hands out one row (2D) or one page (3D) at a time,
    last one first. *)
Definition by_rows_reversed : scheduler :=
  Scheduler
    (fun h w => (fun j => BlockedRange2d (BlockedRange j (S j)) (BlockedRange 0 w)) <$> reverse (seq 0 h))
    (fun n h w =>
       (fun i => BlockedRange3d (BlockedRange i (S i)) (BlockedRange 0 h) (BlockedRange 0 w))
         <$> reverse (seq 0 n)).

(** ** xtensor operations used by the build without TBB

    These are library calls, not code of f_imageproc.hpp; each is modelled
    by what the xtensor documentation says of it. *)
Section Xtensor.
Context {V : Type} `{Floating V}.

(** [xt::filter(e, cond) = value]: the cells of [e] where the elementwise
    condition holds receive [value]. *)
Definition xt_filter_assign (cond : V -> bool) (value : V) (e : xtensor V) : xtensor V :=
  XTensor (shape e) ((fun v => if cond v then value else v) <$> storage e).

(** [xt::view(e, xt::keep(keep), xt::all(), xt::all())]: the frames of a
    3D array at the positions of [keep], in that order. *)
Definition xt_view_keep (e : xtensor V) (keep : list nat) : xtensor V :=
  let m := extent (shape e) 1 * extent (shape e) 2 in
  XTensor (length keep :: tail (shape e))
          (keep ≫= fun i => (fun p => storage e !!! (i * m + p)) <$> seq 0 m).

(** [xt::stack(xt::xtuple(a, b))]: the two arrays along a new first axis. *)
Definition xt_stack (a b : xtensor V) : xtensor V :=
  XTensor (2 :: shape a) (storage a ++ storage b).

(** [nansum] and the count of the values that are not NaN. *)
Definition nansum (l : list V) : V :=
  foldl (fun acc v => if isnan v then acc else fadd acc v) fzero l.
Definition count_nonnan (l : list V) : nat :=
  length (filter (fun v => isnan v = false) l).

(** [xt::eval(xt::nanmean<value_type>(e, 0))]: along the first axis, the
    sum of the values that are not NaN over their number. *)
Definition xt_nanmean0 (e : xtensor V) : xtensor V :=
  let m := foldr Nat.mul 1 (tail (shape e)) in
  XTensor (tail (shape e))
          ((fun p =>
              let column := (fun i => storage e !!! (i * m + p)) <$> seq 0 (extent (shape e) 0) in
              fdiv (nansum column) (of_size (count_nonnan column)))
             <$> seq 0 m).
End Xtensor.

(** [if (cond) throw e;] *)
Definition throw_if {St} (cond : bool) (e : exn) : M St unit :=
  if cond then throw e else mret tt.

(** The loop nest over the rows and columns of a 2D block. *)
Definition for_block2 {St} (block : blocked_range2d) (body : nat -> nat -> St -> St) : St -> St :=
  for_range (r_begin (rows2 block)) (r_end (rows2 block)) (fun j =>
  for_range (r_begin (cols2 block)) (r_end (cols2 block)) (fun k => body j k)).

(** The loop nest over the pages, rows and columns of a 3D block. *)
Definition for_block3 {St} (block : blocked_range3d)
    (body : nat -> nat -> nat -> St -> St) : St -> St :=
  for_range (r_begin (pages3 block)) (r_end (pages3 block)) (fun i =>
  for_range (r_begin (rows3 block)) (r_end (rows3 block)) (fun j =>
  for_range (r_begin (cols3 block)) (r_end (cols3 block)) (fun k => body i j k))).

(** The loop header of the 3D kernels whose body is shared by the two
    builds: [tbb::parallel_for] over a [blocked_range3d] with TBB, three
    nested [for] loops without. *)
Definition for_each3 {St} (be : backend) (sh : list nat)
    (body : nat -> nat -> nat -> St -> St) : St -> St :=
  match be with
  | with_tbb sch =>
      parallel_for (split3 sch (extent sh 0) (extent sh 1) (extent sh 2))
                   (fun block => for_block3 block body)
  | without_tbb =>
      for_range 0 (extent sh 0) (fun i =>
      for_range 0 (extent sh 1) (fun j =>
      for_range 0 (extent sh 2) (fun k => body i j k)))
  end.

(** The correction policies. *)
Variant policy := OffsetPolicy | GainPolicy.

Definition correct `{Floating V} (p : policy) (v a : V) : V :=
  match p with
  | OffsetPolicy => fsub v a
  | GainPolicy => fmul v a
  end.

(** ** Kernels on one image (shape = (y, x))

    The overloads of a C++ name are told apart by the template parameters
    of their arguments: [E] the image, [T] the two thresholds, [M] the
    image mask, [N] the output mask. *)
Module Image.
Section Kernels.
Context {V : Type} `{Floating V}.

(** Inplace convert nan using 0 in an image. *)
Definition maskImageDataZero_E : M (xtensor V) unit :=
  src ← get;
  let sh := shape src in
  modify (for_range 0 (extent sh 0) (fun j =>
          for_range 0 (extent sh 1) (fun k src =>
            if isnan (at2 src j k) then set2 src j k fzero else src))).

(** Maintain an identical API with maskImageDataZero. *)
Definition maskImageDataNan_E : M (xtensor V) unit := mret tt.

(** Get the nan mask of an image. *)
Definition imageDataNanMask (src : xtensor V) : M (xtensor bool) unit :=
  out ← get;
  let sh := shape src in
  checkShape sh (shape out) "Image and output array have different shapes" 0;;
  modify (for_range 0 (extent sh 0) (fun j =>
          for_range 0 (extent sh 1) (fun k out =>
            if isnan (at2 src j k) then set2 out j k true else out))).

(** Inplace mask an image using 0 with threshold mask. *)
Definition maskImageDataZero_ET (lb ub : V) : M (xtensor V) unit :=
  src ← get;
  let sh := shape src in
  modify (for_range 0 (extent sh 0) (fun j =>
          for_range 0 (extent sh 1) (fun k src =>
            let v := at2 src j k in
            if isnan v || flt v lb || fgt v ub then set2 src j k fzero else src))).

Definition maskImageDataZero_ETN (lb ub : V) : M (xtensor V * xtensor bool) unit :=
  '(src, out) ← get;
  let sh := shape src in
  checkShape sh (shape out) "Image and output array have different shapes" 0;;
  modify (for_range 0 (extent sh 0) (fun j =>
          for_range 0 (extent sh 1) (fun k '(src, out) =>
            let v := at2 src j k in
            if isnan v || flt v lb || fgt v ub
            then (set2 src j k fzero, set2 out j k true)
            else (src, out)))).

(** Inplace mask an image using nan with threshold mask. *)
Definition maskImageDataNan_ET (lb ub : V) : M (xtensor V) unit :=
  src ← get;
  let sh := shape src in
  let nan := quiet_NaN in
  modify (for_range 0 (extent sh 0) (fun j =>
          for_range 0 (extent sh 1) (fun k src =>
            let v := at2 src j k in
            if isnan v then src
            else if flt v lb || fgt v ub then set2 src j k nan else src))).

Definition maskImageDataNan_ETN (lb ub : V) : M (xtensor V * xtensor bool) unit :=
  '(src, out) ← get;
  let sh := shape src in
  checkShape sh (shape out) "Image and output array have different shapes" 0;;
  let nan := quiet_NaN in
  modify (for_range 0 (extent sh 0) (fun j =>
          for_range 0 (extent sh 1) (fun k '(src, out) =>
            let v := at2 src j k in
            if isnan v then (src, set2 out j k true)
            else if flt v lb || fgt v ub
                 then (set2 src j k nan, set2 out j k true)
                 else (src, out)))).

(** Inplace mask an image using 0 with an image mask. *)
Definition maskImageDataZero_EM (mask : xtensor bool) : M (xtensor V) unit :=
  src ← get;
  let sh := shape src in
  checkShape sh (shape mask) "Image and mask have different shapes" 0;;
  modify (for_range 0 (extent sh 0) (fun j =>
          for_range 0 (extent sh 1) (fun k src =>
            if at2 mask j k || isnan (at2 src j k) then set2 src j k fzero else src))).

Definition maskImageDataZero_EMN (mask : xtensor bool) : M (xtensor V * xtensor bool) unit :=
  '(src, out) ← get;
  let sh := shape src in
  checkShape sh (shape mask) "Image and mask have different shapes" 0;;
  checkShape sh (shape out) "Image and output array have different shapes" 0;;
  modify (for_range 0 (extent sh 0) (fun j =>
          for_range 0 (extent sh 1) (fun k '(src, out) =>
            if at2 mask j k || isnan (at2 src j k)
            then (set2 src j k fzero, set2 out j k true)
            else (src, out)))).

(** Inplace mask an image using nan with an image mask. *)
Definition maskImageDataNan_EM (mask : xtensor bool) : M (xtensor V) unit :=
  src ← get;
  let sh := shape src in
  checkShape sh (shape mask) "Image and mask have different shapes" 0;;
  let nan := quiet_NaN in
  modify (for_range 0 (extent sh 0) (fun j =>
          for_range 0 (extent sh 1) (fun k src =>
            if at2 mask j k then set2 src j k nan else src))).

(** The source ends its second branch with [out(j, k) = nan], and a NaN
    converts to the boolean [true]. *)
Definition maskImageDataNan_EMN (mask : xtensor bool) : M (xtensor V * xtensor bool) unit :=
  '(src, out) ← get;
  let sh := shape src in
  checkShape sh (shape mask) "Image and mask have different shapes" 0;;
  checkShape sh (shape out) "Image and output array have different shapes" 0;;
  let nan := quiet_NaN in
  modify (for_range 0 (extent sh 0) (fun j =>
          for_range 0 (extent sh 1) (fun k '(src, out) =>
            if isnan (at2 src j k) then (src, set2 out j k true)
            else if at2 mask j k then (set2 src j k nan, set2 out j k true)
                 else (src, out)))).

(** Inplace mask an image using 0 with both threshold mask and an image mask. *)
Definition maskImageDataZero_EMT (mask : xtensor bool) (lb ub : V) : M (xtensor V) unit :=
  src ← get;
  let sh := shape src in
  checkShape sh (shape mask) "Image and mask have different shapes" 0;;
  modify (for_range 0 (extent sh 0) (fun j =>
          for_range 0 (extent sh 1) (fun k src =>
            if at2 mask j k then set2 src j k fzero
            else let v := at2 src j k in
                 if isnan v || flt v lb || fgt v ub then set2 src j k fzero else src))).

Definition maskImageDataZero_EMTN (mask : xtensor bool) (lb ub : V)
  : M (xtensor V * xtensor bool) unit :=
  '(src, out) ← get;
  let sh := shape src in
  checkShape sh (shape mask) "Image and mask have different shapes" 0;;
  checkShape sh (shape out) "Image and output array have different shapes" 0;;
  modify (for_range 0 (extent sh 0) (fun j =>
          for_range 0 (extent sh 1) (fun k '(src, out) =>
            if at2 mask j k then (set2 src j k fzero, set2 out j k true)
            else let v := at2 src j k in
                 if isnan v || flt v lb || fgt v ub
                 then (set2 src j k fzero, set2 out j k true)
                 else (src, out)))).

(** Inplace mask an image using nan with both threshold mask and an image mask. *)
Definition maskImageDataNan_EMT (mask : xtensor bool) (lb ub : V) : M (xtensor V) unit :=
  src ← get;
  let sh := shape src in
  checkShape sh (shape mask) "Image and mask have different shapes" 0;;
  let nan := quiet_NaN in
  modify (for_range 0 (extent sh 0) (fun j =>
          for_range 0 (extent sh 1) (fun k src =>
            if at2 mask j k then set2 src j k nan
            else let v := at2 src j k in
                 if isnan v then src
                 else if flt v lb || fgt v ub then set2 src j k nan else src))).

Definition maskImageDataNan_EMTN (mask : xtensor bool) (lb ub : V)
  : M (xtensor V * xtensor bool) unit :=
  '(src, out) ← get;
  let sh := shape src in
  checkShape sh (shape mask) "Image and mask have different shapes" 0;;
  checkShape sh (shape out) "Image and output array have different shapes" 0;;
  let nan := quiet_NaN in
  modify (for_range 0 (extent sh 0) (fun j =>
          for_range 0 (extent sh 1) (fun k '(src, out) =>
            let v := at2 src j k in
            if at2 mask j k then (set2 src j k nan, set2 out j k true)
            else if isnan v then (src, set2 out j k true)
            else if flt v lb || fgt v ub
                 then (set2 src j k nan, set2 out j k true)
                 else (src, out)))).
(** Inplace apply moving average for an image. *)
Definition movingAvgImageData (data : xtensor V) (count : nat) : M (xtensor V) unit :=
  throw_if (bool_decide (count = 0)) (invalid_argument "'count' cannot be zero!");;
  src ← get;
  let sh := shape src in
  checkShape sh (shape data) "Inconsistent data shapes" 0;;
  modify (for_range 0 (extent sh 0) (fun j =>
          for_range 0 (extent sh 1) (fun k src =>
            set2 src j k
              (fadd (at2 src j k)
                    (fdiv (fsub (at2 data j k) (at2 src j k)) (of_size count)))))).

(** Inplace apply either gain or offset correct for an image. *)
Definition correctImageData (p : policy) (constants : xtensor V) : M (xtensor V) unit :=
  src ← get;
  let sh := shape src in
  checkShape sh (shape constants) "data and constants have different shapes" 0;;
  modify (for_range 0 (extent sh 0) (fun j =>
          for_range 0 (extent sh 1) (fun k src =>
            set2 src j k (correct p (at2 src j k) (at2 constants j k))))).

(** Inplace apply both gain and offset correct for an image. *)
Definition correctImageData_gain_offset (gain offset : xtensor V) : M (xtensor V) unit :=
  src ← get;
  let sh := shape src in
  checkShape sh (shape gain) "data and gain constants have different shapes" 0;;
  checkShape sh (shape offset) "data and offset constants have different shapes" 0;;
  modify (for_range 0 (extent sh 0) (fun j =>
          for_range 0 (extent sh 1) (fun k src =>
            set2 src j k (fmul (at2 gain j k) (fsub (at2 src j k) (at2 offset j k)))))).

(** Calculate the nanmean of two images.  Both images are received by
    forwarding reference, so they are the state of the computation. *)
Definition nanmeanImageArray_EE (be : backend) : M (xtensor V * xtensor V) (xtensor V) :=
  '(src1, src2) ← get;
  let sh := shape src1 in
  checkShape sh (shape src2) "Images have different shapes" 0;;
  match be with
  | with_tbb sch =>
      let mean := from_shape [extent sh 0; extent sh 1] in
      mret (parallel_for (split2 sch (extent sh 0) (extent sh 1))
              (fun block => for_block2 block (fun j k mean =>
                 let x := at2 src1 j k in
                 let y := at2 src2 j k in
                 if isnan x && isnan y then set2 mean j k quiet_NaN
                 else if isnan x then set2 mean j k y
                 else if isnan y then set2 mean j k x
                 else set2 mean j k (fmul fhalf (fadd x y))))
              mean)
  | without_tbb =>
      let stacked := xt_stack src1 src2 in
      mret (xt_nanmean0 stacked)
  end.
End Kernels.
End Image.

(** ** Kernels on an array of images (shape = (indices, y, x)) *)
Module ImageArray.
Section Kernels.
Context {V : Type} `{Floating V}.

(** [detail::nanmeanImageArrayImp], compiled only with TBB.  An empty
    [keep] is the default argument and selects every frame. *)
Definition nanmeanImageArrayImp (sch : scheduler) (keep : list nat)
  : M (xtensor V) (xtensor V) :=
  src ← get;
  let sh := shape src in
  let mean := from_shape [extent sh 1; extent sh 2] in
  mret (parallel_for (split2 sch (extent sh 1) (extent sh 2))
          (fun block => for_block2 block (fun j k mean =>
             let '(count, sum) :=
               if bool_decide (keep = [])
               then for_range 0 (extent sh 0) (fun i '(count, sum) =>
                      let v := at3 src i j k in
                      if negb (isnan v) then (count + 1, fadd sum v) else (count, sum))
                      (0, fzero)
               else foldl (fun '(count, sum) it =>
                      let v := at3 src it j k in
                      if negb (isnan v) then (count + 1, fadd sum v) else (count, sum))
                      (0, fzero) keep in
             if bool_decide (count = 0)
             then set2 mean j k quiet_NaN
             else set2 mean j k (fdiv sum (of_size count))))
          mean).

(** Calculate the nanmean of the selected images from an array of images. *)
Definition nanmeanImageArray_keep (be : backend) (keep : list nat)
  : M (xtensor V) (xtensor V) :=
  match be with
  | with_tbb sch =>
      throw_if (bool_decide (keep = [])) (invalid_argument "keep cannot be empty!");;
      nanmeanImageArrayImp sch keep
  | without_tbb =>
      src ← get;
      let sliced := xt_view_keep src keep in
      mret (xt_nanmean0 sliced)
  end.

Definition nanmeanImageArray (be : backend) : M (xtensor V) (xtensor V) :=
  match be with
  | with_tbb sch => nanmeanImageArrayImp sch []
  | without_tbb => src ← get; mret (xt_nanmean0 src)
  end.

(** Inplace convert nan using 0 in an array of images. *)
Definition maskImageDataZero_E (be : backend) : M (xtensor V) unit :=
  src ← get;
  let sh := shape src in
  match be with
  | with_tbb sch =>
      modify (parallel_for (split3 sch (extent sh 0) (extent sh 1) (extent sh 2))
                (fun block => for_block3 block (fun i j k src =>
                   if isnan (at3 src i j k) then set3 src i j k fzero else src)))
  | without_tbb =>
      modify (xt_filter_assign isnan fzero)
  end.

(** Maintain an identical API with maskImageDataZero. *)
Definition maskImageDataNan_E : M (xtensor V) unit := mret tt.

(** Inplace mask an array of images using 0 with threshold mask. *)
Definition maskImageDataZero_ET (be : backend) (lb ub : V) : M (xtensor V) unit :=
  match be with
  | with_tbb sch =>
      src ← get;
      let sh := shape src in
      modify (parallel_for (split3 sch (extent sh 0) (extent sh 1) (extent sh 2))
                (fun block => for_block3 block (fun i j k src =>
                   let v := at3 src i j k in
                   if isnan v || flt v lb || fgt v ub then set3 src i j k fzero else src)))
  | without_tbb =>
      modify (xt_filter_assign (fun v => isnan v || flt v lb || fgt v ub) fzero)
  end.

(** Inplace mask an array of images using nan with threshold mask. *)
Definition maskImageDataNan_ET (be : backend) (lb ub : V) : M (xtensor V) unit :=
  let nan := quiet_NaN in
  match be with
  | with_tbb sch =>
      src ← get;
      let sh := shape src in
      modify (parallel_for (split3 sch (extent sh 0) (extent sh 1) (extent sh 2))
                (fun block => for_block3 block (fun i j k src =>
                   let v := at3 src i j k in
                   if isnan v then src
                   else if flt v lb || fgt v ub then set3 src i j k nan else src)))
  | without_tbb =>
      modify (xt_filter_assign (fun v => flt v lb || fgt v ub) nan)
  end.

(** Inplace mask an array of images using 0 with an image mask. *)
Definition maskImageDataZero_EM (be : backend) (mask : xtensor bool) : M (xtensor V) unit :=
  src ← get;
  let sh := shape src in
  checkShape sh (shape mask) "Image and mask have different shapes" 1;;
  modify (for_each3 be sh (fun i j k src =>
            if at2 mask j k || isnan (at3 src i j k) then set3 src i j k fzero else src)).

(** Inplace mask an array of images using nan with an image mask. *)
Definition maskImageDataNan_EM (be : backend) (mask : xtensor bool) : M (xtensor V) unit :=
  src ← get;
  let sh := shape src in
  checkShape sh (shape mask) "Image and mask have different shapes" 1;;
  let nan := quiet_NaN in
  modify (for_each3 be sh (fun i j k src =>
            if at2 mask j k then set3 src i j k nan else src)).

(** Inplace mask an array of images using 0 with both threshold mask and
    an image mask. *)
Definition maskImageDataZero_EMT (be : backend) (mask : xtensor bool) (lb ub : V)
  : M (xtensor V) unit :=
  src ← get;
  let sh := shape src in
  checkShape sh (shape mask) "Image and mask have different shapes" 1;;
  modify (for_each3 be sh (fun i j k src =>
            if at2 mask j k then set3 src i j k fzero
            else let v := at3 src i j k in
                 if isnan v || flt v lb || fgt v ub then set3 src i j k fzero else src)).

(** Inplace mask an array of images using nan with both threshold mask
    and an image mask. *)
Definition maskImageDataNan_EMT (be : backend) (mask : xtensor bool) (lb ub : V)
  : M (xtensor V) unit :=
  src ← get;
  let sh := shape src in
  checkShape sh (shape mask) "Image and mask have different shapes" 1;;
  let nan := quiet_NaN in
  modify (for_each3 be sh (fun i j k src =>
            if at2 mask j k then set3 src i j k nan
            else let v := at3 src i j k in
                 if isnan v then src
                 else if flt v lb || fgt v ub then set3 src i j k nan else src)).

(** Inplace apply moving average for an array of images. *)
Definition movingAvgImageData (be : backend) (data : xtensor V) (count : nat)
  : M (xtensor V) unit :=
  throw_if (bool_decide (count = 0)) (invalid_argument "'count' cannot be zero!");;
  src ← get;
  let sh := shape src in
  checkShape sh (shape data) "Inconsistent data shapes" 0;;
  modify (for_each3 be sh (fun i j k src =>
            set3 src i j k
              (fadd (at3 src i j k)
                    (fdiv (fsub (at3 data i j k) (at3 src i j k)) (of_size count))))).

(** Inplace apply either gain or offset correct for an array of images. *)
Definition correctImageData (be : backend) (p : policy) (constants : xtensor V)
  : M (xtensor V) unit :=
  src ← get;
  let sh := shape src in
  checkShape sh (shape constants) "data and constants have different shapes" 0;;
  modify (for_each3 be sh (fun i j k src =>
            set3 src i j k (correct p (at3 src i j k) (at3 constants i j k)))).

(** Inplace apply both gain and offset correct for an array of images. *)
Definition correctImageData_gain_offset (be : backend) (gain offset : xtensor V)
  : M (xtensor V) unit :=
  src ← get;
  let sh := shape src in
  checkShape sh (shape gain) "data and gain constants have different shapes" 0;;
  checkShape sh (shape offset) "data and offset constants have different shapes" 0;;
  modify (for_each3 be sh (fun i j k src =>
            set3 src i j k (fmul (at3 gain i j k) (fsub (at3 src i j k) (at3 offset i j k))))).
End Kernels.
End ImageArray.

(** ** Specification vocabulary *)

(** A backend whose scheduler honours TBB's contract. *)
Definition fair_backend (be : backend) : Prop :=
  match be with
  | with_tbb sch => fair sch
  | without_tbb => True
  end.

(** ** Pixel rules

    What each masking kernel does to one pixel, as a function of the pixel
    and of the mask bit at its place. *)
Section PixelRules.
Context {V : Type} `{Floating V}.

Definition zero_outside (lb ub : V) (v : V) : V :=
  if isnan v || flt v lb || fgt v ub then fzero else v.

Definition nan_outside (lb ub : V) (v : V) : V :=
  if isnan v then v else if flt v lb || fgt v ub then quiet_NaN else v.
End PixelRules.

(** The NaN-aware mean of a list of values, as a relation between the
    values and their mean: NaN when every value is NaN, otherwise the sum of
    the values that are not NaN, taken in order from zero, over their
    number. *)
Definition not_nan `{Floating V} (l : list V) : list V :=
  filter (fun v => isnan v = false) l.

Definition mean_of `{Floating V} (l : list V) : V :=
  fdiv (foldl fadd fzero l) (of_size (length l)).

Definition is_nanmean_of `{Floating V} (l : list V) (m : V) : Prop :=
  (not_nan l = [] -> isnan m = true) /\
  (not_nan l <> [] -> m = mean_of (not_nan l)).

(** The values of a stack at one pixel, over a selection of frames. *)
Definition selected_values `{Floating V} (src : xtensor V) (sel : list nat) (j k : nat) : list V :=
  (fun i => at3 src i j k) <$> sel.

(** Two pixels that are the same value, or both NaN. *)
Definition same_pixel `{Floating V} (a b : V) : Prop :=
  a = b \/ (isnan a = true /\ isnan b = true).

(** The two builds of stack-wide nanmean give the same result on the same
    input, up to a tolerance [tol] on the pixels: both return, images of one
    shape with pixels within tolerance, or both raise the same error. *)
Definition nanmean_builds_agree `{Floating V} (tol : V -> V -> Prop) : Prop :=
  forall (sch : scheduler) (keep : list nat) (src : xtensor V),
    fair sch ->
    match (ImageArray.nanmeanImageArray_keep (with_tbb sch) keep src).1,
          (ImageArray.nanmeanImageArray_keep without_tbb keep src).1 with
    | Returned m1, Returned m2 => shape m1 = shape m2 /\ Forall2 tol (storage m1) (storage m2)
    | Raised e1, Raised e2 => e1 = e2
    | _, _ => False
    end.

(** A kernel that validates before it writes: on a state that passes the
    validation [ok] it returns; on any other state it raises and the state
    is the one it received; and whenever it raises, the state is the one it
    received. *)
Definition fails_cleanly {St A} (k : M St A) (ok : St -> Prop) : Prop :=
  forall s,
    (ok s -> exists a s', k s = (Returned a, s')) /\
    (~ ok s -> exists e, k s = (Raised e, s)) /\
    (forall e s', k s = (Raised e, s') -> s' = s).

(** ** Concrete binary32 data for the examples of the specification *)

(** The binary32 value of an integer. *)
Definition f32 (z : Z) : spec_float := Binary32.of_Z z.

(** A one-pixel image and a one-pixel stack of frames. *)
Definition pixel {A} (v : A) : xtensor A := XTensor [1; 1] [v].
Definition frames {A} (vs : list A) : xtensor A := XTensor [length vs; 1; 1] vs.

(** The call of the specification's masking example: mask [true, false],
    values [5, 50], thresholds 0 and 10, and an output mask that starts
    clear. *)
Definition example_mask : xtensor bool := XTensor [1; 2] [true; false].
Definition example_image : xtensor spec_float := XTensor [1; 2] [f32 5; f32 50].
Definition example_out : xtensor bool := XTensor [1; 2] [false; false].

(** An image with a NaN pixel under a false mask bit. *)
Definition example_nan_image : xtensor spec_float := XTensor [1; 2] [f32 5; S754_nan].

(** The frames of the specification's nanmean example at one pixel. *)
Definition example_stack : xtensor spec_float := frames [f32 1; S754_nan; f32 3].

(** ** Vocabulary for the further properties *)

(** A value that the thresholds reject, and a value that a threshold kernel
    invalidates: a NaN or a rejected value. *)
Definition outside `{Floating V} (lb ub v : V) : bool := flt v lb || fgt v ub.
Definition invalid `{Floating V} (lb ub v : V) : bool := isnan v || flt v lb || fgt v ub.

(** The frame [t(i, :, :)] of an array of images, as an image. *)
Definition frame {A} (t : xtensor A) (i : nat) : xtensor A :=
  let m := extent (shape t) 1 * extent (shape t) 2 in
  XTensor (tail (shape t)) (take m (drop (i * m) (storage t))).

(** A stack of no frame, for images of the shape of [example_mask]. *)
Definition example_no_frame : xtensor spec_float := XTensor [0; 1; 2] [].

(** An array of two frames of the shape of [example_mask]. *)
Definition example_array : xtensor spec_float :=
  XTensor [2; 1; 2] [f32 5; S754_nan; f32 50; f32 7].

(** * Properties *)

(** ** Loops and cell-wise updates *)

Lemma foldl_pointwise {B St} (f g : St -> B -> St) (l : list B) (s : St) :
  (forall s x, f s x = g s x) -> foldl f s l = foldl g s l.
Proof.
  intros Hfg. revert s. induction l as [|x l IH]; intros s; [done|].
  simpl. rewrite Hfg. apply IH.
Qed.

Lemma foldl_bind {A B St} (f : St -> B -> St) (g : A -> list B) (l : list A) (s : St) :
  foldl f s (l ≫= g) = foldl (fun s x => foldl f s (g x)) s l.
Proof.
  revert s. induction l as [|x l IH]; intros s; [done|].
  rewrite bind_cons, foldl_app. apply IH.
Qed.

Lemma foldl_singleton_bind {A B St} (f : St -> B -> St) (g : A -> B) (l : list A) (s : St) :
  foldl f s (l ≫= fun x => [g x]) = foldl (fun s x => f s (g x)) s l.
Proof. rewrite foldl_bind. done. Qed.

Lemma for_block2_points {St} (block : blocked_range2d) (body : nat -> nat -> St -> St) s :
  for_block2 block body s = foldl (fun s '(j, k) => body j k s) s (points2 block).
Proof.
  unfold for_block2, for_range, points2, span.
  rewrite foldl_bind. apply foldl_pointwise.
  intros s' j. rewrite foldl_singleton_bind. done.
Qed.

Lemma for_block3_points {St} (block : blocked_range3d)
    (body : nat -> nat -> nat -> St -> St) s :
  for_block3 block body s = foldl (fun s '(i, j, k) => body i j k s) s (points3 block).
Proof.
  unfold for_block3, for_range, points3, span.
  rewrite foldl_bind. apply foldl_pointwise.
  intros s' i. rewrite foldl_bind. apply foldl_pointwise.
  intros s'' j. rewrite foldl_singleton_bind. done.
Qed.

Lemma bind_singleton_fmap {A B} (g : A -> B) (l : list A) :
  l ≫= (fun x => [g x]) = g <$> l.
Proof. induction l as [|x l IH]; [done|]. rewrite bind_cons, IH. done. Qed.

(** Row-major offsets: the rows of [m] consecutive offsets follow one
    another. *)
Lemma offsets_rows {C} (m c : nat) (row : nat -> list C) (off : C -> nat) :
  (forall a, off <$> row a = seq ((c + a) * m) m) ->
  forall n s, off <$> (seq s n ≫= row) = seq ((c + s) * m) (n * m).
Proof.
  intros Hrow. induction n as [|n IH]; intros s; [done|].
  rewrite <-cons_seq, bind_cons, fmap_app, Hrow, IH.
  replace (S n * m) with (m + n * m) by lia.
  rewrite seq_app. do 2 f_equal. lia.
Qed.

Lemma offsets_points2 (sh : list nat) (h : nat) :
  (fun p => offset2 sh p.1 p.2) <$> points2 (box2 h (extent sh 1))
  = seq 0 (h * extent sh 1).
Proof.
  unfold points2, span; simpl. rewrite !Nat.sub_0_r.
  apply (offsets_rows (extent sh 1) 0). intros j.
  rewrite bind_singleton_fmap, <-list_fmap_compose.
  transitivity (Nat.add (j * extent sh 1) <$> seq 0 (extent sh 1)).
  - apply list_fmap_ext. intros _ k _. done.
  - rewrite fmap_add_seq. f_equal. lia.
Qed.

Lemma offsets_points3 (sh : list nat) (n : nat) :
  (fun p => offset3 sh p.1.1 p.1.2 p.2) <$> points3 (box3 n (extent sh 1) (extent sh 2))
  = seq 0 (n * (extent sh 1 * extent sh 2)).
Proof.
  unfold points3, span; simpl. rewrite !Nat.sub_0_r.
  apply (offsets_rows (extent sh 1 * extent sh 2) 0). intros i. simpl.
  replace (i * (extent sh 1 * extent sh 2)) with ((i * extent sh 1 + 0) * extent sh 2) by lia.
  apply (offsets_rows (extent sh 2) (i * extent sh 1)). intros j.
  rewrite bind_singleton_fmap, <-list_fmap_compose.
  transitivity (Nat.add ((i * extent sh 1 + j) * extent sh 2) <$> seq 0 (extent sh 2)).
  - apply list_fmap_ext. intros _ k _. done.
  - rewrite fmap_add_seq. f_equal. lia.
Qed.

(** A loop whose body at index [i] rewrites the one cell [off i] of a
    buffer, as a function of what that cell holds: if no cell is visited
    twice, every visited cell ends as that function of its initial
    content, and the other cells are as they were. *)
Section Cellwise.
Context {A I : Type} `{Inhabited A}.
Variables (sh : list nat) (off : I -> nat) (f : I -> A -> A).
Variable body : I -> xtensor A -> xtensor A.
Hypothesis body_cell : forall i t,
  shape t = sh ->
  body i t = XTensor sh (<[off i := f i (storage t !!! off i)]> (storage t)).

Lemma cell_after_write (l : list A) (p : nat) (v : A -> A) :
  <[p := v (l !!! p)]> l !! p = v <$> l !! p.
Proof.
  destruct (l !! p) as [x|] eqn:Hp.
  - rewrite (list_lookup_total_correct _ _ _ Hp).
    apply list_lookup_insert_eq. by eapply lookup_lt_Some.
  - rewrite list_insert_ge by (by apply lookup_ge_None). by rewrite Hp.
Qed.

Lemma foldl_cells (l : list I) (t : xtensor A) :
  shape t = sh -> NoDup (off <$> l) ->
  let t' := foldl (fun t i => body i t) t l in
  shape t' = sh /\
  length (storage t') = length (storage t) /\
  (forall i, i ∈ l -> storage t' !! off i = f i <$> storage t !! off i) /\
  (forall q, q ∉ off <$> l -> storage t' !! q = storage t !! q).
Proof.
  revert t. induction l as [|i l IH]; intros t Hsh Hnd; simpl.
  { repeat split; try done. intros i Hi. by apply elem_of_nil in Hi. }
  rewrite fmap_cons in Hnd. apply NoDup_cons in Hnd as [Hi Hnd].
  rewrite (body_cell i t Hsh).
  destruct (IH (XTensor sh (<[off i := f i (storage t !!! off i)]> (storage t))) eq_refl Hnd)
    as (IHsh & IHlen & IHin & IHout); simpl in *.
  split; [done|]. split; [by rewrite IHlen, length_insert|]. split.
  - intros i' [->|Hi']%elem_of_cons.
    + rewrite (IHout _ Hi). apply cell_after_write.
    + rewrite (IHin _ Hi'). rewrite list_lookup_insert_ne; [done|].
      intros Heq. apply Hi. rewrite Heq. by apply list_elem_of_fmap_2.
  - intros q [Hq Hq']%not_elem_of_cons.
    rewrite (IHout _ Hq'). by rewrite list_lookup_insert_ne.
Qed.
End Cellwise.

(** The same for a body that rewrites the cell [off i] of two buffers of
    one layout, both as functions of the cell of the first buffer (the
    image) and of their own content (the output mask is never read). *)
Section Cellwise2.
Context {A B I : Type} `{Inhabited A} `{Inhabited B}.
Variables (sh sh' : list nat) (off : I -> nat) (f : I -> A -> A) (g : I -> A -> B -> B).
Variable body : I -> xtensor A * xtensor B -> xtensor A * xtensor B.
Hypothesis body_cell : forall i a b,
  shape a = sh -> shape b = sh' ->
  body i (a, b) =
    (XTensor sh (<[off i := f i (storage a !!! off i)]> (storage a)),
     XTensor sh' (<[off i := g i (storage a !!! off i) (storage b !!! off i)]> (storage b))).

Lemma foldl_cells2 (l : list I) (a : xtensor A) (b : xtensor B) :
  shape a = sh -> shape b = sh' -> NoDup (off <$> l) ->
  let st' := foldl (fun st i => body i st) (a, b) l in
  shape st'.1 = sh /\ shape st'.2 = sh' /\
  length (storage st'.1) = length (storage a) /\
  length (storage st'.2) = length (storage b) /\
  (forall i, i ∈ l ->
     storage st'.1 !! off i = f i <$> storage a !! off i /\
     storage st'.2 !! off i = g i (storage a !!! off i) <$> storage b !! off i) /\
  (forall q, q ∉ off <$> l ->
     storage st'.1 !! q = storage a !! q /\ storage st'.2 !! q = storage b !! q).
Proof.
  revert a b. induction l as [|i l IH]; intros a b Ha Hb Hnd; simpl.
  { split_and!; try done. intros i' Hi'. by apply elem_of_nil in Hi'. }
  rewrite fmap_cons in Hnd. apply NoDup_cons in Hnd as [Hi Hnd].
  rewrite (body_cell i a b Ha Hb).
  destruct (IH (XTensor sh (<[off i := f i (storage a !!! off i)]> (storage a)))
               (XTensor sh' (<[off i := g i (storage a !!! off i) (storage b !!! off i)]>
                               (storage b)))
               eq_refl eq_refl Hnd)
    as (IHa & IHb & IHla & IHlb & IHin & IHout); simpl in *.
  split; [done|]. split; [done|].
  split; [by rewrite IHla, length_insert|]. split; [by rewrite IHlb, length_insert|]. split.
  - intros i' [->|Hi']%elem_of_cons.
    + destruct (IHout _ Hi) as [-> ->]. split.
      * apply cell_after_write.
      * apply (cell_after_write (storage b) (off i) (g i (storage a !!! off i))).
    + assert (off i ≠ off i') as Hne.
      { intros Heq. apply Hi. rewrite Heq. by apply list_elem_of_fmap_2. }
      destruct (IHin _ Hi') as [-> ->].
      rewrite list_lookup_total_insert_ne by done.
      by rewrite !list_lookup_insert_ne.
  - intros q [Hq Hq']%not_elem_of_cons.
    destruct (IHout _ Hq') as [-> ->]. by rewrite !list_lookup_insert_ne.
Qed.
End Cellwise2.

(** ** Blocks and tilings *)

Lemma parallel_for_points2 {St} (blocks : list blocked_range2d)
    (body : nat -> nat -> St -> St) (s : St) :
  parallel_for blocks (fun block => for_block2 block body) s
  = foldl (fun s p => body p.1 p.2 s) s (blocks ≫= points2).
Proof.
  unfold parallel_for. rewrite foldl_bind. apply foldl_pointwise.
  intros s' b. rewrite for_block2_points. apply foldl_pointwise. by intros ? [].
Qed.

Lemma parallel_for_points3 {St} (blocks : list blocked_range3d)
    (body : nat -> nat -> nat -> St -> St) (s : St) :
  parallel_for blocks (fun block => for_block3 block body) s
  = foldl (fun s p => body p.1.1 p.1.2 p.2 s) s (blocks ≫= points3).
Proof.
  unfold parallel_for. rewrite foldl_bind. apply foldl_pointwise.
  intros s' b. rewrite for_block3_points. apply foldl_pointwise. by intros ? [[] ?].
Qed.

Lemma elem_of_points2_box (h w j k : nat) :
  (j, k) ∈ points2 (box2 h w) <-> j < h /\ k < w.
Proof.
  unfold points2, span; simpl. rewrite !Nat.sub_0_r. split.
  - intros (j' & (k' & Hp%list_elem_of_singleton & Hk%elem_of_seq)%list_elem_of_bind
               & Hj%elem_of_seq)%list_elem_of_bind.
    inversion Hp; subst. lia.
  - intros [Hj Hk]. apply list_elem_of_bind. exists j. split; [|apply elem_of_seq; lia].
    apply list_elem_of_bind. exists k. split; [by apply list_elem_of_singleton|].
    apply elem_of_seq; lia.
Qed.

Lemma elem_of_points3_box (n h w i j k : nat) :
  (i, j, k) ∈ points3 (box3 n h w) <-> i < n /\ j < h /\ k < w.
Proof.
  unfold points3, span; simpl. rewrite !Nat.sub_0_r. split.
  - intros (i' & (j' & (k' & Hp%list_elem_of_singleton & Hk%elem_of_seq)%list_elem_of_bind
                      & Hj%elem_of_seq)%list_elem_of_bind
               & Hi%elem_of_seq)%list_elem_of_bind.
    inversion Hp; subst. lia.
  - intros (Hi & Hj & Hk). apply list_elem_of_bind. exists i. split; [|apply elem_of_seq; lia].
    apply list_elem_of_bind. exists j. split; [|apply elem_of_seq; lia].
    apply list_elem_of_bind. exists k. split; [by apply list_elem_of_singleton|].
    apply elem_of_seq; lia.
Qed.

Lemma tiles2_one_block (h w : nat) : tiles2 [box2 h w] h w.
Proof. unfold tiles2. by rewrite bind_singleton. Qed.

Lemma tiles3_one_block (n h w : nat) : tiles3 [box3 n h w] n h w.
Proof. unfold tiles3. by rewrite bind_singleton. Qed.

Lemma fair_one_block : fair one_block.
Proof. split; intros; [apply tiles2_one_block | apply tiles3_one_block]. Qed.

Lemma points2_rows (w : nat) (l : list nat) :
  ((fun j => BlockedRange2d (BlockedRange j (S j)) (BlockedRange 0 w)) <$> l) ≫= points2
  = l ≫= fun j => k ← seq 0 w; [(j, k)].
Proof.
  rewrite list_fmap_bind. apply list_bind_ext; [|done]. intros j.
  unfold points2, span; simpl.
  replace (S j - j) with 1 by lia. rewrite Nat.sub_0_r. simpl. by rewrite app_nil_r.
Qed.

Lemma points3_pages (h w : nat) (l : list nat) :
  ((fun i => BlockedRange3d (BlockedRange i (S i)) (BlockedRange 0 h) (BlockedRange 0 w)) <$> l)
    ≫= points3
  = l ≫= fun i => j ← seq 0 h; k ← seq 0 w; [(i, j, k)].
Proof.
  rewrite list_fmap_bind. apply list_bind_ext; [|done]. intros i.
  unfold points3, span; simpl.
  replace (S i - i) with 1 by lia. rewrite !Nat.sub_0_r. simpl. by rewrite app_nil_r.
Qed.

Lemma fair_by_rows_reversed : fair by_rows_reversed.
Proof.
  split.
  - intros h w. unfold tiles2; simpl. rewrite points2_rows.
    rewrite reverse_Permutation. unfold points2, span; simpl. by rewrite !Nat.sub_0_r.
  - intros n h w. unfold tiles3; simpl. rewrite points3_pages.
    rewrite reverse_Permutation. unfold points3, span; simpl. by rewrite !Nat.sub_0_r.
Qed.

(** ** Loop nests over an image and over an image array *)

Section ImageLoops.
Context {A : Type} `{Inhabited A}.
Variable sh : list nat.

Lemma cells2 (f : nat -> nat -> A -> A) (body : nat -> nat -> xtensor A -> xtensor A)
    (blocks : list blocked_range2d) (t : xtensor A) :
  (forall j k t, shape t = sh ->
     body j k t = XTensor sh (<[offset2 sh j k := f j k (storage t !!! offset2 sh j k)]>
                                (storage t))) ->
  tiles2 blocks (extent sh 0) (extent sh 1) ->
  shape t = sh ->
  let t' := parallel_for blocks (fun block => for_block2 block body) t in
  shape t' = sh /\
  length (storage t') = length (storage t) /\
  (forall j k, j < extent sh 0 -> k < extent sh 1 ->
     storage t' !! offset2 sh j k = f j k <$> storage t !! offset2 sh j k) /\
  (forall q, extent sh 0 * extent sh 1 <= q -> storage t' !! q = storage t !! q).
Proof.
  intros Hbody Htiles Hsh. simpl. rewrite parallel_for_points2. unfold tiles2 in Htiles.
  pose proof (fmap_Permutation (fun p : nat * nat => offset2 sh p.1 p.2) _ _ Htiles) as Hoff.
  rewrite offsets_points2 in Hoff.
  destruct (foldl_cells sh (fun p => offset2 sh p.1 p.2) (fun p => f p.1 p.2)
              (fun p => body p.1 p.2) (fun p t Ht => Hbody p.1 p.2 t Ht)
              (blocks ≫= points2) t Hsh) as (H1 & H2 & H3 & H4).
  { rewrite Hoff. apply NoDup_seq. }
  split_and!; [done|done| |].
  - intros j k Hj Hk. apply (H3 (j, k)).
    rewrite Htiles. by apply elem_of_points2_box.
  - intros q Hq. apply H4. rewrite Hoff, elem_of_seq. lia.
Qed.

Lemma cells3 (f : nat -> nat -> nat -> A -> A)
    (body : nat -> nat -> nat -> xtensor A -> xtensor A)
    (blocks : list blocked_range3d) (t : xtensor A) :
  (forall i j k t, shape t = sh ->
     body i j k t = XTensor sh (<[offset3 sh i j k := f i j k (storage t !!! offset3 sh i j k)]>
                                  (storage t))) ->
  tiles3 blocks (extent sh 0) (extent sh 1) (extent sh 2) ->
  shape t = sh ->
  let t' := parallel_for blocks (fun block => for_block3 block body) t in
  shape t' = sh /\
  length (storage t') = length (storage t) /\
  (forall i j k, i < extent sh 0 -> j < extent sh 1 -> k < extent sh 2 ->
     storage t' !! offset3 sh i j k = f i j k <$> storage t !! offset3 sh i j k) /\
  (forall q, extent sh 0 * (extent sh 1 * extent sh 2) <= q ->
     storage t' !! q = storage t !! q).
Proof.
  intros Hbody Htiles Hsh. simpl. rewrite parallel_for_points3. unfold tiles3 in Htiles.
  pose proof (fmap_Permutation (fun p : nat * nat * nat => offset3 sh p.1.1 p.1.2 p.2)
                _ _ Htiles) as Hoff.
  rewrite offsets_points3 in Hoff.
  destruct (foldl_cells sh (fun p => offset3 sh p.1.1 p.1.2 p.2) (fun p => f p.1.1 p.1.2 p.2)
              (fun p => body p.1.1 p.1.2 p.2) (fun p t Ht => Hbody p.1.1 p.1.2 p.2 t Ht)
              (blocks ≫= points3) t Hsh) as (H1 & H2 & H3 & H4).
  { rewrite Hoff. apply NoDup_seq. }
  split_and!; [done|done| |].
  - intros i j k Hi Hj Hk. apply (H3 (i, j, k)).
    rewrite Htiles. by apply elem_of_points3_box.
  - intros q Hq. apply H4. rewrite Hoff, elem_of_seq. lia.
Qed.
End ImageLoops.

Lemma insert_lookup_total_id {A} `{Inhabited A} (l : list A) (p : nat) :
  <[p := l !!! p]> l = l.
Proof.
  destruct (l !! p) as [x|] eqn:Hp.
  - rewrite (list_lookup_total_correct _ _ _ Hp). by apply list_insert_id.
  - apply list_insert_ge. by apply lookup_ge_None.
Qed.

Lemma lookup_total_of_lookup_fmap {A} `{Inhabited A} (l l' : list A) (p : nat) (v : A -> A) :
  p < length l -> l' !! p = v <$> l !! p -> l' !!! p = v (l !!! p).
Proof.
  intros Hp Hl. rewrite (list_lookup_lookup_total_lt l p Hp) in Hl.
  by apply list_lookup_total_correct.
Qed.

Lemma offset2_lt (h w j k : nat) : j < h -> k < w -> offset2 [h; w] j k < h * w.
Proof. unfold offset2, extent; simpl. nia. Qed.

Lemma offset3_lt (n h w i j k : nat) :
  i < n -> j < h -> k < w -> offset3 [n; h; w] i j k < n * h * w.
Proof.
  unfold offset3, extent; simpl. intros Hi Hj Hk.
  assert (i * h + j + 1 <= n * h) as Hrow by nia.
  pose proof (Nat.mul_le_mono_r _ _ w Hrow). nia.
Qed.

(** Every offset below the number of cells is the offset of a point. *)
Lemma offset2_cover (sh : list nat) (q : nat) :
  q < extent sh 0 * extent sh 1 ->
  exists j k, j < extent sh 0 /\ k < extent sh 1 /\ q = offset2 sh j k.
Proof.
  intros Hq.
  assert (q ∈ (fun p => offset2 sh p.1 p.2) <$> points2 (box2 (extent sh 0) (extent sh 1)))
    as ([j k] & -> & Hp%elem_of_points2_box)%list_elem_of_fmap.
  { rewrite offsets_points2. apply elem_of_seq. lia. }
  exists j, k. tauto.
Qed.

Lemma offset3_cover (sh : list nat) (q : nat) :
  q < extent sh 0 * (extent sh 1 * extent sh 2) ->
  exists i j k, i < extent sh 0 /\ j < extent sh 1 /\ k < extent sh 2 /\ q = offset3 sh i j k.
Proof.
  intros Hq.
  assert (q ∈ (fun p => offset3 sh p.1.1 p.1.2 p.2)
              <$> points3 (box3 (extent sh 0) (extent sh 1) (extent sh 2)))
    as ([[i j] k] & -> & Hp%elem_of_points3_box)%list_elem_of_fmap.
  { rewrite offsets_points3. apply elem_of_seq. lia. }
  exists i, j, k. tauto.
Qed.

Lemma for_nest2_one_block {St} (h w : nat) (body : nat -> nat -> St -> St) (s : St) :
  for_range 0 h (fun j => for_range 0 w (fun k => body j k)) s
  = parallel_for [box2 h w] (fun block => for_block2 block body) s.
Proof. done. Qed.

Lemma for_nest3_one_block {St} (n h w : nat) (body : nat -> nat -> nat -> St -> St) (s : St) :
  for_range 0 n (fun i => for_range 0 h (fun j => for_range 0 w (fun k => body i j k))) s
  = parallel_for [box3 n h w] (fun block => for_block3 block body) s.
Proof. done. Qed.

(** The loop nest of the single-image kernels on a well-formed image. *)
Lemma image_nest {A} `{Inhabited A} (f : nat -> nat -> A -> A)
    (body : nat -> nat -> xtensor A -> xtensor A) (t : xtensor A) (h w : nat) :
  (forall j k t, shape t = [h; w] ->
     body j k t = XTensor [h; w] (<[offset2 [h; w] j k := f j k (storage t !!! offset2 [h; w] j k)]>
                                    (storage t))) ->
  is_image t h w ->
  let t' := for_range 0 h (fun j => for_range 0 w (fun k => body j k)) t in
  is_image t' h w /\
  (forall j k, j < h -> k < w -> at2 t' j k = f j k (at2 t j k)).
Proof.
  intros Hbody [Hsh Hlen]. simpl. rewrite for_nest2_one_block.
  destruct (cells2 [h; w] f body [box2 h w] t Hbody (tiles2_one_block h w) Hsh)
    as (H1 & H2 & H3 & _).
  split; [split; [done | by rewrite H2]|].
  intros j k Hj Hk. unfold at2. rewrite H1, Hsh.
  apply lookup_total_of_lookup_fmap; [rewrite Hlen; by apply offset2_lt|].
  by apply H3.
Qed.

(** The loop header of the image-array kernels, on either build. *)
Lemma for_each3_tbb {St} (be : backend) (sh : list nat)
    (body : nat -> nat -> nat -> St -> St) (s : St) :
  exists blocks,
    for_each3 be sh body s = parallel_for blocks (fun block => for_block3 block body) s /\
    ((forall sch, be = with_tbb sch -> fair sch) ->
     tiles3 blocks (extent sh 0) (extent sh 1) (extent sh 2)).
Proof.
  destruct be as [sch|]; simpl.
  - eexists. split; [done|]. intros Hfair. by apply (Hfair sch).
  - exists [box3 (extent sh 0) (extent sh 1) (extent sh 2)]. split; [done|].
    intros _. apply tiles3_one_block.
Qed.

Lemma array_each {A} `{Inhabited A} (be : backend) (f : nat -> nat -> nat -> A -> A)
    (body : nat -> nat -> nat -> xtensor A -> xtensor A) (t : xtensor A) (n h w : nat) :
  (forall i j k t, shape t = [n; h; w] ->
     body i j k t = XTensor [n; h; w]
                      (<[offset3 [n; h; w] i j k := f i j k (storage t !!! offset3 [n; h; w] i j k)]>
                         (storage t))) ->
  fair_backend be ->
  is_image_array t n h w ->
  let t' := for_each3 be [n; h; w] body t in
  is_image_array t' n h w /\
  (forall i j k, i < n -> j < h -> k < w -> at3 t' i j k = f i j k (at3 t i j k)).
Proof.
  intros Hbody Hfair [Hsh Hlen]. simpl.
  destruct (for_each3_tbb be [n; h; w] body t) as (blocks & -> & Htiles).
  destruct (cells3 [n; h; w] f body blocks t Hbody) as (H1 & H2 & H3 & _); [|done|].
  { apply Htiles. intros sch ->. done. }
  split; [split; [done | by rewrite H2]|].
  intros i j k Hi Hj Hk. unfold at3. rewrite H1, Hsh.
  apply lookup_total_of_lookup_fmap; [rewrite Hlen; by apply offset3_lt|].
  by apply H3.
Qed.

(** Rewrites a loop body into the shape that [cells2] and [cells3] expect:
    one write to the visited cell, possibly of what it already holds. *)
Ltac cell_body :=
  intros; unfold at2, at3, set2, set3 in *;
  repeat match goal with
         | Ht : shape ?t = _ |- _ => destruct t; simpl in Ht; subst; simpl
         end;
  repeat match goal with
         | |- context [if ?c then _ else _] => destruct c eqn:?; simpl
         end;
  rewrite ?insert_lookup_total_id; try done.

(** Runs the monadic prelude of a kernel: the reads of the state, the
    checks and the final write. *)
Ltac run_kernel :=
  cbv beta iota zeta delta [mbind M_bind mret M_ret get modify throw throw_if checkShape].

Section ThresholdIdempotence.
Context {V : Type} `{Floating V}.

Lemma zero_outside_idempotent lb ub v :
  zero_outside lb ub (zero_outside lb ub v) = zero_outside lb ub v.
Proof.
  unfold zero_outside.
  destruct (isnan v || flt v lb || fgt v ub) eqn:Hv.
  - by destruct (isnan fzero || flt fzero lb || fgt fzero ub).
  - by rewrite Hv.
Qed.

Lemma maskImageDataZero_ET_cells (lb ub : V) (src : xtensor V) :
  exists once,
    Image.maskImageDataZero_ET lb ub src = (Returned tt, once) /\
    shape once = shape src /\
    (forall j k, j < extent (shape src) 0 -> k < extent (shape src) 1 ->
       storage once !! offset2 (shape src) j k
       = zero_outside lb ub <$> storage src !! offset2 (shape src) j k) /\
    (forall q, extent (shape src) 0 * extent (shape src) 1 <= q ->
       storage once !! q = storage src !! q).
Proof.
  unfold Image.maskImageDataZero_ET. run_kernel.
  eexists. split; [reflexivity|].
  rewrite for_nest2_one_block.
  edestruct (cells2 (shape src) (fun _ _ => zero_outside lb ub)) as (H1 & _ & H3 & H4);
    [|apply tiles2_one_block|reflexivity|]; [|by eauto].
  unfold zero_outside. cell_body.
Qed.
End ThresholdIdempotence.

Section ThresholdIdempotenceClaim.
Context {V : Type} `{Floating V}.

(** C10. Zero-variant threshold masking of an image is idempotent: a second
    call of [maskImageDataZero(src, lb, ub)] returns and leaves the image as
    the first call left it, whatever the image and the thresholds. *)
Theorem maskImageDataZero_ET_idempotent (lb ub : V) (src : xtensor V) :
  exists once,
    Image.maskImageDataZero_ET lb ub src = (Returned tt, once) /\
    Image.maskImageDataZero_ET lb ub once = (Returned tt, once).
Proof.
  destruct (maskImageDataZero_ET_cells lb ub src) as (once & Hrun & Hsh & Hin & Hout).
  destruct (maskImageDataZero_ET_cells lb ub once) as (twice & Hrun' & Hsh' & Hin' & Hout').
  exists once. split; [done|]. rewrite Hrun'. f_equal.
  destruct twice as [sh2 l2], once as [sh1 l1]; simpl in *. subst sh2 sh1.
  f_equal. apply list_eq. intros q.
  destruct (decide (q < extent (shape src) 0 * extent (shape src) 1)) as [Hq|Hq].
  - destruct (offset2_cover _ _ Hq) as (j & k & Hj & Hk & ->).
    rewrite (Hin' j k Hj Hk), (Hin j k Hj Hk).
    destruct (storage src !! offset2 (shape src) j k); simpl; [|done].
    by rewrite zero_outside_idempotent.
  - apply Hout'. lia.
Qed.
End ThresholdIdempotenceClaim.

(** The loop nest of the single-image kernels that also record into an
    output mask. *)
Lemma image_nest2 {A B} `{Inhabited A} `{Inhabited B}
    (f : nat -> nat -> A -> A) (g : nat -> nat -> A -> B -> B)
    (body : nat -> nat -> xtensor A * xtensor B -> xtensor A * xtensor B)
    (a : xtensor A) (b : xtensor B) (h w : nat) :
  (forall j k a b, shape a = [h; w] -> shape b = [h; w] ->
     body j k (a, b) =
       (XTensor [h; w] (<[offset2 [h; w] j k := f j k (storage a !!! offset2 [h; w] j k)]>
                          (storage a)),
        XTensor [h; w] (<[offset2 [h; w] j k :=
                            g j k (storage a !!! offset2 [h; w] j k)
                                  (storage b !!! offset2 [h; w] j k)]> (storage b)))) ->
  is_image a h w -> is_image b h w ->
  let st' := for_range 0 h (fun j => for_range 0 w (fun k => body j k)) (a, b) in
  is_image st'.1 h w /\ is_image st'.2 h w /\
  (forall j k, j < h -> k < w ->
     at2 st'.1 j k = f j k (at2 a j k) /\
     at2 st'.2 j k = g j k (at2 a j k) (at2 b j k)).
Proof.
  intros Hbody [Ha Hla] [Hb Hlb]. simpl.
  change (for_range 0 h (fun j => for_range 0 w (fun k => body j k)) (a, b))
    with (for_block2 (box2 h w) body (a, b)).
  rewrite for_block2_points.
  rewrite (foldl_pointwise _ (fun st p => body p.1 p.2 st)) by (by intros ? []).
  destruct (foldl_cells2 [h; w] [h; w] (fun p => offset2 [h; w] p.1 p.2)
              (fun p => f p.1 p.2) (fun p => g p.1 p.2) (fun p => body p.1 p.2)
              (fun p a b Ha Hb => Hbody p.1 p.2 a b Ha Hb)
              (points2 (box2 h w)) a b Ha Hb)
    as (H1 & H2 & H3 & H4 & H5 & _).
  { pose proof (offsets_points2 [h; w] h) as Hoff.
    change (extent [h; w] 1) with w in Hoff. rewrite Hoff. apply NoDup_seq. }
  split; [split; [done | by rewrite H3]|]. split; [split; [done | by rewrite H4]|].
  intros j k Hj Hk.
  destruct (H5 (j, k)) as [H5a H5b]; [by apply elem_of_points2_box|]. simpl in *.
  unfold at2. rewrite H1, H2, Ha, Hb. split.
  - apply lookup_total_of_lookup_fmap; [rewrite Hla; by apply offset2_lt|done].
  - apply lookup_total_of_lookup_fmap; [rewrite Hlb; by apply offset2_lt|done].
Qed.

(** Discharges the shape checks that the hypotheses make succeed. *)
Ltac pass_checks :=
  repeat match goal with
         | Hs : shape ?t = _ |- context [shape ?t] => rewrite Hs
         end;
  repeat (rewrite decide_True by done; run_kernel).

Section MaskSingleImage.
Context {V : Type} `{Floating V}.

Lemma maskImageDataZero_EM_spec (mask : xtensor bool) (src : xtensor V) (h w : nat) :
  is_image src h w -> is_image mask h w ->
  exists z,
    Image.maskImageDataZero_EM mask src = (Returned tt, z) /\
    is_image z h w /\
    (forall j k, j < h -> k < w ->
       at2 z j k = if at2 mask j k || isnan (at2 src j k) then fzero else at2 src j k).
Proof.
  intros Hsrc [Hm Hlm]. pose proof Hsrc as [Hs Hl].
  unfold Image.maskImageDataZero_EM. run_kernel. pass_checks.
  eexists. split; [reflexivity|].
  apply (image_nest (fun j k v => if at2 mask j k || isnan v then fzero else v)); [|done].
  cell_body.
Qed.

Lemma maskImageDataNan_EM_spec (mask : xtensor bool) (src : xtensor V) (h w : nat) :
  is_image src h w -> is_image mask h w ->
  exists n,
    Image.maskImageDataNan_EM mask src = (Returned tt, n) /\
    is_image n h w /\
    (forall j k, j < h -> k < w ->
       at2 n j k = if at2 mask j k then quiet_NaN else at2 src j k).
Proof.
  intros Hsrc [Hm Hlm]. pose proof Hsrc as [Hs Hl].
  unfold Image.maskImageDataNan_EM. run_kernel. pass_checks.
  eexists. split; [reflexivity|].
  apply (image_nest (fun j k v => if at2 mask j k then quiet_NaN else v)); [|done].
  cell_body.
Qed.

(** C7. On an image and a mask of its shape, the Zero-variant mask-only
    overload zeroes a pixel when the mask is true there or the pixel is NaN
    (a NaN under a false mask bit is zeroed too) and leaves the others; the
    Nan-variant writes NaN exactly where the mask is true and leaves every
    pixel under a false mask bit as it was, NaN or not. *)
Theorem mask_only_zero_and_nan (mask : xtensor bool) (src : xtensor V) (h w : nat) :
  is_image src h w -> is_image mask h w ->
  exists z n,
    Image.maskImageDataZero_EM mask src = (Returned tt, z) /\
    Image.maskImageDataNan_EM mask src = (Returned tt, n) /\
    is_image z h w /\ is_image n h w /\
    (forall j k, j < h -> k < w ->
       (at2 mask j k = true \/ isnan (at2 src j k) = true -> at2 z j k = fzero) /\
       (at2 mask j k = false -> isnan (at2 src j k) = false -> at2 z j k = at2 src j k) /\
       (at2 mask j k = true -> at2 n j k = quiet_NaN) /\
       (at2 mask j k = false -> at2 n j k = at2 src j k)).
Proof.
  intros Hsrc Hmask.
  destruct (maskImageDataZero_EM_spec mask src h w Hsrc Hmask) as (z & Hz & Hzi & Hzc).
  destruct (maskImageDataNan_EM_spec mask src h w Hsrc Hmask) as (n & Hn & Hni & Hnc).
  exists z, n. split_and!; try done.
  intros j k Hj Hk. rewrite (Hzc j k Hj Hk), (Hnc j k Hj Hk).
  split_and!.
  - intros [-> | ->]; [done|]. by rewrite orb_true_r.
  - by intros -> ->.
  - by intros ->.
  - by intros ->.
Qed.

Lemma maskImageDataNan_EMTN_spec (mask : xtensor bool) (lb ub : V)
    (src : xtensor V) (out : xtensor bool) (h w : nat) :
  is_image src h w -> is_image mask h w -> is_image out h w ->
  exists st',
    Image.maskImageDataNan_EMTN mask lb ub (src, out) = (Returned tt, st') /\
    is_image st'.1 h w /\ is_image st'.2 h w /\
    (forall j k, j < h -> k < w ->
       at2 st'.1 j k = (if at2 mask j k then quiet_NaN else nan_outside lb ub (at2 src j k)) /\
       at2 st'.2 j k = (if at2 mask j k then true
                        else if isnan (at2 src j k) then true
                        else if flt (at2 src j k) lb || fgt (at2 src j k) ub then true
                        else at2 out j k)).
Proof.
  intros Hsrc [Hm Hlm] Hout. pose proof Hsrc as [Hs Hl]. pose proof Hout as [Ho Hlo].
  unfold Image.maskImageDataNan_EMTN. run_kernel. pass_checks.
  eexists. split; [reflexivity|].
  apply (image_nest2
           (fun j k v => if at2 mask j k then quiet_NaN else nan_outside lb ub v)
           (fun j k v o => if at2 mask j k then true
                           else if isnan v then true
                           else if flt v lb || fgt v ub then true else o)); [|done|done].
  unfold nan_outside. cell_body.
Qed.

(** C1. The Nan-variant mask+threshold overload with an output mask, on an
    image, a mask and an output mask of one shape, decides every pixel in
    the order mask, NaN, threshold: under a true mask bit the pixel becomes
    NaN and is recorded; otherwise a pixel that is NaN is recorded and keeps
    its value; otherwise a pixel below [lb] or above [ub] becomes NaN and is
    recorded; every other pixel and output bit is as it was. *)
Theorem maskImageDataNan_EMTN_order (mask : xtensor bool) (lb ub : V)
    (src : xtensor V) (out : xtensor bool) (h w : nat) :
  is_image src h w -> is_image mask h w -> is_image out h w ->
  exists src' out',
    Image.maskImageDataNan_EMTN mask lb ub (src, out) = (Returned tt, (src', out')) /\
    is_image src' h w /\ is_image out' h w /\
    (forall j k, j < h -> k < w ->
       let v := at2 src j k in
       if at2 mask j k then at2 src' j k = quiet_NaN /\ at2 out' j k = true
       else if isnan v then at2 src' j k = v /\ at2 out' j k = true
       else if flt v lb || fgt v ub then at2 src' j k = quiet_NaN /\ at2 out' j k = true
       else at2 src' j k = v /\ at2 out' j k = at2 out j k).
Proof.
  intros Hsrc Hmask Hout.
  destruct (maskImageDataNan_EMTN_spec mask lb ub src out h w Hsrc Hmask Hout)
    as ([src' out'] & Hrun & Hs' & Ho' & Hcells).
  exists src', out'. split_and!; try done.
  intros j k Hj Hk. destruct (Hcells j k Hj Hk) as [Hv Ho]. simpl in *.
  rewrite Hv, Ho. unfold nan_outside. by repeat case_match.
Qed.
End MaskSingleImage.

(** ** Moving average and correction *)

Section Arithmetic.
Context {V : Type} `{Floating V}.

Lemma correct_image (gain offset src : xtensor V) (h w : nat) :
  is_image src h w -> is_image gain h w -> is_image offset h w ->
  exists r,
    Image.correctImageData_gain_offset gain offset src = (Returned tt, r) /\
    is_image r h w /\
    (forall j k, j < h -> k < w ->
       at2 r j k = fmul (at2 gain j k) (fsub (at2 src j k) (at2 offset j k))).
Proof.
  intros Hsrc [Hg Hlg] [Ho Hlo]. pose proof Hsrc as [Hs Hl].
  unfold Image.correctImageData_gain_offset. run_kernel. pass_checks.
  eexists. split; [reflexivity|].
  apply (image_nest (fun j k v => fmul (at2 gain j k) (fsub v (at2 offset j k)))); [|done].
  cell_body.
Qed.

Lemma correct_array (be : backend) (gain offset src : xtensor V) (n h w : nat) :
  fair_backend be ->
  is_image_array src n h w -> is_image_array gain n h w -> is_image_array offset n h w ->
  exists r,
    ImageArray.correctImageData_gain_offset be gain offset src = (Returned tt, r) /\
    is_image_array r n h w /\
    (forall i j k, i < n -> j < h -> k < w ->
       at3 r i j k = fmul (at3 gain i j k) (fsub (at3 src i j k) (at3 offset i j k))).
Proof.
  intros Hfair Hsrc [Hg Hlg] [Ho Hlo]. pose proof Hsrc as [Hs Hl].
  unfold ImageArray.correctImageData_gain_offset. run_kernel. pass_checks.
  eexists. split; [reflexivity|].
  apply (array_each be (fun i j k v => fmul (at3 gain i j k) (fsub v (at3 offset i j k))));
    [|done|done].
  cell_body.
Qed.

(** One step of the moving average on one value. *)
Lemma isnan_moving_avg (a d c : V) :
  isnan a || isnan d = true -> isnan (fadd a (fdiv (fsub d a) c)) = true.
Proof.
  intros Hnan. apply isnan_fadd. destruct (isnan a) eqn:Ha; [done|]. simpl in *.
  apply isnan_fdiv. rewrite (isnan_fsub d a); [done|]. by rewrite Hnan.
Qed.

Lemma movingAvg_image (data avg : xtensor V) (count h w : nat) :
  is_image avg h w -> is_image data h w -> 1 <= count ->
  exists avg',
    Image.movingAvgImageData data count avg = (Returned tt, avg') /\
    is_image avg' h w /\
    (forall j k, j < h -> k < w ->
       at2 avg' j k
       = fadd (at2 avg j k) (fdiv (fsub (at2 data j k) (at2 avg j k)) (of_size count))).
Proof.
  intros Havg [Hd Hld] Hcount. pose proof Havg as [Hs Hl].
  unfold Image.movingAvgImageData. run_kernel.
  rewrite bool_decide_eq_false_2 by lia. run_kernel. pass_checks.
  eexists. split; [reflexivity|].
  apply (image_nest (fun j k v => fadd v (fdiv (fsub (at2 data j k) v) (of_size count))));
    [|done].
  cell_body.
Qed.

Lemma movingAvg_array (be : backend) (data avg : xtensor V) (count n h w : nat) :
  fair_backend be ->
  is_image_array avg n h w -> is_image_array data n h w -> 1 <= count ->
  exists avg',
    ImageArray.movingAvgImageData be data count avg = (Returned tt, avg') /\
    is_image_array avg' n h w /\
    (forall i j k, i < n -> j < h -> k < w ->
       at3 avg' i j k
       = fadd (at3 avg i j k) (fdiv (fsub (at3 data i j k) (at3 avg i j k)) (of_size count))).
Proof.
  intros Hfair Havg [Hd Hld] Hcount. pose proof Havg as [Hs Hl].
  unfold ImageArray.movingAvgImageData. run_kernel.
  rewrite bool_decide_eq_false_2 by lia. run_kernel. pass_checks.
  eexists. split; [reflexivity|].
  apply (array_each be
           (fun i j k v => fadd v (fdiv (fsub (at3 data i j k) v) (of_size count))));
    [|done|done].
  cell_body.
Qed.
End Arithmetic.

(** The running mean of the frames 2, 4, 6 from a zero average, in binary32. *)
Lemma movingAvg_running_mean :
  Image.movingAvgImageData (pixel (f32 2)) 1 (pixel (f32 0)) = (Returned tt, pixel (f32 2)) /\
  Image.movingAvgImageData (pixel (f32 4)) 2 (pixel (f32 2)) = (Returned tt, pixel (f32 3)) /\
  Image.movingAvgImageData (pixel (f32 6)) 3 (pixel (f32 3)) = (Returned tt, pixel (f32 4)).
Proof. by vm_compute. Qed.

(** C8. [movingAvg], on an image or on an array of images (either build)
    and for a count of at least one, returns and leaves in [avg], at every
    element, [avg + (newFrame - avg) / count]; a NaN in either operand
    makes the new element NaN; and from a zero average the frames 2, 4, 6
    with the counts 1, 2, 3 give 2, 3, 4 in binary32. *)
Theorem movingAvg_recurrence :
  (forall (V : Type) (F : Floating V) (data avg : xtensor V) (count h w : nat),
     is_image avg h w -> is_image data h w -> 1 <= count ->
     exists avg',
       Image.movingAvgImageData data count avg = (Returned tt, avg') /\
       is_image avg' h w /\
       (forall j k, j < h -> k < w ->
          at2 avg' j k
          = fadd (at2 avg j k) (fdiv (fsub (at2 data j k) (at2 avg j k)) (of_size count)) /\
          (isnan (at2 avg j k) || isnan (at2 data j k) = true ->
           isnan (at2 avg' j k) = true))) /\
  (forall (V : Type) (F : Floating V) (be : backend) (data avg : xtensor V) (count n h w : nat),
     fair_backend be ->
     is_image_array avg n h w -> is_image_array data n h w -> 1 <= count ->
     exists avg',
       ImageArray.movingAvgImageData be data count avg = (Returned tt, avg') /\
       is_image_array avg' n h w /\
       (forall i j k, i < n -> j < h -> k < w ->
          at3 avg' i j k
          = fadd (at3 avg i j k) (fdiv (fsub (at3 data i j k) (at3 avg i j k)) (of_size count)) /\
          (isnan (at3 avg i j k) || isnan (at3 data i j k) = true ->
           isnan (at3 avg' i j k) = true))) /\
  (Image.movingAvgImageData (pixel (f32 2)) 1 (pixel (f32 0)) = (Returned tt, pixel (f32 2)) /\
   Image.movingAvgImageData (pixel (f32 4)) 2 (pixel (f32 2)) = (Returned tt, pixel (f32 3)) /\
   Image.movingAvgImageData (pixel (f32 6)) 3 (pixel (f32 3)) = (Returned tt, pixel (f32 4))).
Proof.
  split; [|split; [|apply movingAvg_running_mean]].
  - intros V F data avg count h w Havg Hdata Hcount.
    destruct (movingAvg_image data avg count h w Havg Hdata Hcount) as (avg' & Hrun & Hi & Hc).
    exists avg'. split_and!; try done.
    intros j k Hj Hk. rewrite (Hc j k Hj Hk). split; [done|]. apply isnan_moving_avg.
  - intros V F be data avg count n h w Hfair Havg Hdata Hcount.
    destruct (movingAvg_array be data avg count n h w Hfair Havg Hdata Hcount)
      as (avg' & Hrun & Hi & Hc).
    exists avg'. split_and!; try done.
    intros i j k Hi' Hj Hk. rewrite (Hc i j k Hi' Hj Hk). split; [done|].
    apply isnan_moving_avg.
Qed.

(** C9. The combined correction, on an image or on an array of images
    (either build) with gain and offset constants of the shape of the data,
    returns and leaves at every element [gain * (src - offset)]: the offset
    is subtracted first, then the gain multiplies; the kernel takes no
    argument that would change this order. *)
Theorem correct_gain_after_offset :
  (forall (V : Type) (F : Floating V) (gain offset src : xtensor V) (h w : nat),
     is_image src h w -> is_image gain h w -> is_image offset h w ->
     exists r,
       Image.correctImageData_gain_offset gain offset src = (Returned tt, r) /\
       is_image r h w /\
       (forall j k, j < h -> k < w ->
          at2 r j k = fmul (at2 gain j k) (fsub (at2 src j k) (at2 offset j k)))) /\
  (forall (V : Type) (F : Floating V) (be : backend) (gain offset src : xtensor V) (n h w : nat),
     fair_backend be ->
     is_image_array src n h w -> is_image_array gain n h w -> is_image_array offset n h w ->
     exists r,
       ImageArray.correctImageData_gain_offset be gain offset src = (Returned tt, r) /\
       is_image_array r n h w /\
       (forall i j k, i < n -> j < h -> k < w ->
          at3 r i j k = fmul (at3 gain i j k) (fsub (at3 src i j k) (at3 offset i j k)))).
Proof.
  split.
  - intros V F gain offset src h w. apply correct_image.
  - intros V F be gain offset src n h w. apply correct_array.
Qed.

(** ** Validation precedes mutation *)

Ltac fails_cleanly_goal :=
  (split; [|split]);
  [ intros ?; first [exfalso; tauto | by do 2 eexists]
  | intros ?; first [exfalso; tauto | by eexists]
  | intros ? ? [=]; done ].

Ltac fails_cleanly_case :=
  repeat first [case_decide | case_bool_decide]; run_kernel; fails_cleanly_goal.

Ltac prove_fails_cleanly :=
  intros s; run_kernel;
  try (destruct s as [? ?]); simpl drop; fails_cleanly_case.

(** C5. Every kernel that can fail does all its checks (shapes, a zero
    count, an empty [keep] on the TBB build) before its first write: it
    raises exactly when a check fails, and whenever it raises, the buffers
    it received by mutable reference are as they were. *)
Theorem kernels_validate_before_writing
    (V : Type) (F : Floating V) (be : backend) (lb ub : V) (p : policy)
    (mask : xtensor bool) (img data constants gain offset : xtensor V)
    (count : nat) (keep : list nat) :
  fails_cleanly (Image.imageDataNanMask img) (fun out => shape img = shape out) /\
  fails_cleanly (Image.maskImageDataZero_ETN lb ub)
                (fun '(src, out) => shape src = shape out) /\
  fails_cleanly (Image.maskImageDataNan_ETN lb ub)
                (fun '(src, out) => shape src = shape out) /\
  fails_cleanly (Image.maskImageDataZero_EM mask) (fun src => shape src = shape mask) /\
  fails_cleanly (Image.maskImageDataZero_EMN mask)
                (fun '(src, out) => shape src = shape mask /\ shape src = shape out) /\
  fails_cleanly (Image.maskImageDataNan_EM mask) (fun src => shape src = shape mask) /\
  fails_cleanly (Image.maskImageDataNan_EMN mask)
                (fun '(src, out) => shape src = shape mask /\ shape src = shape out) /\
  fails_cleanly (Image.maskImageDataZero_EMT mask lb ub) (fun src => shape src = shape mask) /\
  fails_cleanly (Image.maskImageDataZero_EMTN mask lb ub)
                (fun '(src, out) => shape src = shape mask /\ shape src = shape out) /\
  fails_cleanly (Image.maskImageDataNan_EMT mask lb ub) (fun src => shape src = shape mask) /\
  fails_cleanly (Image.maskImageDataNan_EMTN mask lb ub)
                (fun '(src, out) => shape src = shape mask /\ shape src = shape out) /\
  fails_cleanly (Image.movingAvgImageData data count)
                (fun src => count <> 0 /\ shape src = shape data) /\
  fails_cleanly (Image.correctImageData p constants)
                (fun src => shape src = shape constants) /\
  fails_cleanly (Image.correctImageData_gain_offset gain offset)
                (fun src => shape src = shape gain /\ shape src = shape offset) /\
  fails_cleanly (Image.nanmeanImageArray_EE be)
                (fun '(src1, src2) => shape src1 = shape src2) /\
  fails_cleanly (ImageArray.nanmeanImageArray_keep be keep)
                (fun _ => match be with with_tbb _ => keep <> [] | without_tbb => True end) /\
  fails_cleanly (ImageArray.maskImageDataZero_EM be mask)
                (fun src => drop 1 (shape src) = shape mask) /\
  fails_cleanly (ImageArray.maskImageDataNan_EM be mask)
                (fun src => drop 1 (shape src) = shape mask) /\
  fails_cleanly (ImageArray.maskImageDataZero_EMT be mask lb ub)
                (fun src => drop 1 (shape src) = shape mask) /\
  fails_cleanly (ImageArray.maskImageDataNan_EMT be mask lb ub)
                (fun src => drop 1 (shape src) = shape mask) /\
  fails_cleanly (ImageArray.movingAvgImageData be data count)
                (fun src => count <> 0 /\ shape src = shape data) /\
  fails_cleanly (ImageArray.correctImageData be p constants)
                (fun src => shape src = shape constants) /\
  fails_cleanly (ImageArray.correctImageData_gain_offset be gain offset)
                (fun src => shape src = shape gain /\ shape src = shape offset).
Proof.
  split_and!.
  - unfold Image.imageDataNanMask. prove_fails_cleanly.
  - unfold Image.maskImageDataZero_ETN. prove_fails_cleanly.
  - unfold Image.maskImageDataNan_ETN. prove_fails_cleanly.
  - unfold Image.maskImageDataZero_EM. prove_fails_cleanly.
  - unfold Image.maskImageDataZero_EMN. prove_fails_cleanly.
  - unfold Image.maskImageDataNan_EM. prove_fails_cleanly.
  - unfold Image.maskImageDataNan_EMN. prove_fails_cleanly.
  - unfold Image.maskImageDataZero_EMT. prove_fails_cleanly.
  - unfold Image.maskImageDataZero_EMTN. prove_fails_cleanly.
  - unfold Image.maskImageDataNan_EMT. prove_fails_cleanly.
  - unfold Image.maskImageDataNan_EMTN. prove_fails_cleanly.
  - unfold Image.movingAvgImageData. prove_fails_cleanly.
  - unfold Image.correctImageData. prove_fails_cleanly.
  - unfold Image.correctImageData_gain_offset. prove_fails_cleanly.
  - unfold Image.nanmeanImageArray_EE. destruct be; prove_fails_cleanly.
  - unfold ImageArray.nanmeanImageArray_keep, ImageArray.nanmeanImageArrayImp.
    destruct be; prove_fails_cleanly.
  - unfold ImageArray.maskImageDataZero_EM. prove_fails_cleanly.
  - unfold ImageArray.maskImageDataNan_EM. prove_fails_cleanly.
  - unfold ImageArray.maskImageDataZero_EMT. prove_fails_cleanly.
  - unfold ImageArray.maskImageDataNan_EMT. prove_fails_cleanly.
  - unfold ImageArray.movingAvgImageData. prove_fails_cleanly.
  - unfold ImageArray.correctImageData. prove_fails_cleanly.
  - unfold ImageArray.correctImageData_gain_offset. prove_fails_cleanly.
Qed.

(** ** NaN-aware means *)

(** The loop nest of [tbb::parallel_for] over the blocks of an image. *)
Lemma image_blocks {A} `{Inhabited A} (f : nat -> nat -> A -> A)
    (body : nat -> nat -> xtensor A -> xtensor A) (blocks : list blocked_range2d)
    (t : xtensor A) (h w : nat) :
  (forall j k t, shape t = [h; w] ->
     body j k t = XTensor [h; w] (<[offset2 [h; w] j k := f j k (storage t !!! offset2 [h; w] j k)]>
                                    (storage t))) ->
  tiles2 blocks h w ->
  is_image t h w ->
  let t' := parallel_for blocks (fun block => for_block2 block body) t in
  is_image t' h w /\
  (forall j k, j < h -> k < w -> at2 t' j k = f j k (at2 t j k)).
Proof.
  intros Hbody Htiles [Hsh Hlen]. simpl.
  destruct (cells2 [h; w] f body blocks t Hbody Htiles Hsh) as (H1 & H2 & H3 & _).
  split; [split; [done | by rewrite H2]|].
  intros j k Hj Hk. unfold at2. rewrite H1, Hsh.
  apply lookup_total_of_lookup_fmap; [rewrite Hlen; by apply offset2_lt|].
  by apply H3.
Qed.

Lemma array_blocks {A} `{Inhabited A} (f : nat -> nat -> nat -> A -> A)
    (body : nat -> nat -> nat -> xtensor A -> xtensor A) (blocks : list blocked_range3d)
    (t : xtensor A) (n h w : nat) :
  (forall i j k t, shape t = [n; h; w] ->
     body i j k t = XTensor [n; h; w]
                      (<[offset3 [n; h; w] i j k := f i j k (storage t !!! offset3 [n; h; w] i j k)]>
                         (storage t))) ->
  tiles3 blocks n h w ->
  is_image_array t n h w ->
  let t' := parallel_for blocks (fun block => for_block3 block body) t in
  is_image_array t' n h w /\
  (forall i j k, i < n -> j < h -> k < w -> at3 t' i j k = f i j k (at3 t i j k)).
Proof.
  intros Hbody Htiles [Hsh Hlen]. simpl.
  destruct (cells3 [n; h; w] f body blocks t Hbody Htiles Hsh) as (H1 & H2 & H3 & _).
  split; [split; [done | by rewrite H2]|].
  intros i j k Hi Hj Hk. unfold at3. rewrite H1, Hsh.
  apply lookup_total_of_lookup_fmap; [rewrite Hlen; by apply offset3_lt|].
  by apply H3.
Qed.

Lemma is_image_from_shape {A} `{Inhabited A} (h w : nat) :
  is_image (from_shape (A:=A) [h; w]) h w.
Proof. split; [done|]. unfold from_shape; simpl. rewrite length_replicate. lia. Qed.

Section NanMean.
Context {V : Type} `{Floating V}.

(** The accumulation loop of [nanmeanImageArrayImp]. *)
Lemma accumulate_not_nan {I} (g : I -> V) (l : list I) (count : nat) (sum : V) :
  foldl (fun '(count, sum) it =>
           let v := g it in
           if negb (isnan v) then (count + 1, fadd sum v) else (count, sum))
        (count, sum) l
  = (count + length (not_nan (g <$> l)), foldl fadd sum (not_nan (g <$> l))).
Proof.
  revert count sum. induction l as [|i l IH]; intros count sum.
  { simpl. f_equal. unfold not_nan. simpl. lia. }
  unfold not_nan in *. rewrite fmap_cons, filter_cons. cbn [foldl].
  destruct (isnan (g i)) eqn:Hi; cbn [negb].
  - rewrite decide_False by done. apply IH.
  - rewrite decide_True by done. rewrite IH. cbn [length foldl]. f_equal. lia.
Qed.

Lemma nansum_not_nan (l : list V) : nansum l = foldl fadd fzero (not_nan l).
Proof.
  unfold nansum. generalize fzero. induction l as [|v l IH]; intros acc; [done|].
  unfold not_nan in *. rewrite filter_cons. cbn [foldl].
  destruct (isnan v) eqn:Hv.
  - rewrite decide_False by done. apply IH.
  - rewrite decide_True by done. cbn [foldl]. apply IH.
Qed.

Lemma xt_mean_is_nanmean (l : list V) :
  is_nanmean_of l (fdiv (nansum l) (of_size (count_nonnan l))).
Proof.
  rewrite nansum_not_nan. unfold count_nonnan. fold (not_nan l). split.
  - intros ->. simpl. apply isnan_zero_div_zero.
  - done.
Qed.

Lemma tbb_mean_is_nanmean (l : list V) :
  is_nanmean_of l
    (if bool_decide (length (not_nan l) = 0) then quiet_NaN else mean_of (not_nan l)).
Proof.
  split.
  - intros ->. simpl. apply isnan_quiet_NaN.
  - intros Hne. rewrite bool_decide_eq_false_2; [done|].
    intros Hlen%nil_length_inv. done.
Qed.
End NanMean.

Section NanMeanStack.
Context {V : Type} `{Floating V}.

(** What [nanmeanImageArrayImp] writes at a pixel. *)
Lemma nanmeanImageArrayImp_spec (sch : scheduler) (keep : list nat)
    (src : xtensor V) (n h w : nat) :
  fair sch -> is_image_array src n h w ->
  exists mean,
    ImageArray.nanmeanImageArrayImp sch keep src = (Returned mean, src) /\
    is_image mean h w /\
    (forall j k, j < h -> k < w ->
       is_nanmean_of
         (selected_values src (if bool_decide (keep = []) then seq 0 n else keep) j k)
         (at2 mean j k)).
Proof.
  intros [Hfair _] [Hs Hl].
  unfold ImageArray.nanmeanImageArrayImp. run_kernel. rewrite Hs.
  change (extent [n; h; w] 0) with n. change (extent [n; h; w] 1) with h.
  change (extent [n; h; w] 2) with w.
  eexists. split; [reflexivity|].
  match goal with
  | |- context [parallel_for ?bl (fun block => for_block2 block ?body) ?t] =>
      destruct (image_blocks
                  (fun j k (_ : V) =>
                     let l := selected_values src
                                (if bool_decide (keep = []) then seq 0 n else keep) j k in
                     if bool_decide (length (not_nan l) = 0)
                     then quiet_NaN else mean_of (not_nan l))
                  body bl t h w) as [Hi Hc]
  end.
  - intros j k t Ht. unfold selected_values, for_range.
    rewrite (foldl_pointwise _
               (fun '(count, sum) it =>
                  let v := at3 src it j k in
                  if negb (isnan v) then (count + 1, fadd sum v) else (count, sum))
               (seq 0 (n - 0))) by (by intros [] ?).
    rewrite Nat.sub_0_r, !accumulate_not_nan.
    destruct (bool_decide (keep = [])); simpl;
      destruct (bool_decide (length _ = 0)); unfold set2; by rewrite Ht.
  - apply Hfair.
  - apply is_image_from_shape.
  - split; [done|]. intros j k Hj Hk. rewrite (Hc j k Hj Hk). apply tbb_mean_is_nanmean.
Qed.
End NanMeanStack.

(** ** The xtensor operations on well-formed arrays *)

Lemma fmap_seq_lookup {A B} (l : list A) (F : nat -> B) (G : A -> B) :
  (forall i x, l !! i = Some x -> F i = G x) ->
  F <$> seq 0 (length l) = G <$> l.
Proof.
  intros HFG. apply list_eq. intros i. rewrite !list_lookup_fmap.
  destruct (l !! i) as [x|] eqn:Hi.
  - rewrite lookup_seq_lt by (by eapply lookup_lt_Some). simpl. f_equal. by apply HFG.
  - rewrite lookup_seq_ge by (by apply lookup_ge_None). done.
Qed.

Lemma lookup_total_fmap_seq {B} `{Inhabited B} (F : nat -> B) (m p : nat) :
  p < m -> (F <$> seq 0 m) !!! p = F p.
Proof.
  intros Hp. apply list_lookup_total_correct.
  by rewrite list_lookup_fmap, lookup_seq_lt.
Qed.

Lemma lookup_total_fmap_lt {A B} `{Inhabited A} `{Inhabited B} (F : A -> B)
    (l : list A) (p : nat) :
  p < length l -> (F <$> l) !!! p = F (l !!! p).
Proof. apply list_lookup_total_fmap. Qed.

Lemma lookup_total_bind_chunks {A B} `{Inhabited B} (g : A -> list B) (m : nat)
    (l : list A) (i : nat) (x : A) (p : nat) :
  (forall a, length (g a) = m) -> l !! i = Some x -> p < m ->
  (l ≫= g) !!! (i * m + p) = g x !!! p.
Proof.
  intros Hg. revert i. induction l as [|a l IH]; intros i Hi Hp; [done|].
  rewrite bind_cons. destruct i as [|i]; simpl in Hi.
  - inversion Hi; subst. simpl. apply lookup_total_app_l. by rewrite Hg.
  - rewrite lookup_total_app_r by (rewrite Hg; lia).
    rewrite Hg. replace (S i * m + p - m) with (i * m + p) by lia. by apply IH.
Qed.

Section XtensorFacts.
Context {V : Type} `{Floating V}.

Lemma xt_nanmean0_spec (e : xtensor V) (n h w : nat) :
  shape e = [n; h; w] ->
  is_image (xt_nanmean0 e) h w /\
  (forall j k, j < h -> k < w ->
     at2 (xt_nanmean0 e) j k
     = fdiv (nansum (selected_values e (seq 0 n) j k))
            (of_size (count_nonnan (selected_values e (seq 0 n) j k)))).
Proof.
  intros Hs. unfold xt_nanmean0, is_image, at2. rewrite Hs.
  cbn [tail foldr shape storage]. change (extent [n; h; w] 0) with n.
  rewrite length_fmap, length_seq. split; [split; [done|lia]|].
  intros j k Hj Hk. pose proof (offset2_lt h w j k Hj Hk) as Hlt.
  rewrite lookup_total_fmap_seq by lia.
  assert ((fun i => storage e !!! (i * (h * (w * 1)) + offset2 [h; w] j k)) <$> seq 0 n
          = selected_values e (seq 0 n) j k) as ->; [|done].
  apply list_fmap_ext. intros _ i _. unfold at3, offset3, offset2. rewrite Hs.
  change (extent [n; h; w] 1) with h. change (extent [n; h; w] 2) with w.
  change (extent [h; w] 1) with w. f_equal. lia.
Qed.

Lemma xt_view_keep_spec (src : xtensor V) (keep : list nat) (n h w : nat) :
  shape src = [n; h; w] ->
  shape (xt_view_keep src keep) = [length keep; h; w] /\
  (forall j k, j < h -> k < w ->
     selected_values (xt_view_keep src keep) (seq 0 (length keep)) j k
     = selected_values src keep j k).
Proof.
  intros Hs. unfold xt_view_keep. rewrite Hs. cbn [tail shape storage].
  change (extent [n; h; w] 1) with h. change (extent [n; h; w] 2) with w.
  split; [done|].
  intros j k Hj Hk. pose proof (offset2_lt h w j k Hj Hk) as Hlt.
  unfold offset2 in Hlt. change (extent [h; w] 1) with w in Hlt.
  unfold selected_values. apply fmap_seq_lookup. intros i' i Hi.
  unfold at3, offset3. rewrite Hs. cbn [shape storage].
  change (extent [length keep; h; w] 1) with h. change (extent [length keep; h; w] 2) with w.
  change (extent [n; h; w] 1) with h. change (extent [n; h; w] 2) with w.
  replace ((i' * h + j) * w + k) with (i' * (h * w) + (j * w + k)) by lia.
  rewrite (lookup_total_bind_chunks _ (h * w) keep i' i) by
    (first [done | intros; by rewrite length_fmap, length_seq]).
  rewrite lookup_total_fmap_seq by lia. f_equal. lia.
Qed.

Lemma xt_filter_assign_spec (cond : V -> bool) (value : V) (e : xtensor V) (n h w : nat) :
  is_image_array e n h w ->
  is_image_array (xt_filter_assign cond value e) n h w /\
  (forall i j k, i < n -> j < h -> k < w ->
     at3 (xt_filter_assign cond value e) i j k
     = if cond (at3 e i j k) then value else at3 e i j k).
Proof.
  intros [Hs Hl]. unfold xt_filter_assign, is_image_array, at3. cbn [shape storage].
  rewrite length_fmap. split; [done|].
  intros i j k Hi Hj Hk. rewrite Hs.
  pose proof (offset3_lt n h w i j k Hi Hj Hk).
  by rewrite lookup_total_fmap_lt by lia.
Qed.
End XtensorFacts.

Section NanMeanKernels.
Context {V : Type} `{Floating V}.

Lemma nanmeanImageArray_spec (be : backend) (src : xtensor V) (n h w : nat) :
  fair_backend be -> is_image_array src n h w ->
  exists mean,
    ImageArray.nanmeanImageArray be src = (Returned mean, src) /\
    is_image mean h w /\
    (forall j k, j < h -> k < w ->
       is_nanmean_of (selected_values src (seq 0 n) j k) (at2 mean j k)).
Proof.
  intros Hfair Hsrc. destruct be as [sch|]; simpl.
  - apply (nanmeanImageArrayImp_spec sch [] src n h w Hfair Hsrc).
  - run_kernel. destruct Hsrc as [Hs Hl].
    destruct (xt_nanmean0_spec src n h w Hs) as [Hi Hc].
    eexists. split; [reflexivity|]. split; [done|].
    intros j k Hj Hk. rewrite (Hc j k Hj Hk). apply xt_mean_is_nanmean.
Qed.

Lemma nanmeanImageArray_keep_spec (be : backend) (keep : list nat)
    (src : xtensor V) (n h w : nat) :
  fair_backend be -> is_image_array src n h w -> keep <> [] ->
  exists mean,
    ImageArray.nanmeanImageArray_keep be keep src = (Returned mean, src) /\
    is_image mean h w /\
    (forall j k, j < h -> k < w ->
       is_nanmean_of (selected_values src keep j k) (at2 mean j k)).
Proof.
  intros Hfair Hsrc Hkeep. destruct be as [sch|]; simpl.
  - run_kernel. rewrite bool_decide_eq_false_2 by done. run_kernel.
    destruct (nanmeanImageArrayImp_spec sch keep src n h w Hfair Hsrc)
      as (mean & Hrun & Hi & Hc).
    rewrite bool_decide_eq_false_2 in Hc by done.
    exists mean. rewrite Hrun. done.
  - run_kernel. destruct Hsrc as [Hs Hl].
    destruct (xt_view_keep_spec src keep n h w Hs) as [Hvs Hvc].
    destruct (xt_nanmean0_spec _ _ h w Hvs) as [Hi Hc].
    eexists. split; [reflexivity|]. split; [done|].
    intros j k Hj Hk. rewrite (Hc j k Hj Hk), (Hvc j k Hj Hk). apply xt_mean_is_nanmean.
Qed.

Lemma nanmeanImageArray_keep_empty (src : xtensor V) :
  (forall sch,
     ImageArray.nanmeanImageArray_keep (with_tbb sch) [] src
     = (Raised (invalid_argument "keep cannot be empty!"), src)) /\
  (exists mean,
     ImageArray.nanmeanImageArray_keep without_tbb [] src = (Returned mean, src) /\
     shape mean = tail (shape src) /\
     Forall (fun v => isnan v = true) (storage mean)).
Proof.
  split; [done|].
  eexists. split; [reflexivity|]. split; [done|].
  unfold xt_nanmean0, xt_view_keep. cbn [shape storage tail length extent nth seq fmap].
  apply Forall_fmap, Forall_forall. intros p _. simpl. apply isnan_zero_div_zero.
Qed.
End NanMeanKernels.

(** C2. Stack-wide nanmean, on either build, with every frame or with a
    non-empty selection of frames: the kernel returns a 2D image whose
    pixel (row, col) is NaN when every selected value there is NaN and
    otherwise the sum of the selected values that are not NaN over their
    number; the stack is left as it was. *)
Theorem nanmean_of_stack (V : Type) (F : Floating V) (be : backend)
    (src : xtensor V) (n h w : nat) :
  fair_backend be -> is_image_array src n h w ->
  (exists mean,
     ImageArray.nanmeanImageArray be src = (Returned mean, src) /\
     is_image mean h w /\
     (forall j k, j < h -> k < w ->
        is_nanmean_of (selected_values src (seq 0 n) j k) (at2 mean j k))) /\
  (forall keep, keep <> [] -> Forall (fun i => i < n) keep ->
     exists mean,
       ImageArray.nanmeanImageArray_keep be keep src = (Returned mean, src) /\
       is_image mean h w /\
       (forall j k, j < h -> k < w ->
          is_nanmean_of (selected_values src keep j k) (at2 mean j k))).
Proof.
  intros Hfair Hsrc. split.
  - by apply (nanmeanImageArray_spec be src n h w).
  - intros keep Hkeep _. by apply (nanmeanImageArray_keep_spec be keep src n h w).
Qed.

(** C4. With an empty [keep], stack-wide nanmean raises an invalid-argument
    error on the TBB build and leaves the stack alone, while the build
    without TBB has no such check: it returns an image (of NaN pixels). *)
Theorem nanmean_empty_keep (V : Type) (F : Floating V) (src : xtensor V) :
  (forall sch,
     ImageArray.nanmeanImageArray_keep (with_tbb sch) [] src
     = (Raised (invalid_argument "keep cannot be empty!"), src)) /\
  (exists mean,
     ImageArray.nanmeanImageArray_keep without_tbb [] src = (Returned mean, src) /\
     shape mean = tail (shape src) /\
     Forall (fun v => isnan v = true) (storage mean)).
Proof. apply nanmeanImageArray_keep_empty. Qed.

Section NanMeanPair.
Context {V : Type} `{Floating V}.

Lemma xt_stack_values (src1 src2 : xtensor V) (h w j k : nat) :
  is_image src1 h w -> is_image src2 h w -> j < h -> k < w ->
  selected_values (xt_stack src1 src2) (seq 0 2) j k = [at2 src1 j k; at2 src2 j k].
Proof.
  intros [Hs1 Hl1] [Hs2 Hl2] Hj Hk. pose proof (offset2_lt h w j k Hj Hk) as Hlt.
  unfold selected_values, xt_stack, at3, at2, offset3, offset2 in *.
  rewrite Hs1, Hs2. cbn [shape storage seq fmap list_fmap].
  change (extent [2; h; w] 1) with h. change (extent [2; h; w] 2) with w.
  change (extent [h; w] 1) with w in *.
  f_equal; [|f_equal].
  - rewrite lookup_total_app_l by lia. f_equal.
  - rewrite lookup_total_app_r by lia. f_equal. lia.
Qed.

Lemma nanmeanImageArray_EE_tbb (sch : scheduler) (src1 src2 : xtensor V) (h w : nat) :
  fair sch -> is_image src1 h w -> is_image src2 h w ->
  exists mean,
    Image.nanmeanImageArray_EE (with_tbb sch) (src1, src2) = (Returned mean, (src1, src2)) /\
    is_image mean h w /\
    (forall j k, j < h -> k < w ->
       at2 mean j k
       = let x := at2 src1 j k in
         let y := at2 src2 j k in
         if isnan x && isnan y then quiet_NaN
         else if isnan x then y
         else if isnan y then x
         else fmul fhalf (fadd x y)).
Proof.
  intros [Hfair _] [Hs1 Hl1] [Hs2 Hl2].
  unfold Image.nanmeanImageArray_EE. run_kernel. pass_checks.
  change (extent [h; w] 0) with h. change (extent [h; w] 1) with w.
  eexists. split; [reflexivity|].
  match goal with
  | |- context [parallel_for ?bl (fun block => for_block2 block ?body) ?t] =>
      destruct (image_blocks
                  (fun j k (_ : V) =>
                     let x := at2 src1 j k in
                     let y := at2 src2 j k in
                     if isnan x && isnan y then quiet_NaN
                     else if isnan x then y
                     else if isnan y then x
                     else fmul fhalf (fadd x y))
                  body bl t h w) as [Hi Hc]
  end.
  - intros j k t Ht. unfold set2. rewrite Ht. cbv zeta. by repeat case_match.
  - apply Hfair.
  - apply is_image_from_shape.
  - done.
Qed.

Lemma nanmeanImageArray_EE_xt (src1 src2 : xtensor V) (h w : nat) :
  is_image src1 h w -> is_image src2 h w ->
  exists mean,
    Image.nanmeanImageArray_EE without_tbb (src1, src2) = (Returned mean, (src1, src2)) /\
    is_image mean h w /\
    (forall j k, j < h -> k < w ->
       at2 mean j k
       = let l := [at2 src1 j k; at2 src2 j k] in
         fdiv (nansum l) (of_size (count_nonnan l))).
Proof.
  intros Hsrc1 Hsrc2. pose proof Hsrc1 as [Hs1 Hl1]. pose proof Hsrc2 as [Hs2 Hl2].
  unfold Image.nanmeanImageArray_EE. run_kernel. pass_checks.
  destruct (xt_nanmean0_spec (xt_stack src1 src2) 2 h w) as [Hi Hc].
  { unfold xt_stack. simpl. by rewrite Hs1. }
  eexists. split; [reflexivity|]. split; [done|].
  intros j k Hj Hk. rewrite (Hc j k Hj Hk). by rewrite (xt_stack_values src1 src2 h w).
Qed.
End NanMeanPair.

(** The examples of the specification, in binary32 and on both builds. *)
Lemma nanmean_pair_examples (be : backend) :
  be = with_tbb one_block \/ be = with_tbb by_rows_reversed \/ be = without_tbb ->
  Image.nanmeanImageArray_EE be (pixel (f32 5), pixel S754_nan)
  = (Returned (pixel (f32 5)), (pixel (f32 5), pixel S754_nan)) /\
  Image.nanmeanImageArray_EE be (pixel S754_nan, pixel S754_nan)
  = (Returned (pixel S754_nan), (pixel S754_nan, pixel S754_nan)) /\
  Image.nanmeanImageArray_EE be (pixel (f32 2), pixel (f32 4))
  = (Returned (pixel (f32 3)), (pixel (f32 2), pixel (f32 4))).
Proof. intros [-> | [-> | ->]]; by vm_compute. Qed.

Lemma nanmean_stack_examples (be : backend) :
  be = with_tbb one_block \/ be = with_tbb by_rows_reversed \/ be = without_tbb ->
  ImageArray.nanmeanImageArray be (frames [f32 1; S754_nan; f32 3])
  = (Returned (pixel (f32 2)), frames [f32 1; S754_nan; f32 3]) /\
  ImageArray.nanmeanImageArray be (frames [S754_nan; S754_nan])
  = (Returned (pixel S754_nan), frames [S754_nan; S754_nan]) /\
  ImageArray.nanmeanImageArray_keep be [2; 0] (frames [f32 1; S754_nan; f32 3])
  = (Returned (pixel (f32 2)), frames [f32 1; S754_nan; f32 3]).
Proof. intros [-> | [-> | ->]]; by vm_compute. Qed.

(** C3. Pairwise nanmean.  Images of unequal shapes raise a shape-mismatch
    error.  On two images of one shape the kernel returns a new image and
    leaves both inputs as they were.  On the TBB build its pixel is NaN when
    both inputs are NaN there, the other input when exactly one is NaN, and
    half the sum of the two otherwise.  On the build without TBB it is
    xtensor's nanmean of the stacked pair: NaN when both are NaN, the other
    value summed from zero and divided by one (not by two) when exactly one
    is NaN, the sum of the two over two otherwise.  In binary32 both builds
    give 5 for (5, NaN), NaN for (NaN, NaN) and 3 for (2, 4). *)
Theorem nanmean_of_pair :
  (forall (V : Type) (F : Floating V) (be : backend) (src1 src2 : xtensor V),
     shape src1 <> shape src2 ->
     Image.nanmeanImageArray_EE be (src1, src2)
     = (Raised (shape_mismatch "Images have different shapes"), (src1, src2))) /\
  (forall (V : Type) (F : Floating V) (sch : scheduler) (src1 src2 : xtensor V) (h w : nat),
     fair sch -> is_image src1 h w -> is_image src2 h w ->
     exists mean,
       Image.nanmeanImageArray_EE (with_tbb sch) (src1, src2)
       = (Returned mean, (src1, src2)) /\
       is_image mean h w /\
       (forall j k, j < h -> k < w ->
          let x := at2 src1 j k in
          let y := at2 src2 j k in
          let m := at2 mean j k in
          (isnan x = true -> isnan y = true -> m = quiet_NaN /\ isnan m = true) /\
          (isnan x = true -> isnan y = false -> m = y) /\
          (isnan x = false -> isnan y = true -> m = x) /\
          (isnan x = false -> isnan y = false -> m = fmul fhalf (fadd x y)))) /\
  (forall (V : Type) (F : Floating V) (src1 src2 : xtensor V) (h w : nat),
     is_image src1 h w -> is_image src2 h w ->
     exists mean,
       Image.nanmeanImageArray_EE without_tbb (src1, src2)
       = (Returned mean, (src1, src2)) /\
       is_image mean h w /\
       (forall j k, j < h -> k < w ->
          let x := at2 src1 j k in
          let y := at2 src2 j k in
          let m := at2 mean j k in
          (isnan x = true -> isnan y = true -> isnan m = true) /\
          (isnan x = true -> isnan y = false -> m = fdiv (fadd fzero y) (of_size 1)) /\
          (isnan x = false -> isnan y = true -> m = fdiv (fadd fzero x) (of_size 1)) /\
          (isnan x = false -> isnan y = false ->
           m = fdiv (fadd (fadd fzero x) y) (of_size 2)))) /\
  (forall be,
     be = with_tbb one_block \/ be = with_tbb by_rows_reversed \/ be = without_tbb ->
     Image.nanmeanImageArray_EE be (pixel (f32 5), pixel S754_nan)
     = (Returned (pixel (f32 5)), (pixel (f32 5), pixel S754_nan)) /\
     Image.nanmeanImageArray_EE be (pixel S754_nan, pixel S754_nan)
     = (Returned (pixel S754_nan), (pixel S754_nan, pixel S754_nan)) /\
     Image.nanmeanImageArray_EE be (pixel (f32 2), pixel (f32 4))
     = (Returned (pixel (f32 3)), (pixel (f32 2), pixel (f32 4)))).
Proof.
  split; [|split; [|split; [|apply nanmean_pair_examples]]].
  - intros V F be src1 src2 Hne. unfold Image.nanmeanImageArray_EE. run_kernel.
    simpl drop. by rewrite decide_False.
  - intros V F sch src1 src2 h w Hfair Hsrc1 Hsrc2.
    destruct (nanmeanImageArray_EE_tbb sch src1 src2 h w Hfair Hsrc1 Hsrc2)
      as (mean & Hrun & Hi & Hc).
    exists mean. split; [done|]. split; [done|].
    intros j k Hj Hk. cbv zeta. rewrite (Hc j k Hj Hk). cbv zeta.
    split_and!; intros -> ->; simpl; try done.
    split; [done|apply isnan_quiet_NaN].
  - intros V F src1 src2 h w Hsrc1 Hsrc2.
    destruct (nanmeanImageArray_EE_xt src1 src2 h w Hsrc1 Hsrc2)
      as (mean & Hrun & Hi & Hc).
    exists mean. split; [done|]. split; [done|].
    intros j k Hj Hk. cbv zeta. rewrite (Hc j k Hj Hk). cbv zeta.
    unfold nansum, count_nonnan. rewrite !filter_cons, filter_nil. cbn [foldl].
    split_and!; intros Hx Hy; rewrite Hx, Hy;
      rewrite ?decide_True by done; rewrite ?decide_False by done; try done.
    apply isnan_zero_div_zero.
Qed.

(** ** The two builds *)

Lemma image_array_ext {A} `{Inhabited A} (a b : xtensor A) (n h w : nat) :
  is_image_array a n h w -> is_image_array b n h w ->
  (forall i j k, i < n -> j < h -> k < w -> at3 a i j k = at3 b i j k) ->
  a = b.
Proof.
  intros [Hsa Hla] [Hsb Hlb] Hcells. destruct a as [sa la], b as [sb lb].
  unfold at3 in Hcells. simpl in *. subst sa sb. f_equal.
  apply list_eq. intros q.
  destruct (decide (q < n * h * w)) as [Hq|Hq].
  - destruct (offset3_cover [n; h; w] q) as (i & j & k & Hi & Hj & Hk & ->).
    { unfold extent; simpl. lia. }
    rewrite !list_lookup_lookup_total_lt by (unfold offset3, extent in *; simpl in *; lia).
    f_equal. by apply Hcells.
  - rewrite !lookup_ge_None_2 by lia. done.
Qed.

Lemma is_nanmean_of_same `{Floating V} (l : list V) (m1 m2 : V) :
  is_nanmean_of l m1 -> is_nanmean_of l m2 -> same_pixel m1 m2.
Proof.
  intros [Hnan1 Hmean1] [Hnan2 Hmean2]. destruct (not_nan l) as [|v vs] eqn:Hl.
  - right. auto.
  - left. rewrite Hmean1, Hmean2; done.
Qed.

Section Builds.
Context {V : Type} `{Floating V}.
Variables (sch : scheduler) (src : xtensor V) (n h w : nat).
Hypothesis sch_fair : fair sch.
Hypothesis src_array : is_image_array src n h w.

Lemma maskImageDataZero_E_builds :
  ImageArray.maskImageDataZero_E (with_tbb sch) src
  = ImageArray.maskImageDataZero_E without_tbb src.
Proof.
  unfold ImageArray.maskImageDataZero_E. run_kernel. rewrite (proj1 src_array).
  change (extent [n; h; w] 0) with n. change (extent [n; h; w] 1) with h.
  change (extent [n; h; w] 2) with w.
  match goal with
  | |- context [parallel_for ?bl (fun block => for_block3 block ?body) ?t] =>
      destruct (array_blocks (fun _ _ _ v => if isnan v then fzero else v) body bl t n h w)
        as [Hi Hc]
  end; [cell_body|apply sch_fair|done|].
  destruct (xt_filter_assign_spec isnan fzero src n h w src_array) as [Hi' Hc'].
  f_equal. apply (image_array_ext _ _ n h w); [done|done|].
  intros i j k Hi0 Hj Hk. by rewrite Hc, Hc'.
Qed.

Lemma maskImageDataZero_ET_builds (lb ub : V) :
  ImageArray.maskImageDataZero_ET (with_tbb sch) lb ub src
  = ImageArray.maskImageDataZero_ET without_tbb lb ub src.
Proof.
  unfold ImageArray.maskImageDataZero_ET. run_kernel. rewrite (proj1 src_array).
  change (extent [n; h; w] 0) with n. change (extent [n; h; w] 1) with h.
  change (extent [n; h; w] 2) with w.
  match goal with
  | |- context [parallel_for ?bl (fun block => for_block3 block ?body) ?t] =>
      destruct (array_blocks (fun _ _ _ v => zero_outside lb ub v) body bl t n h w)
        as [Hi Hc]
  end; [unfold zero_outside; cell_body|apply sch_fair|done|].
  destruct (xt_filter_assign_spec (fun v => isnan v || flt v lb || fgt v ub) fzero
              src n h w src_array) as [Hi' Hc'].
  f_equal. apply (image_array_ext _ _ n h w); [done|done|].
  intros i j k Hi0 Hj Hk. by rewrite Hc, Hc'.
Qed.

Lemma maskImageDataNan_ET_builds (lb ub : V) :
  ImageArray.maskImageDataNan_ET (with_tbb sch) lb ub src
  = ImageArray.maskImageDataNan_ET without_tbb lb ub src.
Proof.
  unfold ImageArray.maskImageDataNan_ET. run_kernel. rewrite (proj1 src_array).
  change (extent [n; h; w] 0) with n. change (extent [n; h; w] 1) with h.
  change (extent [n; h; w] 2) with w.
  match goal with
  | |- context [parallel_for ?bl (fun block => for_block3 block ?body) ?t] =>
      destruct (array_blocks (fun _ _ _ v => nan_outside lb ub v) body bl t n h w)
        as [Hi Hc]
  end; [unfold nan_outside; cell_body|apply sch_fair|done|].
  destruct (xt_filter_assign_spec (fun v => flt v lb || fgt v ub) quiet_NaN
              src n h w src_array) as [Hi' Hc'].
  f_equal. apply (image_array_ext _ _ n h w); [done|done|].
  intros i j k Hi0 Hj Hk. rewrite Hc, Hc' by done. unfold nan_outside, fgt.
  destruct (isnan (at3 src i j k)) eqn:Hnan; [|done].
  by rewrite flt_nan_l, flt_nan_r.
Qed.

(** The kernels whose loop body is shared by the two builds. *)
Lemma for_each3_builds (body : nat -> nat -> nat -> xtensor V -> xtensor V)
    (f : nat -> nat -> nat -> V -> V) :
  (forall i j k t, shape t = [n; h; w] ->
     body i j k t = XTensor [n; h; w]
                      (<[offset3 [n; h; w] i j k := f i j k (storage t !!! offset3 [n; h; w] i j k)]>
                         (storage t))) ->
  for_each3 (with_tbb sch) [n; h; w] body src = for_each3 without_tbb [n; h; w] body src.
Proof.
  intros Hbody.
  destruct (array_each (with_tbb sch) f body src n h w Hbody sch_fair src_array) as [Hi Hc].
  destruct (array_each without_tbb f body src n h w Hbody I src_array) as [Hi' Hc'].
  apply (image_array_ext _ _ n h w); [done|done|].
  intros i j k Hi0 Hj Hk. by rewrite Hc, Hc'.
Qed.

Lemma mask_kernels_builds (mask : xtensor bool) (lb ub : V) :
  ImageArray.maskImageDataZero_EM (with_tbb sch) mask src
  = ImageArray.maskImageDataZero_EM without_tbb mask src /\
  ImageArray.maskImageDataNan_EM (with_tbb sch) mask src
  = ImageArray.maskImageDataNan_EM without_tbb mask src /\
  ImageArray.maskImageDataZero_EMT (with_tbb sch) mask lb ub src
  = ImageArray.maskImageDataZero_EMT without_tbb mask lb ub src /\
  ImageArray.maskImageDataNan_EMT (with_tbb sch) mask lb ub src
  = ImageArray.maskImageDataNan_EMT without_tbb mask lb ub src.
Proof.
  unfold ImageArray.maskImageDataZero_EM, ImageArray.maskImageDataNan_EM,
    ImageArray.maskImageDataZero_EMT, ImageArray.maskImageDataNan_EMT.
  run_kernel. rewrite (proj1 src_array). case_decide; [|done]. run_kernel.
  split_and!; f_equal.
  - apply (for_each3_builds _
             (fun i j k v => if at2 mask j k || isnan v then fzero else v)). cell_body.
  - apply (for_each3_builds _ (fun i j k v => if at2 mask j k then quiet_NaN else v)).
    cell_body.
  - apply (for_each3_builds _
             (fun i j k v => if at2 mask j k then fzero else zero_outside lb ub v)).
    unfold zero_outside. cell_body.
  - apply (for_each3_builds _
             (fun i j k v => if at2 mask j k then quiet_NaN else nan_outside lb ub v)).
    unfold nan_outside. cell_body.
Qed.

Lemma nanmean_builds_same :
  exists m1 m2,
    ImageArray.nanmeanImageArray (with_tbb sch) src = (Returned m1, src) /\
    ImageArray.nanmeanImageArray without_tbb src = (Returned m2, src) /\
    is_image m1 h w /\ is_image m2 h w /\
    (forall j k, j < h -> k < w -> same_pixel (at2 m1 j k) (at2 m2 j k)).
Proof.
  destruct (nanmeanImageArray_spec (with_tbb sch) src n h w sch_fair src_array)
    as (m1 & Hr1 & Hi1 & Hc1).
  destruct (nanmeanImageArray_spec without_tbb src n h w I src_array)
    as (m2 & Hr2 & Hi2 & Hc2).
  exists m1, m2. split_and!; try done.
  intros j k Hj Hk. eapply is_nanmean_of_same; eauto.
Qed.

Lemma nanmean_keep_builds_same (keep : list nat) :
  keep <> [] ->
  exists m1 m2,
    ImageArray.nanmeanImageArray_keep (with_tbb sch) keep src = (Returned m1, src) /\
    ImageArray.nanmeanImageArray_keep without_tbb keep src = (Returned m2, src) /\
    is_image m1 h w /\ is_image m2 h w /\
    (forall j k, j < h -> k < w -> same_pixel (at2 m1 j k) (at2 m2 j k)).
Proof.
  intros Hkeep.
  destruct (nanmeanImageArray_keep_spec (with_tbb sch) keep src n h w sch_fair src_array Hkeep)
    as (m1 & Hr1 & Hi1 & Hc1).
  destruct (nanmeanImageArray_keep_spec without_tbb keep src n h w I src_array Hkeep)
    as (m2 & Hr2 & Hi2 & Hc2).
  exists m1, m2. split_and!; try done.
  intros j k Hj Hk. eapply is_nanmean_of_same; eauto.
Qed.
End Builds.

(** C6, as stated, fails: with an empty [keep] the TBB build of stack-wide
    nanmean raises while the build without TBB returns, so the two builds
    do not give the same result on the same input, whatever the tolerance
    on the pixels. *)
Lemma nanmean_builds_disagree :
  ImageArray.nanmeanImageArray_keep (with_tbb one_block) [] (frames [f32 1])
  = (Raised (invalid_argument "keep cannot be empty!"), frames [f32 1]) /\
  ImageArray.nanmeanImageArray_keep without_tbb [] (frames [f32 1])
  = (Returned (pixel S754_nan), frames [f32 1]) /\
  ~ nanmean_builds_agree (fun _ _ : spec_float => True).
Proof.
  split; [by vm_compute|]. split; [by vm_compute|].
  intros Hagree. apply (Hagree one_block [] (frames [f32 1]) fair_one_block).
Qed.

(** C6, amended.  On a well-formed array of images and for every scheduler
    that honours TBB's contract, each masking kernel gives on the TBB build
    exactly what it gives on the build without TBB.  Stack-wide nanmean,
    over every frame or over a non-empty [keep], returns on both builds
    images of one shape whose pixels are the same value or both NaN (with
    xtensor's nanmean summing the values that are not NaN in frame order
    and dividing by their number).  With an empty [keep] the TBB build
    raises and the other build returns. *)
Theorem builds_agree (V : Type) (F : Floating V) (sch : scheduler)
    (src : xtensor V) (n h w : nat) (mask : xtensor bool) (lb ub : V) :
  fair sch -> is_image_array src n h w ->
  (ImageArray.maskImageDataZero_E (with_tbb sch) src
   = ImageArray.maskImageDataZero_E without_tbb src /\
   ImageArray.maskImageDataZero_ET (with_tbb sch) lb ub src
   = ImageArray.maskImageDataZero_ET without_tbb lb ub src /\
   ImageArray.maskImageDataNan_ET (with_tbb sch) lb ub src
   = ImageArray.maskImageDataNan_ET without_tbb lb ub src /\
   ImageArray.maskImageDataZero_EM (with_tbb sch) mask src
   = ImageArray.maskImageDataZero_EM without_tbb mask src /\
   ImageArray.maskImageDataNan_EM (with_tbb sch) mask src
   = ImageArray.maskImageDataNan_EM without_tbb mask src /\
   ImageArray.maskImageDataZero_EMT (with_tbb sch) mask lb ub src
   = ImageArray.maskImageDataZero_EMT without_tbb mask lb ub src /\
   ImageArray.maskImageDataNan_EMT (with_tbb sch) mask lb ub src
   = ImageArray.maskImageDataNan_EMT without_tbb mask lb ub src) /\
  (exists m1 m2,
     ImageArray.nanmeanImageArray (with_tbb sch) src = (Returned m1, src) /\
     ImageArray.nanmeanImageArray without_tbb src = (Returned m2, src) /\
     is_image m1 h w /\ is_image m2 h w /\
     (forall j k, j < h -> k < w -> same_pixel (at2 m1 j k) (at2 m2 j k))) /\
  (forall keep, keep <> [] ->
     exists m1 m2,
       ImageArray.nanmeanImageArray_keep (with_tbb sch) keep src = (Returned m1, src) /\
       ImageArray.nanmeanImageArray_keep without_tbb keep src = (Returned m2, src) /\
       is_image m1 h w /\ is_image m2 h w /\
       (forall j k, j < h -> k < w -> same_pixel (at2 m1 j k) (at2 m2 j k))) /\
  (ImageArray.nanmeanImageArray_keep (with_tbb sch) [] src
   = (Raised (invalid_argument "keep cannot be empty!"), src) /\
   exists mean, ImageArray.nanmeanImageArray_keep without_tbb [] src = (Returned mean, src)).
Proof.
  intros Hfair Hsrc. split; [|split; [|split]].
  - destruct (mask_kernels_builds sch src n h w Hfair Hsrc mask lb ub) as (H1 & H2 & H3 & H4).
    split_and!; try done.
    + by apply (maskImageDataZero_E_builds sch src n h w).
    + by apply (maskImageDataZero_ET_builds sch src n h w).
    + by apply (maskImageDataNan_ET_builds sch src n h w).
  - by apply (nanmean_builds_same sch src n h w).
  - intros keep Hkeep. by apply (nanmean_keep_builds_same sch src n h w).
  - split; [done|]. by eexists.
Qed.

(** ** The theorems at the examples of the specification *)

Lemma maskImageDataNan_EMTN_order_example :
  (is_image example_image 1 2 /\ is_image example_mask 1 2 /\ is_image example_out 1 2) /\
  exists src' out',
    Image.maskImageDataNan_EMTN example_mask (f32 0) (f32 10) (example_image, example_out)
    = (Returned tt, (src', out')) /\
    is_image src' 1 2 /\ is_image out' 1 2 /\
    (forall j k, j < 1 -> k < 2 ->
       let v := at2 example_image j k in
       if at2 example_mask j k then at2 src' j k = quiet_NaN /\ at2 out' j k = true
       else if isnan v then at2 src' j k = v /\ at2 out' j k = true
       else if flt v (f32 0) || fgt v (f32 10)
            then at2 src' j k = quiet_NaN /\ at2 out' j k = true
            else at2 src' j k = v /\ at2 out' j k = at2 example_out j k).
Proof.
  assert (is_image example_image 1 2 /\ is_image example_mask 1 2 /\
          is_image example_out 1 2) as Hwf.
  { repeat split; reflexivity. }
  split; [exact Hwf|].
  apply (maskImageDataNan_EMTN_order example_mask (f32 0) (f32 10)
           example_image example_out 1 2); apply Hwf.
Defined.

(** The outcome the specification gives for that call. *)
Lemma maskImageDataNan_EMTN_example_outcome :
  Image.maskImageDataNan_EMTN example_mask (f32 0) (f32 10) (example_image, example_out)
  = (Returned tt, (XTensor [1; 2] [S754_nan; S754_nan], XTensor [1; 2] [true; true])).
Proof. by vm_compute. Qed.

Lemma nanmean_of_stack_example :
  (fair_backend (with_tbb by_rows_reversed) /\ is_image_array example_stack 3 1 1) /\
  (exists mean,
     ImageArray.nanmeanImageArray (with_tbb by_rows_reversed) example_stack
     = (Returned mean, example_stack) /\
     is_image mean 1 1 /\
     (forall j k, j < 1 -> k < 1 ->
        is_nanmean_of (selected_values example_stack (seq 0 3) j k) (at2 mean j k))).
Proof.
  assert (fair_backend (with_tbb by_rows_reversed) /\ is_image_array example_stack 3 1 1)
    as Hwf.
  { split; [apply fair_by_rows_reversed | split; reflexivity]. }
  split; [exact Hwf|].
  apply (nanmean_of_stack spec_float binary32 (with_tbb by_rows_reversed) example_stack 3 1 1);
    apply Hwf.
Defined.

Lemma nanmean_of_pair_example :
  (fair one_block /\ is_image (pixel (f32 5)) 1 1 /\ is_image (pixel S754_nan) 1 1) /\
  exists mean,
    Image.nanmeanImageArray_EE (with_tbb one_block) (pixel (f32 5), pixel S754_nan)
    = (Returned mean, (pixel (f32 5), pixel S754_nan)) /\
    is_image mean 1 1.
Proof.
  assert (fair one_block /\ is_image (pixel (f32 5)) 1 1 /\ is_image (pixel S754_nan) 1 1)
    as Hwf.
  { split; [apply fair_one_block | split; split; reflexivity]. }
  split; [exact Hwf|].
  destruct (proj1 (proj2 nanmean_of_pair) spec_float binary32 one_block
              (pixel (f32 5)) (pixel S754_nan) 1 1)
    as (mean & Hrun & Himg & _); [apply Hwf..|].
  exists mean. split; [exact Hrun | exact Himg].
Defined.

Lemma builds_agree_example :
  (fair by_rows_reversed /\ is_image_array example_stack 3 1 1) /\
  ImageArray.maskImageDataNan_ET (with_tbb by_rows_reversed) (f32 2) (f32 4) example_stack
  = ImageArray.maskImageDataNan_ET without_tbb (f32 2) (f32 4) example_stack.
Proof.
  assert (fair by_rows_reversed /\ is_image_array example_stack 3 1 1) as Hwf.
  { split; [apply fair_by_rows_reversed | split; reflexivity]. }
  split; [exact Hwf|].
  apply (builds_agree spec_float binary32 by_rows_reversed example_stack 3 1 1 (pixel true)
           (f32 2) (f32 4)); apply Hwf.
Defined.

Lemma mask_only_zero_and_nan_example :
  (is_image example_nan_image 1 2 /\ is_image example_mask 1 2) /\
  exists z n,
    Image.maskImageDataZero_EM example_mask example_nan_image = (Returned tt, z) /\
    Image.maskImageDataNan_EM example_mask example_nan_image = (Returned tt, n) /\
    is_image z 1 2 /\ is_image n 1 2.
Proof.
  assert (is_image example_nan_image 1 2 /\ is_image example_mask 1 2) as Hwf
    by (repeat split; reflexivity).
  split; [exact Hwf|].
  destruct (mask_only_zero_and_nan example_mask example_nan_image 1 2)
    as (z & n & Hz & Hn & Hiz & Hin & _); [apply Hwf..|].
  exists z, n. repeat split; assumption || apply Hiz || apply Hin.
Defined.

(** The two variants on a NaN pixel under a false mask bit. *)
Lemma mask_only_example_outcome :
  Image.maskImageDataZero_EM example_mask example_nan_image
  = (Returned tt, XTensor [1; 2] [f32 0; f32 0]) /\
  Image.maskImageDataNan_EM example_mask example_nan_image
  = (Returned tt, XTensor [1; 2] [S754_nan; S754_nan]).
Proof. by vm_compute. Qed.

Lemma movingAvg_recurrence_example :
  (is_image (pixel (f32 2)) 1 1 /\ is_image (pixel (f32 4)) 1 1 /\ 1 <= 2) /\
  exists avg',
    Image.movingAvgImageData (pixel (f32 4)) 2 (pixel (f32 2)) = (Returned tt, avg') /\
    is_image avg' 1 1.
Proof.
  assert (is_image (pixel (f32 2)) 1 1 /\ is_image (pixel (f32 4)) 1 1 /\ 1 <= 2) as Hwf.
  { split; [split; reflexivity | split; [split; reflexivity | repeat constructor]]. }
  split; [exact Hwf|].
  destruct (proj1 movingAvg_recurrence spec_float binary32 (pixel (f32 4)) (pixel (f32 2)) 2 1 1)
    as (avg' & Hrun & Himg & _); [apply Hwf..|].
  exists avg'. split; [exact Hrun | exact Himg].
Defined.

Lemma correct_gain_after_offset_example :
  (is_image (pixel (f32 7)) 1 1 /\ is_image (pixel (f32 3)) 1 1 /\
   is_image (pixel (f32 2)) 1 1) /\
  exists r,
    Image.correctImageData_gain_offset (pixel (f32 3)) (pixel (f32 2)) (pixel (f32 7))
    = (Returned tt, r) /\
    is_image r 1 1 /\
    (forall j k, j < 1 -> k < 1 ->
       at2 r j k = fmul (at2 (pixel (f32 3)) j k)
                        (fsub (at2 (pixel (f32 7)) j k) (at2 (pixel (f32 2)) j k))).
Proof.
  assert (is_image (pixel (f32 7)) 1 1 /\ is_image (pixel (f32 3)) 1 1 /\
          is_image (pixel (f32 2)) 1 1) as Hwf.
  { repeat split; reflexivity. }
  split; [exact Hwf|].
  apply (proj1 correct_gain_after_offset spec_float binary32
           (pixel (f32 3)) (pixel (f32 2)) (pixel (f32 7)) 1 1); apply Hwf.
Defined.

(** [3 * (7 - 2) = 15], not [3 * 7 - 2 = 19]. *)
Lemma correct_example_outcome :
  Image.correctImageData_gain_offset (pixel (f32 3)) (pixel (f32 2)) (pixel (f32 7))
  = (Returned tt, pixel (f32 15)).
Proof. by vm_compute. Qed.


(** * Further properties of the kernels *)

(** ** What every kernel does to a pixel *)

Lemma image_ext {A} `{Inhabited A} (a b : xtensor A) (h w : nat) :
  is_image a h w -> is_image b h w ->
  (forall j k, j < h -> k < w -> at2 a j k = at2 b j k) ->
  a = b.
Proof.
  intros [Hsa Hla] [Hsb Hlb] Hcells. destruct a as [sa la], b as [sb lb].
  unfold at2 in Hcells. simpl in *. subst sa sb. f_equal.
  apply list_eq. intros q.
  destruct (decide (q < h * w)) as [Hq|Hq].
  - destruct (offset2_cover [h; w] q) as (j & k & Hj & Hk & ->).
    { unfold extent; simpl. lia. }
    rewrite !list_lookup_lookup_total_lt by (unfold offset2, extent in *; simpl in *; lia).
    f_equal. by apply Hcells.
  - rewrite !lookup_ge_None_2 by lia. done.
Qed.

Section PixelSpecs.
Context {V : Type} `{Floating V}.

Lemma maskImageDataZero_E_spec (src : xtensor V) (h w : nat) :
  is_image src h w ->
  exists r,
    Image.maskImageDataZero_E src = (Returned tt, r) /\
    is_image r h w /\
    (forall j k, j < h -> k < w ->
       at2 r j k = if isnan (at2 src j k) then fzero else at2 src j k).
Proof.
  intros Hsrc. pose proof Hsrc as [Hs Hl].
  unfold Image.maskImageDataZero_E. run_kernel. pass_checks.
  eexists. split; [reflexivity|].
  apply (image_nest (fun j k v => if isnan v then fzero else v)); [|done].
  cell_body.
Qed.

Lemma maskImageDataZero_ET_spec (lb ub : V) (src : xtensor V) (h w : nat) :
  is_image src h w ->
  exists r,
    Image.maskImageDataZero_ET lb ub src = (Returned tt, r) /\
    is_image r h w /\
    (forall j k, j < h -> k < w -> at2 r j k = zero_outside lb ub (at2 src j k)).
Proof.
  intros Hsrc. pose proof Hsrc as [Hs Hl].
  unfold Image.maskImageDataZero_ET. run_kernel. pass_checks.
  eexists. split; [reflexivity|].
  apply (image_nest (fun j k v => zero_outside lb ub v)); [|done].
  unfold zero_outside. cell_body.
Qed.

Lemma maskImageDataNan_ET_spec (lb ub : V) (src : xtensor V) (h w : nat) :
  is_image src h w ->
  exists r,
    Image.maskImageDataNan_ET lb ub src = (Returned tt, r) /\
    is_image r h w /\
    (forall j k, j < h -> k < w -> at2 r j k = nan_outside lb ub (at2 src j k)).
Proof.
  intros Hsrc. pose proof Hsrc as [Hs Hl].
  unfold Image.maskImageDataNan_ET. run_kernel. pass_checks.
  eexists. split; [reflexivity|].
  apply (image_nest (fun j k v => nan_outside lb ub v)); [|done].
  unfold nan_outside. cell_body.
Qed.

Lemma maskImageDataZero_EMT_spec (mask : xtensor bool) (lb ub : V) (src : xtensor V)
    (h w : nat) :
  is_image src h w -> is_image mask h w ->
  exists r,
    Image.maskImageDataZero_EMT mask lb ub src = (Returned tt, r) /\
    is_image r h w /\
    (forall j k, j < h -> k < w ->
       at2 r j k = if at2 mask j k then fzero else zero_outside lb ub (at2 src j k)).
Proof.
  intros Hsrc [Hm Hlm]. pose proof Hsrc as [Hs Hl].
  unfold Image.maskImageDataZero_EMT. run_kernel. pass_checks.
  eexists. split; [reflexivity|].
  apply (image_nest (fun j k v => if at2 mask j k then fzero else zero_outside lb ub v));
    [|done].
  unfold zero_outside. cell_body.
Qed.

Lemma maskImageDataNan_EMT_spec (mask : xtensor bool) (lb ub : V) (src : xtensor V)
    (h w : nat) :
  is_image src h w -> is_image mask h w ->
  exists r,
    Image.maskImageDataNan_EMT mask lb ub src = (Returned tt, r) /\
    is_image r h w /\
    (forall j k, j < h -> k < w ->
       at2 r j k = if at2 mask j k then quiet_NaN else nan_outside lb ub (at2 src j k)).
Proof.
  intros Hsrc [Hm Hlm]. pose proof Hsrc as [Hs Hl].
  unfold Image.maskImageDataNan_EMT. run_kernel. pass_checks.
  eexists. split; [reflexivity|].
  apply (image_nest (fun j k v => if at2 mask j k then quiet_NaN else nan_outside lb ub v));
    [|done].
  unfold nan_outside. cell_body.
Qed.

Lemma imageDataNanMask_spec (src : xtensor V) (out : xtensor bool) (h w : nat) :
  is_image src h w -> is_image out h w ->
  exists out',
    Image.imageDataNanMask src out = (Returned tt, out') /\
    is_image out' h w /\
    (forall j k, j < h -> k < w -> at2 out' j k = isnan (at2 src j k) || at2 out j k).
Proof.
  intros [Hs Hl] Hout. pose proof Hout as [Ho Hlo].
  unfold Image.imageDataNanMask. run_kernel. pass_checks.
  eexists. split; [reflexivity|].
  apply (image_nest (fun j k o => isnan (at2 src j k) || o)); [|done].
  cell_body.
Qed.

Lemma correctImageData_spec (p : policy) (constants src : xtensor V) (h w : nat) :
  is_image src h w -> is_image constants h w ->
  exists r,
    Image.correctImageData p constants src = (Returned tt, r) /\
    is_image r h w /\
    (forall j k, j < h -> k < w ->
       at2 r j k = correct p (at2 src j k) (at2 constants j k)).
Proof.
  intros Hsrc [Hc Hlc]. pose proof Hsrc as [Hs Hl].
  unfold Image.correctImageData. run_kernel. pass_checks.
  eexists. split; [reflexivity|].
  apply (image_nest (fun j k v => correct p v (at2 constants j k))); [|done].
  cell_body.
Qed.
End PixelSpecs.

Section RecordingSpecs.
Context {V : Type} `{Floating V}.

Lemma maskImageDataZero_ETN_spec (lb ub : V) (src : xtensor V) (out : xtensor bool)
    (h w : nat) :
  is_image src h w -> is_image out h w ->
  exists st',
    Image.maskImageDataZero_ETN lb ub (src, out) = (Returned tt, st') /\
    is_image st'.1 h w /\ is_image st'.2 h w /\
    (forall j k, j < h -> k < w ->
       at2 st'.1 j k = zero_outside lb ub (at2 src j k) /\
       at2 st'.2 j k = invalid lb ub (at2 src j k) || at2 out j k).
Proof.
  intros Hsrc Hout. pose proof Hsrc as [Hs Hl]. pose proof Hout as [Ho Hlo].
  unfold Image.maskImageDataZero_ETN. run_kernel. pass_checks.
  eexists. split; [reflexivity|].
  apply (image_nest2 (fun j k v => zero_outside lb ub v)
                     (fun j k v o => invalid lb ub v || o)); [|done|done].
  unfold zero_outside, invalid. cell_body.
Qed.

Lemma maskImageDataNan_ETN_spec (lb ub : V) (src : xtensor V) (out : xtensor bool)
    (h w : nat) :
  is_image src h w -> is_image out h w ->
  exists st',
    Image.maskImageDataNan_ETN lb ub (src, out) = (Returned tt, st') /\
    is_image st'.1 h w /\ is_image st'.2 h w /\
    (forall j k, j < h -> k < w ->
       at2 st'.1 j k = nan_outside lb ub (at2 src j k) /\
       at2 st'.2 j k = invalid lb ub (at2 src j k) || at2 out j k).
Proof.
  intros Hsrc Hout. pose proof Hsrc as [Hs Hl]. pose proof Hout as [Ho Hlo].
  unfold Image.maskImageDataNan_ETN. run_kernel. pass_checks.
  eexists. split; [reflexivity|].
  apply (image_nest2 (fun j k v => nan_outside lb ub v)
                     (fun j k v o => invalid lb ub v || o)); [|done|done].
  unfold nan_outside, invalid. cell_body.
Qed.

Lemma maskImageDataZero_EMN_spec (mask : xtensor bool) (src : xtensor V) (out : xtensor bool)
    (h w : nat) :
  is_image src h w -> is_image mask h w -> is_image out h w ->
  exists st',
    Image.maskImageDataZero_EMN mask (src, out) = (Returned tt, st') /\
    is_image st'.1 h w /\ is_image st'.2 h w /\
    (forall j k, j < h -> k < w ->
       at2 st'.1 j k = (if at2 mask j k || isnan (at2 src j k) then fzero else at2 src j k) /\
       at2 st'.2 j k = at2 mask j k || isnan (at2 src j k) || at2 out j k).
Proof.
  intros Hsrc [Hm Hlm] Hout. pose proof Hsrc as [Hs Hl]. pose proof Hout as [Ho Hlo].
  unfold Image.maskImageDataZero_EMN. run_kernel. pass_checks.
  eexists. split; [reflexivity|].
  apply (image_nest2 (fun j k v => if at2 mask j k || isnan v then fzero else v)
                     (fun j k v o => at2 mask j k || isnan v || o)); [|done|done].
  cell_body.
Qed.

Lemma maskImageDataNan_EMN_spec (mask : xtensor bool) (src : xtensor V) (out : xtensor bool)
    (h w : nat) :
  is_image src h w -> is_image mask h w -> is_image out h w ->
  exists st',
    Image.maskImageDataNan_EMN mask (src, out) = (Returned tt, st') /\
    is_image st'.1 h w /\ is_image st'.2 h w /\
    (forall j k, j < h -> k < w ->
       at2 st'.1 j k = (if isnan (at2 src j k) then at2 src j k
                        else if at2 mask j k then quiet_NaN else at2 src j k) /\
       at2 st'.2 j k = isnan (at2 src j k) || at2 mask j k || at2 out j k).
Proof.
  intros Hsrc [Hm Hlm] Hout. pose proof Hsrc as [Hs Hl]. pose proof Hout as [Ho Hlo].
  unfold Image.maskImageDataNan_EMN. run_kernel. pass_checks.
  eexists. split; [reflexivity|].
  apply (image_nest2 (fun j k v => if isnan v then v
                                   else if at2 mask j k then quiet_NaN else v)
                     (fun j k v o => isnan v || at2 mask j k || o)); [|done|done].
  cell_body.
Qed.

Lemma maskImageDataZero_EMTN_spec (mask : xtensor bool) (lb ub : V)
    (src : xtensor V) (out : xtensor bool) (h w : nat) :
  is_image src h w -> is_image mask h w -> is_image out h w ->
  exists st',
    Image.maskImageDataZero_EMTN mask lb ub (src, out) = (Returned tt, st') /\
    is_image st'.1 h w /\ is_image st'.2 h w /\
    (forall j k, j < h -> k < w ->
       at2 st'.1 j k = (if at2 mask j k then fzero else zero_outside lb ub (at2 src j k)) /\
       at2 st'.2 j k = at2 mask j k || invalid lb ub (at2 src j k) || at2 out j k).
Proof.
  intros Hsrc [Hm Hlm] Hout. pose proof Hsrc as [Hs Hl]. pose proof Hout as [Ho Hlo].
  unfold Image.maskImageDataZero_EMTN. run_kernel. pass_checks.
  eexists. split; [reflexivity|].
  apply (image_nest2 (fun j k v => if at2 mask j k then fzero else zero_outside lb ub v)
                     (fun j k v o => at2 mask j k || invalid lb ub v || o)); [|done|done].
  unfold zero_outside, invalid. cell_body.
Qed.
End RecordingSpecs.

Section ArraySpecs.
Context {V : Type} `{Floating V}.
Variables (be : backend) (src : xtensor V) (n h w : nat).
Hypothesis be_fair : fair_backend be.
Hypothesis src_array : is_image_array src n h w.

Lemma array_maskImageDataZero_E_spec :
  exists r,
    ImageArray.maskImageDataZero_E be src = (Returned tt, r) /\
    is_image_array r n h w /\
    (forall i j k, i < n -> j < h -> k < w ->
       at3 r i j k = if isnan (at3 src i j k) then fzero else at3 src i j k).
Proof.
  unfold ImageArray.maskImageDataZero_E. destruct be as [sch|]; run_kernel.
  - rewrite (proj1 src_array).
    eexists. split; [reflexivity|].
    apply (array_blocks (fun _ _ _ v => if isnan v then fzero else v));
      [cell_body|apply be_fair|done].
  - eexists. split; [reflexivity|]. by apply xt_filter_assign_spec.
Qed.

Lemma array_maskImageDataZero_ET_spec (lb ub : V) :
  exists r,
    ImageArray.maskImageDataZero_ET be lb ub src = (Returned tt, r) /\
    is_image_array r n h w /\
    (forall i j k, i < n -> j < h -> k < w ->
       at3 r i j k = zero_outside lb ub (at3 src i j k)).
Proof.
  unfold ImageArray.maskImageDataZero_ET. destruct be as [sch|]; run_kernel.
  - rewrite (proj1 src_array).
    eexists. split; [reflexivity|].
    apply (array_blocks (fun _ _ _ v => zero_outside lb ub v));
      [unfold zero_outside; cell_body|apply be_fair|done].
  - eexists. split; [reflexivity|].
    by apply (xt_filter_assign_spec (fun v => isnan v || flt v lb || fgt v ub)).
Qed.

Lemma array_maskImageDataNan_ET_spec (lb ub : V) :
  exists r,
    ImageArray.maskImageDataNan_ET be lb ub src = (Returned tt, r) /\
    is_image_array r n h w /\
    (forall i j k, i < n -> j < h -> k < w ->
       at3 r i j k = nan_outside lb ub (at3 src i j k)).
Proof.
  unfold ImageArray.maskImageDataNan_ET. destruct be as [sch|]; run_kernel.
  - rewrite (proj1 src_array).
    eexists. split; [reflexivity|].
    apply (array_blocks (fun _ _ _ v => nan_outside lb ub v));
      [unfold nan_outside; cell_body|apply be_fair|done].
  - eexists. split; [reflexivity|].
    destruct (xt_filter_assign_spec (fun v => flt v lb || fgt v ub) quiet_NaN src n h w
                src_array) as [Hi Hc].
    split; [done|]. intros i j k Hi' Hj Hk. rewrite Hc by done.
    unfold nan_outside, fgt. destruct (isnan (at3 src i j k)) eqn:Hnan; [|done].
    by rewrite flt_nan_l, flt_nan_r.
Qed.

Lemma array_mask_kernels_spec (mask : xtensor bool) (lb ub : V) :
  is_image mask h w ->
  (exists r,
     ImageArray.maskImageDataZero_EM be mask src = (Returned tt, r) /\
     is_image_array r n h w /\
     (forall i j k, i < n -> j < h -> k < w ->
        at3 r i j k = if at2 mask j k || isnan (at3 src i j k) then fzero
                      else at3 src i j k)) /\
  (exists r,
     ImageArray.maskImageDataNan_EM be mask src = (Returned tt, r) /\
     is_image_array r n h w /\
     (forall i j k, i < n -> j < h -> k < w ->
        at3 r i j k = if at2 mask j k then quiet_NaN else at3 src i j k)) /\
  (exists r,
     ImageArray.maskImageDataZero_EMT be mask lb ub src = (Returned tt, r) /\
     is_image_array r n h w /\
     (forall i j k, i < n -> j < h -> k < w ->
        at3 r i j k = if at2 mask j k then fzero else zero_outside lb ub (at3 src i j k))) /\
  (exists r,
     ImageArray.maskImageDataNan_EMT be mask lb ub src = (Returned tt, r) /\
     is_image_array r n h w /\
     (forall i j k, i < n -> j < h -> k < w ->
        at3 r i j k = if at2 mask j k then quiet_NaN else nan_outside lb ub (at3 src i j k))).
Proof.
  intros [Hm Hlm]. pose proof src_array as [Hs Hl].
  unfold ImageArray.maskImageDataZero_EM, ImageArray.maskImageDataNan_EM,
    ImageArray.maskImageDataZero_EMT, ImageArray.maskImageDataNan_EMT.
  run_kernel. rewrite Hs, Hm. simpl drop. rewrite decide_True by done. run_kernel.
  split_and!; (eexists; split; [reflexivity|]).
  - apply (array_each be (fun i j k v => if at2 mask j k || isnan v then fzero else v));
      [cell_body|done|done].
  - apply (array_each be (fun i j k v => if at2 mask j k then quiet_NaN else v));
      [cell_body|done|done].
  - apply (array_each be (fun i j k v => if at2 mask j k then fzero else zero_outside lb ub v));
      [unfold zero_outside; cell_body|done|done].
  - apply (array_each be
             (fun i j k v => if at2 mask j k then quiet_NaN else nan_outside lb ub v));
      [unfold nan_outside; cell_body|done|done].
Qed.

Lemma array_correctImageData_spec (p : policy) (constants : xtensor V) :
  is_image_array constants n h w ->
  exists r,
    ImageArray.correctImageData be p constants src = (Returned tt, r) /\
    is_image_array r n h w /\
    (forall i j k, i < n -> j < h -> k < w ->
       at3 r i j k = correct p (at3 src i j k) (at3 constants i j k)).
Proof.
  intros [Hc Hlc]. pose proof src_array as [Hs Hl].
  unfold ImageArray.correctImageData. run_kernel. pass_checks.
  eexists. split; [reflexivity|].
  apply (array_each be (fun i j k v => correct p v (at3 constants i j k)));
    [cell_body|done|done].
Qed.
End ArraySpecs.

(** ** Zero-variant kernels on an image *)

Section ZeroVariant.
Context {V : Type} `{Floating V}.

Lemma isnan_zero_outside (lb ub v : V) : isnan (zero_outside lb ub v) = false.
Proof.
  unfold zero_outside. destruct (isnan v) eqn:Hv; simpl; [apply isnan_fzero|].
  destruct (flt v lb || fgt v ub); [apply isnan_fzero | done].
Qed.

(** X1. On a well-formed image every Zero-variant masking kernel (bare,
    threshold, mask, mask and threshold) returns and leaves an image with
    no NaN pixel; the bare kernel changes nothing but the NaN pixels, which
    become 0. *)
Theorem zero_variant_leaves_no_nan (mask : xtensor bool) (lb ub : V)
    (src : xtensor V) (h w : nat) :
  is_image src h w -> is_image mask h w ->
  (exists r,
     Image.maskImageDataZero_E src = (Returned tt, r) /\ is_image r h w /\
     (forall j k, j < h -> k < w ->
        isnan (at2 r j k) = false /\
        (isnan (at2 src j k) = true -> at2 r j k = fzero) /\
        (isnan (at2 src j k) = false -> at2 r j k = at2 src j k))) /\
  (exists r,
     Image.maskImageDataZero_ET lb ub src = (Returned tt, r) /\ is_image r h w /\
     (forall j k, j < h -> k < w -> isnan (at2 r j k) = false)) /\
  (exists r,
     Image.maskImageDataZero_EM mask src = (Returned tt, r) /\ is_image r h w /\
     (forall j k, j < h -> k < w -> isnan (at2 r j k) = false)) /\
  (exists r,
     Image.maskImageDataZero_EMT mask lb ub src = (Returned tt, r) /\ is_image r h w /\
     (forall j k, j < h -> k < w -> isnan (at2 r j k) = false)).
Proof.
  intros Hsrc Hmask. split_and!.
  - destruct (maskImageDataZero_E_spec src h w Hsrc) as (r & Hrun & Hi & Hc).
    exists r. split_and!; try done. intros j k Hj Hk. rewrite (Hc j k Hj Hk).
    destruct (isnan (at2 src j k)) eqn:Hv; split_and!; try done. apply isnan_fzero.
  - destruct (maskImageDataZero_ET_spec lb ub src h w Hsrc) as (r & Hrun & Hi & Hc).
    exists r. split_and!; try done. intros j k Hj Hk. rewrite (Hc j k Hj Hk).
    apply isnan_zero_outside.
  - destruct (maskImageDataZero_EM_spec mask src h w Hsrc Hmask) as (r & Hrun & Hi & Hc).
    exists r. split_and!; try done. intros j k Hj Hk. rewrite (Hc j k Hj Hk).
    destruct (at2 mask j k); simpl; [apply isnan_fzero|].
    destruct (isnan (at2 src j k)) eqn:Hv; [apply isnan_fzero | done].
  - destruct (maskImageDataZero_EMT_spec mask lb ub src h w Hsrc Hmask)
      as (r & Hrun & Hi & Hc).
    exists r. split_and!; try done. intros j k Hj Hk. rewrite (Hc j k Hj Hk).
    destruct (at2 mask j k); [apply isnan_fzero | apply isnan_zero_outside].
Qed.

(** X3. After the Zero-variant threshold kernel on an image, every pixel is
    0 or a value that is not NaN, not below [lb] and not above [ub]; a
    pixel that was such a value is unchanged, every other pixel is 0. *)
Theorem maskImageDataZero_ET_range (lb ub : V) (src : xtensor V) (h w : nat) :
  is_image src h w ->
  exists r,
    Image.maskImageDataZero_ET lb ub src = (Returned tt, r) /\ is_image r h w /\
    (forall j k, j < h -> k < w ->
       (at2 r j k = fzero \/ invalid lb ub (at2 r j k) = false) /\
       (invalid lb ub (at2 src j k) = false -> at2 r j k = at2 src j k) /\
       (invalid lb ub (at2 src j k) = true -> at2 r j k = fzero)).
Proof.
  intros Hsrc.
  destruct (maskImageDataZero_ET_spec lb ub src h w Hsrc) as (r & Hrun & Hi & Hc).
  exists r. split_and!; try done. intros j k Hj Hk. rewrite (Hc j k Hj Hk).
  unfold zero_outside, invalid.
  destruct (isnan (at2 src j k) || flt (at2 src j k) lb || fgt (at2 src j k) ub) eqn:Hv;
    split_and!; auto; done.
Qed.
End ZeroVariant.

(** ** The NaN mask of an image *)

(** X2. [imageDataNanMask], on an image and an output mask of its shape,
    sets the output bit of every NaN pixel and leaves every other bit as it
    was: a bit that was set stays set, and the image is only read. *)
Theorem imageDataNanMask_accumulates (V : Type) (F : Floating V)
    (src : xtensor V) (out : xtensor bool) (h w : nat) :
  is_image src h w -> is_image out h w ->
  exists out',
    Image.imageDataNanMask src out = (Returned tt, out') /\ is_image out' h w /\
    (forall j k, j < h -> k < w ->
       (isnan (at2 src j k) = true -> at2 out' j k = true) /\
       (isnan (at2 src j k) = false -> at2 out' j k = at2 out j k) /\
       (at2 out j k = true -> at2 out' j k = true)).
Proof.
  intros Hsrc Hout.
  destruct (imageDataNanMask_spec src out h w Hsrc Hout) as (out' & Hrun & Hi & Hc).
  exists out'. split_and!; try done. intros j k Hj Hk. rewrite (Hc j k Hj Hk).
  split_and!.
  - by intros ->.
  - by intros ->.
  - intros ->. apply orb_true_r.
Qed.

(** ** Nan-variant kernels on an image *)

Section NanVariant.
Context {V : Type} `{Floating V}.

Lemma nan_outside_idempotent (lb ub v : V) :
  nan_outside lb ub (nan_outside lb ub v) = nan_outside lb ub v.
Proof.
  unfold nan_outside. destruct (isnan v) eqn:Hv; [by rewrite Hv|].
  destruct (flt v lb || fgt v ub) eqn:Ho.
  - by rewrite isnan_quiet_NaN.
  - by rewrite Hv, Ho.
Qed.

Lemma isnan_nan_outside (lb ub v : V) :
  isnan v = true -> isnan (nan_outside lb ub v) = true.
Proof. intros Hv. unfold nan_outside. by rewrite Hv. Qed.

(** X4. The Nan-variant threshold kernel on an image keeps every NaN pixel
    as it is, replaces by NaN every other pixel below [lb] or above [ub] and
    leaves the rest; afterwards every pixel is NaN or within the thresholds,
    and a second call changes nothing. *)
Theorem maskImageDataNan_ET_range (lb ub : V) (src : xtensor V) (h w : nat) :
  is_image src h w ->
  exists r,
    Image.maskImageDataNan_ET lb ub src = (Returned tt, r) /\ is_image r h w /\
    (forall j k, j < h -> k < w ->
       (isnan (at2 r j k) = true \/ outside lb ub (at2 r j k) = false) /\
       (isnan (at2 src j k) = true -> at2 r j k = at2 src j k) /\
       (isnan (at2 src j k) = false -> outside lb ub (at2 src j k) = true ->
        at2 r j k = quiet_NaN) /\
       (outside lb ub (at2 src j k) = false -> at2 r j k = at2 src j k)) /\
    Image.maskImageDataNan_ET lb ub r = (Returned tt, r).
Proof.
  intros Hsrc.
  destruct (maskImageDataNan_ET_spec lb ub src h w Hsrc) as (r & Hrun & Hi & Hc).
  exists r. split_and!; try done.
  - intros j k Hj Hk. rewrite (Hc j k Hj Hk). unfold nan_outside, outside.
    destruct (isnan (at2 src j k)) eqn:Hv;
      destruct (flt (at2 src j k) lb || fgt (at2 src j k) ub) eqn:Ho;
      split_and!; auto; try done.
    left. apply isnan_quiet_NaN.
  - destruct (maskImageDataNan_ET_spec lb ub r h w Hi) as (r2 & Hrun2 & Hi2 & Hc2).
    rewrite Hrun2. f_equal. apply (image_ext _ _ h w); [done|done|].
    intros j k Hj Hk. rewrite (Hc2 j k Hj Hk), (Hc j k Hj Hk).
    apply nan_outside_idempotent.
Qed.

(** X17. No Nan-variant masking kernel on an image (threshold, mask, mask
    and threshold) removes a NaN: a pixel that is NaN before the call is NaN
    after it; and a pixel under a false mask bit that is within the
    thresholds is left as it was. *)
Theorem nan_variant_keeps_nan (mask : xtensor bool) (lb ub : V)
    (src : xtensor V) (h w : nat) :
  is_image src h w -> is_image mask h w ->
  (exists r,
     Image.maskImageDataNan_ET lb ub src = (Returned tt, r) /\ is_image r h w /\
     (forall j k, j < h -> k < w ->
        isnan (at2 src j k) = true -> isnan (at2 r j k) = true)) /\
  (exists r,
     Image.maskImageDataNan_EM mask src = (Returned tt, r) /\ is_image r h w /\
     (forall j k, j < h -> k < w ->
        isnan (at2 src j k) = true -> isnan (at2 r j k) = true)) /\
  (exists r,
     Image.maskImageDataNan_EMT mask lb ub src = (Returned tt, r) /\ is_image r h w /\
     (forall j k, j < h -> k < w ->
        (isnan (at2 src j k) = true -> isnan (at2 r j k) = true) /\
        (at2 mask j k = false -> outside lb ub (at2 src j k) = false ->
         at2 r j k = at2 src j k))).
Proof.
  intros Hsrc Hmask. split_and!.
  - destruct (maskImageDataNan_ET_spec lb ub src h w Hsrc) as (r & Hrun & Hi & Hc).
    exists r. split_and!; try done. intros j k Hj Hk. rewrite (Hc j k Hj Hk).
    apply isnan_nan_outside.
  - destruct (maskImageDataNan_EM_spec mask src h w Hsrc Hmask) as (r & Hrun & Hi & Hc).
    exists r. split_and!; try done. intros j k Hj Hk Hv. rewrite (Hc j k Hj Hk).
    destruct (at2 mask j k); [apply isnan_quiet_NaN | done].
  - destruct (maskImageDataNan_EMT_spec mask lb ub src h w Hsrc Hmask)
      as (r & Hrun & Hi & Hc).
    exists r. split_and!; try done. intros j k Hj Hk. rewrite (Hc j k Hj Hk). split.
    + intros Hv. destruct (at2 mask j k); [apply isnan_quiet_NaN|].
      by apply isnan_nan_outside.
    + intros -> Ho. unfold nan_outside, outside in *. rewrite Ho.
      by destruct (isnan (at2 src j k)).
Qed.
End NanVariant.

(** ** The overloads that record into an output mask *)

Section Recording.
Context {V : Type} `{Floating V}.

Lemma isnan_nan_outside_invalid (lb ub v : V) :
  isnan (nan_outside lb ub v) = invalid lb ub v.
Proof.
  unfold nan_outside, invalid. destruct (isnan v) eqn:Hv; [by rewrite Hv|]. simpl.
  destruct (flt v lb || fgt v ub); [apply isnan_quiet_NaN | done].
Qed.

(** X5. An overload that records into an output mask leaves in the image
    exactly what the overload without the output mask leaves: Zero and Nan
    threshold, Zero mask, Zero and Nan mask with threshold. *)
Theorem recording_overloads_same_image (mask : xtensor bool) (lb ub : V)
    (src : xtensor V) (out : xtensor bool) (h w : nat) :
  is_image src h w -> is_image mask h w -> is_image out h w ->
  (exists st',
     Image.maskImageDataZero_ETN lb ub (src, out) = (Returned tt, st') /\
     Image.maskImageDataZero_ET lb ub src = (Returned tt, st'.1)) /\
  (exists st',
     Image.maskImageDataNan_ETN lb ub (src, out) = (Returned tt, st') /\
     Image.maskImageDataNan_ET lb ub src = (Returned tt, st'.1)) /\
  (exists st',
     Image.maskImageDataZero_EMN mask (src, out) = (Returned tt, st') /\
     Image.maskImageDataZero_EM mask src = (Returned tt, st'.1)) /\
  (exists st',
     Image.maskImageDataZero_EMTN mask lb ub (src, out) = (Returned tt, st') /\
     Image.maskImageDataZero_EMT mask lb ub src = (Returned tt, st'.1)) /\
  (exists st',
     Image.maskImageDataNan_EMTN mask lb ub (src, out) = (Returned tt, st') /\
     Image.maskImageDataNan_EMT mask lb ub src = (Returned tt, st'.1)).
Proof.
  intros Hsrc Hmask Hout. split_and!.
  - destruct (maskImageDataZero_ETN_spec lb ub src out h w Hsrc Hout)
      as (st' & Hrun & Hi & _ & Hc).
    destruct (maskImageDataZero_ET_spec lb ub src h w Hsrc) as (r & Hrun' & Hi' & Hc').
    exists st'. split; [done|]. rewrite Hrun'. f_equal.
    apply (image_ext _ _ h w); [done|done|]. intros j k Hj Hk.
    rewrite (Hc' j k Hj Hk). by destruct (Hc j k Hj Hk) as [-> _].
  - destruct (maskImageDataNan_ETN_spec lb ub src out h w Hsrc Hout)
      as (st' & Hrun & Hi & _ & Hc).
    destruct (maskImageDataNan_ET_spec lb ub src h w Hsrc) as (r & Hrun' & Hi' & Hc').
    exists st'. split; [done|]. rewrite Hrun'. f_equal.
    apply (image_ext _ _ h w); [done|done|]. intros j k Hj Hk.
    rewrite (Hc' j k Hj Hk). by destruct (Hc j k Hj Hk) as [-> _].
  - destruct (maskImageDataZero_EMN_spec mask src out h w Hsrc Hmask Hout)
      as (st' & Hrun & Hi & _ & Hc).
    destruct (maskImageDataZero_EM_spec mask src h w Hsrc Hmask) as (r & Hrun' & Hi' & Hc').
    exists st'. split; [done|]. rewrite Hrun'. f_equal.
    apply (image_ext _ _ h w); [done|done|]. intros j k Hj Hk.
    rewrite (Hc' j k Hj Hk). by destruct (Hc j k Hj Hk) as [-> _].
  - destruct (maskImageDataZero_EMTN_spec mask lb ub src out h w Hsrc Hmask Hout)
      as (st' & Hrun & Hi & _ & Hc).
    destruct (maskImageDataZero_EMT_spec mask lb ub src h w Hsrc Hmask)
      as (r & Hrun' & Hi' & Hc').
    exists st'. split; [done|]. rewrite Hrun'. f_equal.
    apply (image_ext _ _ h w); [done|done|]. intros j k Hj Hk.
    rewrite (Hc' j k Hj Hk). by destruct (Hc j k Hj Hk) as [-> _].
  - destruct (maskImageDataNan_EMTN_spec mask lb ub src out h w Hsrc Hmask Hout)
      as (st' & Hrun & Hi & _ & Hc).
    destruct (maskImageDataNan_EMT_spec mask lb ub src h w Hsrc Hmask)
      as (r & Hrun' & Hi' & Hc').
    exists st'. split; [done|]. rewrite Hrun'. f_equal.
    apply (image_ext _ _ h w); [done|done|]. intros j k Hj Hk.
    rewrite (Hc' j k Hj Hk). by destruct (Hc j k Hj Hk) as [-> _].
Qed.

(** X6. Every overload with an output mask accumulates into it with a
    logical or: after the call a bit is set exactly when it was set before
    or the call found the pixel invalid (NaN or outside the thresholds for
    the threshold overloads, mask bit or NaN for the mask overloads, any of
    the three for the combined ones).  No bit is ever cleared. *)
Theorem output_mask_accumulates (mask : xtensor bool) (lb ub : V)
    (src : xtensor V) (out : xtensor bool) (h w : nat) :
  is_image src h w -> is_image mask h w -> is_image out h w ->
  (exists st',
     Image.maskImageDataZero_ETN lb ub (src, out) = (Returned tt, st') /\
     (forall j k, j < h -> k < w ->
        at2 st'.2 j k = invalid lb ub (at2 src j k) || at2 out j k)) /\
  (exists st',
     Image.maskImageDataNan_ETN lb ub (src, out) = (Returned tt, st') /\
     (forall j k, j < h -> k < w ->
        at2 st'.2 j k = invalid lb ub (at2 src j k) || at2 out j k)) /\
  (exists st',
     Image.maskImageDataZero_EMN mask (src, out) = (Returned tt, st') /\
     (forall j k, j < h -> k < w ->
        at2 st'.2 j k = at2 mask j k || isnan (at2 src j k) || at2 out j k)) /\
  (exists st',
     Image.maskImageDataNan_EMN mask (src, out) = (Returned tt, st') /\
     (forall j k, j < h -> k < w ->
        at2 st'.2 j k = at2 mask j k || isnan (at2 src j k) || at2 out j k)) /\
  (exists st',
     Image.maskImageDataZero_EMTN mask lb ub (src, out) = (Returned tt, st') /\
     (forall j k, j < h -> k < w ->
        at2 st'.2 j k = at2 mask j k || invalid lb ub (at2 src j k) || at2 out j k)) /\
  (exists st',
     Image.maskImageDataNan_EMTN mask lb ub (src, out) = (Returned tt, st') /\
     (forall j k, j < h -> k < w ->
        at2 st'.2 j k = at2 mask j k || invalid lb ub (at2 src j k) || at2 out j k)).
Proof.
  intros Hsrc Hmask Hout. split_and!.
  - destruct (maskImageDataZero_ETN_spec lb ub src out h w Hsrc Hout)
      as (st' & Hrun & _ & _ & Hc).
    exists st'. split; [done|]. intros j k Hj Hk. by destruct (Hc j k Hj Hk).
  - destruct (maskImageDataNan_ETN_spec lb ub src out h w Hsrc Hout)
      as (st' & Hrun & _ & _ & Hc).
    exists st'. split; [done|]. intros j k Hj Hk. by destruct (Hc j k Hj Hk).
  - destruct (maskImageDataZero_EMN_spec mask src out h w Hsrc Hmask Hout)
      as (st' & Hrun & _ & _ & Hc).
    exists st'. split; [done|]. intros j k Hj Hk. by destruct (Hc j k Hj Hk).
  - destruct (maskImageDataNan_EMN_spec mask src out h w Hsrc Hmask Hout)
      as (st' & Hrun & _ & _ & Hc).
    exists st'. split; [done|]. intros j k Hj Hk. destruct (Hc j k Hj Hk) as [_ ->].
    by destruct (isnan (at2 src j k)), (at2 mask j k).
  - destruct (maskImageDataZero_EMTN_spec mask lb ub src out h w Hsrc Hmask Hout)
      as (st' & Hrun & _ & _ & Hc).
    exists st'. split; [done|]. intros j k Hj Hk. by destruct (Hc j k Hj Hk).
  - destruct (maskImageDataNan_EMTN_spec mask lb ub src out h w Hsrc Hmask Hout)
      as (st' & Hrun & _ & _ & Hc).
    exists st'. split; [done|]. intros j k Hj Hk. destruct (Hc j k Hj Hk) as [_ ->].
    unfold invalid. destruct (at2 mask j k); [done|]. simpl.
    destruct (isnan (at2 src j k)); [done|]. simpl.
    by destruct (flt (at2 src j k) lb || fgt (at2 src j k) ub).
Qed.

(** X7. For the Nan-variant overloads with an output mask (threshold,
    mask, mask and threshold), the output mask after the call is what
    [imageDataNanMask] writes from the resulting image into the output mask
    the call received: the bits recorded are the NaN pixels of the result. *)
Theorem nan_variant_records_nan_mask (mask : xtensor bool) (lb ub : V)
    (src : xtensor V) (out : xtensor bool) (h w : nat) :
  is_image src h w -> is_image mask h w -> is_image out h w ->
  (exists st',
     Image.maskImageDataNan_ETN lb ub (src, out) = (Returned tt, st') /\
     Image.imageDataNanMask st'.1 out = (Returned tt, st'.2)) /\
  (exists st',
     Image.maskImageDataNan_EMN mask (src, out) = (Returned tt, st') /\
     Image.imageDataNanMask st'.1 out = (Returned tt, st'.2)) /\
  (exists st',
     Image.maskImageDataNan_EMTN mask lb ub (src, out) = (Returned tt, st') /\
     Image.imageDataNanMask st'.1 out = (Returned tt, st'.2)).
Proof.
  intros Hsrc Hmask Hout. split_and!.
  - destruct (maskImageDataNan_ETN_spec lb ub src out h w Hsrc Hout)
      as (st' & Hrun & Hi1 & Hi2 & Hc).
    destruct (imageDataNanMask_spec st'.1 out h w Hi1 Hout) as (o & Hrun' & Hio & Hco).
    exists st'. split; [done|]. rewrite Hrun'. f_equal.
    apply (image_ext _ _ h w); [done|done|]. intros j k Hj Hk.
    rewrite (Hco j k Hj Hk). destruct (Hc j k Hj Hk) as [-> ->].
    by rewrite isnan_nan_outside_invalid.
  - destruct (maskImageDataNan_EMN_spec mask src out h w Hsrc Hmask Hout)
      as (st' & Hrun & Hi1 & Hi2 & Hc).
    destruct (imageDataNanMask_spec st'.1 out h w Hi1 Hout) as (o & Hrun' & Hio & Hco).
    exists st'. split; [done|]. rewrite Hrun'. f_equal.
    apply (image_ext _ _ h w); [done|done|]. intros j k Hj Hk.
    rewrite (Hco j k Hj Hk). destruct (Hc j k Hj Hk) as [-> ->].
    destruct (isnan (at2 src j k)) eqn:Hv; [by rewrite Hv|].
    destruct (at2 mask j k); [by rewrite isnan_quiet_NaN | by rewrite Hv].
  - destruct (maskImageDataNan_EMTN_spec mask lb ub src out h w Hsrc Hmask Hout)
      as (st' & Hrun & Hi1 & Hi2 & Hc).
    destruct (imageDataNanMask_spec st'.1 out h w Hi1 Hout) as (o & Hrun' & Hio & Hco).
    exists st'. split; [done|]. rewrite Hrun'. f_equal.
    apply (image_ext _ _ h w); [done|done|]. intros j k Hj Hk.
    rewrite (Hco j k Hj Hk). destruct (Hc j k Hj Hk) as [-> ->].
    destruct (at2 mask j k); [by rewrite isnan_quiet_NaN|].
    rewrite isnan_nan_outside_invalid. unfold invalid.
    destruct (isnan (at2 src j k)); [done|]. simpl.
    by destruct (flt (at2 src j k) lb || fgt (at2 src j k) ub).
Qed.

(** X8. The Nan-variant mask overload with an output mask tests NaN before
    the mask, the one without tests only the mask: they leave the same
    image except at a NaN pixel under a true mask bit, which the first
    keeps as it is and the second overwrites with the quiet NaN; at every
    pixel the two results are the same value or both NaN. *)
Theorem maskImageDataNan_EMN_versus_EM (mask : xtensor bool)
    (src : xtensor V) (out : xtensor bool) (h w : nat) :
  is_image src h w -> is_image mask h w -> is_image out h w ->
  exists st' r,
    Image.maskImageDataNan_EMN mask (src, out) = (Returned tt, st') /\
    Image.maskImageDataNan_EM mask src = (Returned tt, r) /\
    (forall j k, j < h -> k < w ->
       same_pixel (at2 st'.1 j k) (at2 r j k) /\
       (isnan (at2 src j k) && at2 mask j k = false -> at2 st'.1 j k = at2 r j k) /\
       (isnan (at2 src j k) && at2 mask j k = true ->
        at2 st'.1 j k = at2 src j k /\ at2 r j k = quiet_NaN)).
Proof.
  intros Hsrc Hmask Hout.
  destruct (maskImageDataNan_EMN_spec mask src out h w Hsrc Hmask Hout)
    as (st' & Hrun & _ & _ & Hc).
  destruct (maskImageDataNan_EM_spec mask src h w Hsrc Hmask) as (r & Hrun' & _ & Hc').
  exists st', r. split_and!; try done. intros j k Hj Hk.
  destruct (Hc j k Hj Hk) as [-> _]. rewrite (Hc' j k Hj Hk). unfold same_pixel.
  destruct (isnan (at2 src j k)) eqn:Hv, (at2 mask j k); simpl; split_and!; auto; try done.
  right. split; [done | apply isnan_quiet_NaN].
Qed.
End Recording.

(** ** The combined overloads as compositions *)

Section Composition.
Context {V : Type} `{Floating V}.

Lemma zero_outside_fzero (lb ub : V) : zero_outside lb ub fzero = fzero.
Proof. unfold zero_outside. by destruct (isnan fzero || flt fzero lb || fgt fzero ub). Qed.

Lemma zero_outside_nan (lb ub v : V) : isnan v = true -> zero_outside lb ub v = fzero.
Proof. intros Hv. unfold zero_outside. by rewrite Hv. Qed.

(** X9. On an image, the Zero-variant mask-and-threshold kernel does what
    the Zero-variant mask kernel followed by the Zero-variant threshold
    kernel does: the two calls return and leave the same image. *)
Theorem maskImageDataZero_EMT_composes (mask : xtensor bool) (lb ub : V)
    (src : xtensor V) (h w : nat) :
  is_image src h w -> is_image mask h w ->
  exists masked r,
    Image.maskImageDataZero_EM mask src = (Returned tt, masked) /\
    Image.maskImageDataZero_ET lb ub masked = (Returned tt, r) /\
    Image.maskImageDataZero_EMT mask lb ub src = (Returned tt, r).
Proof.
  intros Hsrc Hmask.
  destruct (maskImageDataZero_EM_spec mask src h w Hsrc Hmask) as (m & Hrun1 & Hi1 & Hc1).
  destruct (maskImageDataZero_ET_spec lb ub m h w Hi1) as (r & Hrun2 & Hi2 & Hc2).
  destruct (maskImageDataZero_EMT_spec mask lb ub src h w Hsrc Hmask)
    as (r' & Hrun3 & Hi3 & Hc3).
  exists m, r. split_and!; try done. rewrite Hrun3. f_equal.
  apply (image_ext _ _ h w); [done|done|]. intros j k Hj Hk.
  rewrite (Hc3 j k Hj Hk), (Hc2 j k Hj Hk), (Hc1 j k Hj Hk).
  destruct (at2 mask j k); simpl; [by rewrite zero_outside_fzero|].
  destruct (isnan (at2 src j k)) eqn:Hv; [|done].
  by rewrite zero_outside_fzero, zero_outside_nan.
Qed.

(** X10. On an image, the Nan-variant mask-and-threshold kernel does what
    the Nan-variant mask kernel followed by the Nan-variant threshold kernel
    does: the two calls return and leave the same image. *)
Theorem maskImageDataNan_EMT_composes (mask : xtensor bool) (lb ub : V)
    (src : xtensor V) (h w : nat) :
  is_image src h w -> is_image mask h w ->
  exists masked r,
    Image.maskImageDataNan_EM mask src = (Returned tt, masked) /\
    Image.maskImageDataNan_ET lb ub masked = (Returned tt, r) /\
    Image.maskImageDataNan_EMT mask lb ub src = (Returned tt, r).
Proof.
  intros Hsrc Hmask.
  destruct (maskImageDataNan_EM_spec mask src h w Hsrc Hmask) as (m & Hrun1 & Hi1 & Hc1).
  destruct (maskImageDataNan_ET_spec lb ub m h w Hi1) as (r & Hrun2 & Hi2 & Hc2).
  destruct (maskImageDataNan_EMT_spec mask lb ub src h w Hsrc Hmask)
    as (r' & Hrun3 & Hi3 & Hc3).
  exists m, r. split_and!; try done. rewrite Hrun3. f_equal.
  apply (image_ext _ _ h w); [done|done|]. intros j k Hj Hk.
  rewrite (Hc3 j k Hj Hk), (Hc2 j k Hj Hk), (Hc1 j k Hj Hk).
  destruct (at2 mask j k); [|done].
  unfold nan_outside. by rewrite isnan_quiet_NaN.
Qed.

(** X13. The single-policy correction on an image with constants of its
    shape returns and leaves, at every pixel, [src - constants] under the
    offset policy and [src * constants] under the gain policy. *)
Theorem correctImageData_policy (constants src : xtensor V) (h w : nat) :
  is_image src h w -> is_image constants h w ->
  (exists r,
     Image.correctImageData OffsetPolicy constants src = (Returned tt, r) /\
     is_image r h w /\
     (forall j k, j < h -> k < w -> at2 r j k = fsub (at2 src j k) (at2 constants j k))) /\
  (exists r,
     Image.correctImageData GainPolicy constants src = (Returned tt, r) /\
     is_image r h w /\
     (forall j k, j < h -> k < w -> at2 r j k = fmul (at2 src j k) (at2 constants j k))).
Proof.
  intros Hsrc Hc. split.
  - apply (correctImageData_spec OffsetPolicy constants src h w Hsrc Hc).
  - apply (correctImageData_spec GainPolicy constants src h w Hsrc Hc).
Qed.
End Composition.

(** ** Arrays of images, frame by frame *)

Lemma frame_spec {A} `{Inhabited A} (t : xtensor A) (n h w i : nat) :
  is_image_array t n h w -> i < n ->
  is_image (frame t i) h w /\
  (forall j k, j < h -> k < w -> at2 (frame t i) j k = at3 t i j k).
Proof.
  intros [Hs Hl] Hi. unfold frame, is_image, at2, at3. rewrite Hs. cbn [shape storage tail].
  change (extent [n; h; w] 1) with h. change (extent [n; h; w] 2) with w.
  assert ((i + 1) * (h * w) <= n * h * w) as Hfit by nia.
  split.
  - split; [done|]. rewrite length_take, length_drop. lia.
  - intros j k Hj Hk. pose proof (offset2_lt h w j k Hj Hk) as Hlt.
    rewrite lookup_total_take_lt by done. rewrite lookup_total_drop.
    f_equal. unfold offset2, offset3.
    change (extent [n; h; w] 1) with h. change (extent [n; h; w] 2) with w.
    change (extent [h; w] 1) with w. lia.
Qed.

(** Equality of a frame of the result of an array kernel with the result
    of the image kernel on that frame, from the specifications of the two
    kernels. *)
Ltac framewise Harr Himg h w n i Hi :=
  let r := fresh "r" in let ri := fresh "ri" in
  let Hrun := fresh "Hrun" in let Hia := fresh "Hia" in let Hc := fresh "Hc" in
  let Hruni := fresh "Hruni" in let Hii := fresh "Hii" in let Hci := fresh "Hci" in
  destruct Harr as (r & Hrun & Hia & Hc);
  destruct Himg as (ri & Hruni & Hii & Hci);
  exists r; split; [exact Hrun|];
  rewrite Hruni; f_equal;
  destruct (frame_spec r n h w i Hia Hi) as [? Hfr];
  apply (image_ext _ _ h w); [done|done|];
  let j := fresh "j" in let k := fresh "k" in
  intros j k ? ?;
  rewrite (Hci j k) by done; rewrite (Hfr j k) by done; rewrite (Hc i j k) by done.

Section Framewise.
Context {V : Type} `{Floating V}.
Variables (be : backend) (src : xtensor V) (n h w i : nat).
Hypothesis be_fair : fair_backend be.
Hypothesis src_array : is_image_array src n h w.
Hypothesis i_frame : i < n.

Lemma frame_src : is_image (frame src i) h w.
Proof. by apply (frame_spec src n h w i). Qed.

Lemma frame_src_at (j k : nat) : j < h -> k < w -> at2 (frame src i) j k = at3 src i j k.
Proof. by apply (frame_spec src n h w i). Qed.

Lemma framewise_masking (mask : xtensor bool) (lb ub : V) :
  is_image mask h w ->
  (exists r,
     ImageArray.maskImageDataZero_E be src = (Returned tt, r) /\
     Image.maskImageDataZero_E (frame src i) = (Returned tt, frame r i)) /\
  (exists r,
     ImageArray.maskImageDataZero_ET be lb ub src = (Returned tt, r) /\
     Image.maskImageDataZero_ET lb ub (frame src i) = (Returned tt, frame r i)) /\
  (exists r,
     ImageArray.maskImageDataNan_ET be lb ub src = (Returned tt, r) /\
     Image.maskImageDataNan_ET lb ub (frame src i) = (Returned tt, frame r i)) /\
  (exists r,
     ImageArray.maskImageDataZero_EM be mask src = (Returned tt, r) /\
     Image.maskImageDataZero_EM mask (frame src i) = (Returned tt, frame r i)) /\
  (exists r,
     ImageArray.maskImageDataNan_EM be mask src = (Returned tt, r) /\
     Image.maskImageDataNan_EM mask (frame src i) = (Returned tt, frame r i)) /\
  (exists r,
     ImageArray.maskImageDataZero_EMT be mask lb ub src = (Returned tt, r) /\
     Image.maskImageDataZero_EMT mask lb ub (frame src i) = (Returned tt, frame r i)) /\
  (exists r,
     ImageArray.maskImageDataNan_EMT be mask lb ub src = (Returned tt, r) /\
     Image.maskImageDataNan_EMT mask lb ub (frame src i) = (Returned tt, frame r i)).
Proof.
  intros Hmask. pose proof frame_src as Hf.
  destruct (array_mask_kernels_spec be src n h w be_fair src_array mask lb ub Hmask)
    as (A1 & A2 & A3 & A4).
  split_and!.
  - framewise (array_maskImageDataZero_E_spec be src n h w be_fair src_array)
              (maskImageDataZero_E_spec (frame src i) h w Hf) h w n i i_frame.
    by rewrite frame_src_at.
  - framewise (array_maskImageDataZero_ET_spec be src n h w be_fair src_array lb ub)
              (maskImageDataZero_ET_spec lb ub (frame src i) h w Hf) h w n i i_frame.
    by rewrite frame_src_at.
  - framewise (array_maskImageDataNan_ET_spec be src n h w be_fair src_array lb ub)
              (maskImageDataNan_ET_spec lb ub (frame src i) h w Hf) h w n i i_frame.
    by rewrite frame_src_at.
  - framewise A1 (maskImageDataZero_EM_spec mask (frame src i) h w Hf Hmask) h w n i i_frame.
    by rewrite frame_src_at.
  - framewise A2 (maskImageDataNan_EM_spec mask (frame src i) h w Hf Hmask) h w n i i_frame.
    by rewrite frame_src_at.
  - framewise A3 (maskImageDataZero_EMT_spec mask lb ub (frame src i) h w Hf Hmask)
              h w n i i_frame.
    by rewrite frame_src_at.
  - framewise A4 (maskImageDataNan_EMT_spec mask lb ub (frame src i) h w Hf Hmask)
              h w n i i_frame.
    by rewrite frame_src_at.
Qed.

Lemma framewise_arithmetic (p : policy) (data gain offset : xtensor V) (count : nat) :
  is_image_array data n h w -> is_image_array gain n h w -> is_image_array offset n h w ->
  1 <= count ->
  (exists r,
     ImageArray.movingAvgImageData be data count src = (Returned tt, r) /\
     Image.movingAvgImageData (frame data i) count (frame src i) = (Returned tt, frame r i)) /\
  (exists r,
     ImageArray.correctImageData be p data src = (Returned tt, r) /\
     Image.correctImageData p (frame data i) (frame src i) = (Returned tt, frame r i)) /\
  (exists r,
     ImageArray.correctImageData_gain_offset be gain offset src = (Returned tt, r) /\
     Image.correctImageData_gain_offset (frame gain i) (frame offset i) (frame src i)
     = (Returned tt, frame r i)).
Proof.
  intros Hdata Hgain Hoffset Hcount. pose proof frame_src as Hf.
  destruct (frame_spec data n h w i Hdata i_frame) as [Hfd Hfdc].
  destruct (frame_spec gain n h w i Hgain i_frame) as [Hfg Hfgc].
  destruct (frame_spec offset n h w i Hoffset i_frame) as [Hfo Hfoc].
  split_and!.
  - framewise (movingAvg_array be data src count n h w be_fair src_array Hdata Hcount)
              (movingAvg_image (frame data i) (frame src i) count h w Hf Hfd Hcount)
              h w n i i_frame.
    by rewrite frame_src_at, Hfdc.
  - framewise (array_correctImageData_spec be src n h w be_fair src_array p data Hdata)
              (correctImageData_spec p (frame data i) (frame src i) h w Hf Hfd)
              h w n i i_frame.
    by rewrite frame_src_at, Hfdc.
  - framewise (correct_array be gain offset src n h w be_fair src_array Hgain Hoffset)
              (correct_image (frame gain i) (frame offset i) (frame src i) h w Hf Hfg Hfo)
              h w n i i_frame.
    by rewrite frame_src_at, Hfgc, Hfoc.
Qed.
End Framewise.

(** X11. Every masking kernel on an array of images, on either build, does
    to each frame what the kernel of the same overload on one image does to
    that frame; the 2D mask is the same for every frame. *)
Theorem array_masking_is_framewise (V : Type) (F : Floating V) (be : backend)
    (mask : xtensor bool) (lb ub : V) (src : xtensor V) (n h w i : nat) :
  fair_backend be -> is_image_array src n h w -> is_image mask h w -> i < n ->
  (exists r,
     ImageArray.maskImageDataZero_E be src = (Returned tt, r) /\
     Image.maskImageDataZero_E (frame src i) = (Returned tt, frame r i)) /\
  (exists r,
     ImageArray.maskImageDataZero_ET be lb ub src = (Returned tt, r) /\
     Image.maskImageDataZero_ET lb ub (frame src i) = (Returned tt, frame r i)) /\
  (exists r,
     ImageArray.maskImageDataNan_ET be lb ub src = (Returned tt, r) /\
     Image.maskImageDataNan_ET lb ub (frame src i) = (Returned tt, frame r i)) /\
  (exists r,
     ImageArray.maskImageDataZero_EM be mask src = (Returned tt, r) /\
     Image.maskImageDataZero_EM mask (frame src i) = (Returned tt, frame r i)) /\
  (exists r,
     ImageArray.maskImageDataNan_EM be mask src = (Returned tt, r) /\
     Image.maskImageDataNan_EM mask (frame src i) = (Returned tt, frame r i)) /\
  (exists r,
     ImageArray.maskImageDataZero_EMT be mask lb ub src = (Returned tt, r) /\
     Image.maskImageDataZero_EMT mask lb ub (frame src i) = (Returned tt, frame r i)) /\
  (exists r,
     ImageArray.maskImageDataNan_EMT be mask lb ub src = (Returned tt, r) /\
     Image.maskImageDataNan_EMT mask lb ub (frame src i) = (Returned tt, frame r i)).
Proof.
  intros Hfair Hsrc Hmask Hi.
  apply (framewise_masking be src n h w i Hfair Hsrc Hi mask lb ub Hmask).
Qed.

(** X12. The moving average and the two corrections on an array of images,
    on either build, do to each frame what the kernel on one image does to
    that frame with the matching frame of the data or of the constants. *)
Theorem array_arithmetic_is_framewise (V : Type) (F : Floating V) (be : backend)
    (p : policy) (data gain offset src : xtensor V) (count n h w i : nat) :
  fair_backend be -> is_image_array src n h w ->
  is_image_array data n h w -> is_image_array gain n h w -> is_image_array offset n h w ->
  1 <= count -> i < n ->
  (exists r,
     ImageArray.movingAvgImageData be data count src = (Returned tt, r) /\
     Image.movingAvgImageData (frame data i) count (frame src i) = (Returned tt, frame r i)) /\
  (exists r,
     ImageArray.correctImageData be p data src = (Returned tt, r) /\
     Image.correctImageData p (frame data i) (frame src i) = (Returned tt, frame r i)) /\
  (exists r,
     ImageArray.correctImageData_gain_offset be gain offset src = (Returned tt, r) /\
     Image.correctImageData_gain_offset (frame gain i) (frame offset i) (frame src i)
     = (Returned tt, frame r i)).
Proof.
  intros Hfair Hsrc Hdata Hgain Hoffset Hcount Hi.
  apply (framewise_arithmetic be src n h w i Hfair Hsrc Hi p data gain offset count
           Hdata Hgain Hoffset Hcount).
Qed.

(** ** Schedulers and builds *)

Section SchedulerIndependence.
Context {V : Type} `{Floating V}.

Lemma nanmeanImageArrayImp_value (sch : scheduler) (keep : list nat)
    (src : xtensor V) (n h w : nat) :
  fair sch -> is_image_array src n h w ->
  exists mean,
    ImageArray.nanmeanImageArrayImp sch keep src = (Returned mean, src) /\
    is_image mean h w /\
    (forall j k, j < h -> k < w ->
       at2 mean j k
       = let l := not_nan (selected_values src
                             (if bool_decide (keep = []) then seq 0 n else keep) j k) in
         if bool_decide (length l = 0) then quiet_NaN else mean_of l).
Proof.
  intros [Hfair _] [Hs Hl].
  unfold ImageArray.nanmeanImageArrayImp. run_kernel. rewrite Hs.
  change (extent [n; h; w] 0) with n. change (extent [n; h; w] 1) with h.
  change (extent [n; h; w] 2) with w.
  eexists. split; [reflexivity|].
  match goal with
  | |- context [parallel_for ?bl (fun block => for_block2 block ?body) ?t] =>
      apply (image_blocks
               (fun j k (_ : V) =>
                  let l := not_nan (selected_values src
                                      (if bool_decide (keep = []) then seq 0 n else keep)
                                      j k) in
                  if bool_decide (length l = 0) then quiet_NaN else mean_of l)
               body bl t h w)
  end.
  - intros j k t Ht. unfold selected_values, for_range.
    rewrite (foldl_pointwise _
               (fun '(count, sum) it =>
                  let v := at3 src it j k in
                  if negb (isnan v) then (count + 1, fadd sum v) else (count, sum))
               (seq 0 (n - 0))) by (by intros [] ?).
    rewrite Nat.sub_0_r, !accumulate_not_nan.
    destruct (bool_decide (keep = [])); simpl;
      destruct (bool_decide (length _ = 0)); unfold set2; by rewrite Ht.
  - apply Hfair.
  - apply is_image_from_shape.
Qed.

Lemma nanmeanImageArrayImp_schedulers (sch1 sch2 : scheduler) (keep : list nat)
    (src : xtensor V) (n h w : nat) :
  fair sch1 -> fair sch2 -> is_image_array src n h w ->
  ImageArray.nanmeanImageArrayImp sch1 keep src = ImageArray.nanmeanImageArrayImp sch2 keep src.
Proof.
  intros Hf1 Hf2 Hsrc.
  destruct (nanmeanImageArrayImp_value sch1 keep src n h w Hf1 Hsrc) as (m1 & -> & Hi1 & Hc1).
  destruct (nanmeanImageArrayImp_value sch2 keep src n h w Hf2 Hsrc) as (m2 & -> & Hi2 & Hc2).
  f_equal. f_equal. apply (image_ext _ _ h w); [done|done|].
  intros j k Hj Hk. by rewrite Hc1, Hc2.
Qed.
End SchedulerIndependence.

(** X14. On the TBB build the two nanmean kernels do not depend on how the
    scheduler cuts the image into blocks, nor on the order of the blocks:
    any two schedulers that tile the image give the same outcome. *)
Theorem nanmean_scheduler_independent (V : Type) (F : Floating V)
    (sch1 sch2 : scheduler) (keep : list nat) (src src1 src2 : xtensor V) (n h w : nat) :
  fair sch1 -> fair sch2 ->
  is_image_array src n h w -> is_image src1 h w -> is_image src2 h w ->
  ImageArray.nanmeanImageArray (with_tbb sch1) src
  = ImageArray.nanmeanImageArray (with_tbb sch2) src /\
  ImageArray.nanmeanImageArray_keep (with_tbb sch1) keep src
  = ImageArray.nanmeanImageArray_keep (with_tbb sch2) keep src /\
  Image.nanmeanImageArray_EE (with_tbb sch1) (src1, src2)
  = Image.nanmeanImageArray_EE (with_tbb sch2) (src1, src2).
Proof.
  intros Hf1 Hf2 Hsrc Hsrc1 Hsrc2. split_and!.
  - apply (nanmeanImageArrayImp_schedulers sch1 sch2 [] src n h w Hf1 Hf2 Hsrc).
  - unfold ImageArray.nanmeanImageArray_keep. run_kernel.
    destruct (bool_decide (keep = [])); [done|]. run_kernel.
    by rewrite (nanmeanImageArrayImp_schedulers sch1 sch2 keep src n h w Hf1 Hf2 Hsrc).
  - destruct (nanmeanImageArray_EE_tbb sch1 src1 src2 h w Hf1 Hsrc1 Hsrc2)
      as (m1 & -> & Hi1 & Hc1).
    destruct (nanmeanImageArray_EE_tbb sch2 src1 src2 h w Hf2 Hsrc1 Hsrc2)
      as (m2 & -> & Hi2 & Hc2).
    f_equal. f_equal. apply (image_ext _ _ h w); [done|done|].
    intros j k Hj Hk. by rewrite Hc1, Hc2.
Qed.

(** X18. The moving average and the two corrections on an array of images
    give, on the TBB build and for every scheduler that tiles the array,
    exactly the outcome of the build without TBB, whatever the shapes of
    the other arguments and whatever the count. *)
Theorem array_arithmetic_builds_agree (V : Type) (F : Floating V) (sch : scheduler)
    (p : policy) (data gain offset src : xtensor V) (count n h w : nat) :
  fair sch -> is_image_array src n h w ->
  ImageArray.movingAvgImageData (with_tbb sch) data count src
  = ImageArray.movingAvgImageData without_tbb data count src /\
  ImageArray.correctImageData (with_tbb sch) p data src
  = ImageArray.correctImageData without_tbb p data src /\
  ImageArray.correctImageData_gain_offset (with_tbb sch) gain offset src
  = ImageArray.correctImageData_gain_offset without_tbb gain offset src.
Proof.
  intros Hfair Hsrc. pose proof Hsrc as [Hs Hl].
  unfold ImageArray.movingAvgImageData, ImageArray.correctImageData,
    ImageArray.correctImageData_gain_offset.
  run_kernel. rewrite Hs. simpl drop. split_and!.
  - destruct (bool_decide (count = 0)); [done|]. run_kernel. rewrite Hs. simpl drop.
    case_decide; [|done]. run_kernel. f_equal.
    apply (for_each3_builds sch src n h w Hfair Hsrc _
             (fun i j k v => fadd v (fdiv (fsub (at3 data i j k) v) (of_size count)))).
    cell_body.
  - case_decide; [|done]. run_kernel. f_equal.
    apply (for_each3_builds sch src n h w Hfair Hsrc _
             (fun i j k v => correct p v (at3 data i j k))).
    cell_body.
  - case_decide; [|done]. run_kernel. case_decide; [|done]. run_kernel. f_equal.
    apply (for_each3_builds sch src n h w Hfair Hsrc _
             (fun i j k v => fmul (at3 gain i j k) (fsub v (at3 offset i j k)))).
    cell_body.
Qed.

(** X15. Selecting every frame, in order, is the same as not selecting:
    on a stack of at least one frame and on either build, stack-wide
    nanmean with [keep = 0, 1, ..., n-1] gives the outcome of the call
    without [keep]. *)
Theorem nanmean_keep_all_frames (V : Type) (F : Floating V) (be : backend)
    (src : xtensor V) (n h w : nat) :
  fair_backend be -> is_image_array src n h w -> 0 < n ->
  ImageArray.nanmeanImageArray_keep be (seq 0 n) src = ImageArray.nanmeanImageArray be src.
Proof.
  intros Hfair Hsrc Hn. pose proof Hsrc as [Hs Hl].
  assert (seq 0 n <> []) as Hne by (destruct n; [lia | done]).
  destruct be as [sch|]; simpl.
  - run_kernel. rewrite bool_decide_eq_false_2 by done. run_kernel.
    destruct (nanmeanImageArrayImp_value sch (seq 0 n) src n h w Hfair Hsrc)
      as (m1 & -> & Hi1 & Hc1).
    destruct (nanmeanImageArrayImp_value sch [] src n h w Hfair Hsrc)
      as (m2 & -> & Hi2 & Hc2).
    f_equal. f_equal. apply (image_ext _ _ h w); [done|done|].
    intros j k Hj Hk. rewrite Hc1, Hc2 by done.
    by rewrite bool_decide_eq_false_2 by done.
  - run_kernel. f_equal. f_equal.
    destruct (xt_view_keep_spec src (seq 0 n) n h w Hs) as [Hvs Hvc].
    destruct (xt_nanmean0_spec _ _ h w Hvs) as [Hi1 Hc1].
    destruct (xt_nanmean0_spec src n h w Hs) as [Hi2 Hc2].
    apply (image_ext _ _ h w); [done|done|].
    intros j k Hj Hk. rewrite Hc1, Hc2 by done. by rewrite (Hvc j k Hj Hk).
Qed.

(** X16. An empty stack is not an error: on a stack of no frame, and on
    either build, stack-wide nanmean without [keep] returns an image whose
    pixels are all NaN. *)
Theorem nanmean_of_no_frame (V : Type) (F : Floating V) (be : backend)
    (src : xtensor V) (h w : nat) :
  fair_backend be -> is_image_array src 0 h w ->
  exists mean,
    ImageArray.nanmeanImageArray be src = (Returned mean, src) /\
    is_image mean h w /\
    (forall j k, j < h -> k < w -> isnan (at2 mean j k) = true).
Proof.
  intros Hfair Hsrc.
  destruct (nanmeanImageArray_spec be src 0 h w Hfair Hsrc) as (mean & Hrun & Hi & Hc).
  exists mean. split_and!; try done.
  intros j k Hj Hk. by apply (Hc j k Hj Hk).
Qed.

Lemma not_nan_all `{Floating V} (l : list V) :
  Forall (fun v => isnan v = false) l -> not_nan l = l.
Proof.
  unfold not_nan. induction 1 as [|v l Hv _ IH]; [done|].
  rewrite filter_cons_True by done. by rewrite IH.
Qed.

(** X20. Where no selected frame is NaN, nanmean is the plain mean: on
    either build, at a pixel where every selected value is a number, the
    result is the sum of all the selected values over the number of
    selected frames. *)
Theorem nanmean_without_nan (V : Type) (F : Floating V) (be : backend)
    (keep : list nat) (src : xtensor V) (n h w j k : nat) :
  fair_backend be -> is_image_array src n h w -> keep <> [] ->
  Forall (fun i => i < n) keep -> j < h -> k < w ->
  Forall (fun v => isnan v = false) (selected_values src keep j k) ->
  exists mean,
    ImageArray.nanmeanImageArray_keep be keep src = (Returned mean, src) /\
    at2 mean j k = fdiv (foldl fadd fzero (selected_values src keep j k))
                        (of_size (length keep)).
Proof.
  intros Hfair Hsrc Hkeep _ Hj Hk Hnum.
  destruct (nanmeanImageArray_keep_spec be keep src n h w Hfair Hsrc Hkeep)
    as (mean & Hrun & Hi & Hc).
  exists mean. split; [done|].
  destruct (Hc j k Hj Hk) as [_ Hmean].
  assert (not_nan (selected_values src keep j k) = selected_values src keep j k) as Hall.
  { by apply not_nan_all. }
  rewrite Hall in Hmean. rewrite Hmean.
  - unfold mean_of, selected_values. by rewrite length_fmap.
  - unfold selected_values. by destruct keep.
Qed.

(** ** Offset correction, then gain correction, in binary32 *)

Lemma SFmul_comm (prec emax : Z) (x y : spec_float) :
  SFmul prec emax x y = SFmul prec emax y x.
Proof.
  destruct x as [sx|sx| |sx mx ex], y as [sy|sy| |sy my ey]; simpl;
    rewrite ?(xorb_comm sx sy); try done.
  by rewrite (Pos.mul_comm mx my), (Z.add_comm ex ey).
Qed.

(** X19. In binary32, the offset correction followed by the gain
    correction is the combined correction: on an image with gain and offset
    constants of its shape the two calls return and leave the image that
    [correctImageData(src, gain, offset)] leaves. *)
Theorem correct_offset_then_gain (gain offset src : xtensor spec_float) (h w : nat) :
  is_image src h w -> is_image gain h w -> is_image offset h w ->
  exists shifted r,
    Image.correctImageData OffsetPolicy offset src = (Returned tt, shifted) /\
    Image.correctImageData GainPolicy gain shifted = (Returned tt, r) /\
    Image.correctImageData_gain_offset gain offset src = (Returned tt, r).
Proof.
  intros Hsrc Hgain Hoffset.
  destruct (correctImageData_spec OffsetPolicy offset src h w Hsrc Hoffset)
    as (s1 & Hrun1 & Hi1 & Hc1).
  destruct (correctImageData_spec GainPolicy gain s1 h w Hi1 Hgain)
    as (r & Hrun2 & Hi2 & Hc2).
  destruct (correct_image gain offset src h w Hsrc Hgain Hoffset) as (r' & Hrun3 & Hi3 & Hc3).
  exists s1, r. split_and!; try done. rewrite Hrun3. f_equal.
  apply (image_ext _ _ h w); [done|done|]. intros j k Hj Hk.
  rewrite (Hc3 j k Hj Hk), (Hc2 j k Hj Hk), (Hc1 j k Hj Hk). simpl.
  apply SFmul_comm.
Qed.


(** ** The further properties at concrete images *)

Ltac example_hyps := repeat split; try reflexivity; try lia.

Lemma zero_variant_leaves_no_nan_example :
  (is_image example_nan_image 1 2 /\ is_image example_mask 1 2) /\
  exists r,
    Image.maskImageDataZero_E example_nan_image = (Returned tt, r) /\ is_image r 1 2.
Proof.
  split; [example_hyps|].
  destruct (zero_variant_leaves_no_nan example_mask (f32 0) (f32 10) example_nan_image 1 2)
    as ((r & Hrun & Hi & _) & _); [example_hyps..|].
  exists r. split; [exact Hrun | exact Hi].
Defined.

Lemma imageDataNanMask_accumulates_example :
  (is_image example_nan_image 1 2 /\ is_image example_out 1 2) /\
  exists out',
    Image.imageDataNanMask example_nan_image example_out = (Returned tt, out') /\
    is_image out' 1 2.
Proof.
  split; [example_hyps|].
  destruct (imageDataNanMask_accumulates spec_float binary32 example_nan_image example_out 1 2)
    as (o & Hrun & Hi & _); [example_hyps..|].
  exists o. split; [exact Hrun | exact Hi].
Defined.

Lemma maskImageDataZero_ET_range_example :
  is_image example_image 1 2 /\
  exists r,
    Image.maskImageDataZero_ET (f32 0) (f32 10) example_image = (Returned tt, r) /\
    is_image r 1 2.
Proof.
  split; [example_hyps|].
  destruct (maskImageDataZero_ET_range (f32 0) (f32 10) example_image 1 2)
    as (r & Hrun & Hi & _); [example_hyps..|].
  exists r. split; [exact Hrun | exact Hi].
Defined.

Lemma maskImageDataNan_ET_range_example :
  is_image example_image 1 2 /\
  exists r,
    Image.maskImageDataNan_ET (f32 0) (f32 10) example_image = (Returned tt, r) /\
    Image.maskImageDataNan_ET (f32 0) (f32 10) r = (Returned tt, r).
Proof.
  split; [example_hyps|].
  destruct (maskImageDataNan_ET_range (f32 0) (f32 10) example_image 1 2)
    as (r & Hrun & _ & _ & Hagain); [example_hyps..|].
  exists r. split; [exact Hrun | exact Hagain].
Defined.

Lemma recording_overloads_same_image_example :
  (is_image example_image 1 2 /\ is_image example_mask 1 2 /\ is_image example_out 1 2) /\
  exists st',
    Image.maskImageDataZero_EMTN example_mask (f32 0) (f32 10) (example_image, example_out)
    = (Returned tt, st') /\
    Image.maskImageDataZero_EMT example_mask (f32 0) (f32 10) example_image
    = (Returned tt, st'.1).
Proof.
  split; [example_hyps|].
  apply (recording_overloads_same_image example_mask (f32 0) (f32 10)
           example_image example_out 1 2); example_hyps.
Defined.

Lemma output_mask_accumulates_example :
  (is_image example_image 1 2 /\ is_image example_mask 1 2 /\ is_image example_out 1 2) /\
  exists st',
    Image.maskImageDataZero_ETN (f32 0) (f32 10) (example_image, example_out)
    = (Returned tt, st') /\
    (forall j k, j < 1 -> k < 2 ->
       at2 st'.2 j k = invalid (f32 0) (f32 10) (at2 example_image j k) || at2 example_out j k).
Proof.
  split; [example_hyps|].
  apply (output_mask_accumulates example_mask (f32 0) (f32 10)
           example_image example_out 1 2); example_hyps.
Defined.

Lemma nan_variant_records_nan_mask_example :
  (is_image example_image 1 2 /\ is_image example_mask 1 2 /\ is_image example_out 1 2) /\
  exists st',
    Image.maskImageDataNan_ETN (f32 0) (f32 10) (example_image, example_out)
    = (Returned tt, st') /\
    Image.imageDataNanMask st'.1 example_out = (Returned tt, st'.2).
Proof.
  split; [example_hyps|].
  apply (nan_variant_records_nan_mask example_mask (f32 0) (f32 10)
           example_image example_out 1 2); example_hyps.
Defined.

Lemma maskImageDataNan_EMN_versus_EM_example :
  (is_image example_nan_image 1 2 /\ is_image example_mask 1 2 /\
   is_image example_out 1 2) /\
  exists st' r,
    Image.maskImageDataNan_EMN example_mask (example_nan_image, example_out)
    = (Returned tt, st') /\
    Image.maskImageDataNan_EM example_mask example_nan_image = (Returned tt, r).
Proof.
  split; [example_hyps|].
  destruct (maskImageDataNan_EMN_versus_EM example_mask example_nan_image example_out 1 2)
    as (st' & r & Hrun & Hrun' & _); [example_hyps..|].
  exists st', r. split; [exact Hrun | exact Hrun'].
Defined.

Lemma maskImageDataZero_EMT_composes_example :
  (is_image example_image 1 2 /\ is_image example_mask 1 2) /\
  exists masked r,
    Image.maskImageDataZero_EM example_mask example_image = (Returned tt, masked) /\
    Image.maskImageDataZero_ET (f32 0) (f32 10) masked = (Returned tt, r) /\
    Image.maskImageDataZero_EMT example_mask (f32 0) (f32 10) example_image
    = (Returned tt, r).
Proof.
  split; [example_hyps|].
  apply (maskImageDataZero_EMT_composes example_mask (f32 0) (f32 10) example_image 1 2);
    example_hyps.
Defined.

Lemma maskImageDataNan_EMT_composes_example :
  (is_image example_image 1 2 /\ is_image example_mask 1 2) /\
  exists masked r,
    Image.maskImageDataNan_EM example_mask example_image = (Returned tt, masked) /\
    Image.maskImageDataNan_ET (f32 0) (f32 10) masked = (Returned tt, r) /\
    Image.maskImageDataNan_EMT example_mask (f32 0) (f32 10) example_image
    = (Returned tt, r).
Proof.
  split; [example_hyps|].
  apply (maskImageDataNan_EMT_composes example_mask (f32 0) (f32 10) example_image 1 2);
    example_hyps.
Defined.

Lemma array_masking_is_framewise_example :
  (fair_backend (with_tbb by_rows_reversed) /\ is_image_array example_array 2 1 2 /\
   is_image example_mask 1 2 /\ 1 < 2) /\
  exists r,
    ImageArray.maskImageDataNan_EMT (with_tbb by_rows_reversed) example_mask (f32 0) (f32 10)
      example_array = (Returned tt, r) /\
    Image.maskImageDataNan_EMT example_mask (f32 0) (f32 10) (frame example_array 1)
    = (Returned tt, frame r 1).
Proof.
  split; [split; [apply fair_by_rows_reversed | example_hyps]|].
  apply (array_masking_is_framewise spec_float binary32 (with_tbb by_rows_reversed)
           example_mask (f32 0) (f32 10) example_array 2 1 2 1);
    [apply fair_by_rows_reversed | example_hyps..].
Defined.

Lemma array_arithmetic_is_framewise_example :
  (fair_backend (with_tbb by_rows_reversed) /\ is_image_array example_array 2 1 2 /\
   1 <= 2 /\ 1 < 2) /\
  exists r,
    ImageArray.movingAvgImageData (with_tbb by_rows_reversed) example_array 2 example_array
    = (Returned tt, r) /\
    Image.movingAvgImageData (frame example_array 1) 2 (frame example_array 1)
    = (Returned tt, frame r 1).
Proof.
  split; [split; [apply fair_by_rows_reversed | example_hyps]|].
  apply (array_arithmetic_is_framewise spec_float binary32 (with_tbb by_rows_reversed)
           OffsetPolicy example_array example_array example_array example_array 2 2 1 2 1);
    [apply fair_by_rows_reversed | example_hyps..].
Defined.

Lemma correctImageData_policy_example :
  (is_image (pixel (f32 7)) 1 1 /\ is_image (pixel (f32 2)) 1 1) /\
  exists r,
    Image.correctImageData OffsetPolicy (pixel (f32 2)) (pixel (f32 7)) = (Returned tt, r) /\
    is_image r 1 1 /\
    (forall j k, j < 1 -> k < 1 ->
       at2 r j k = fsub (at2 (pixel (f32 7)) j k) (at2 (pixel (f32 2)) j k)).
Proof.
  split; [example_hyps|].
  apply (correctImageData_policy (pixel (f32 2)) (pixel (f32 7)) 1 1); example_hyps.
Defined.

Lemma nanmean_scheduler_independent_example :
  (fair one_block /\ fair by_rows_reversed /\ is_image_array example_array 2 1 2 /\
   is_image example_image 1 2 /\ is_image example_nan_image 1 2) /\
  ImageArray.nanmeanImageArray_keep (with_tbb one_block) [1; 0] example_array
  = ImageArray.nanmeanImageArray_keep (with_tbb by_rows_reversed) [1; 0] example_array.
Proof.
  split; [split; [apply fair_one_block | split; [apply fair_by_rows_reversed | example_hyps]]|].
  apply (nanmean_scheduler_independent spec_float binary32 one_block by_rows_reversed [1; 0]
           example_array example_image example_nan_image 2 1 2);
    [apply fair_one_block | apply fair_by_rows_reversed | example_hyps..].
Defined.

Lemma nanmean_keep_all_frames_example :
  (fair_backend (with_tbb by_rows_reversed) /\ is_image_array example_array 2 1 2 /\ 0 < 2) /\
  ImageArray.nanmeanImageArray_keep (with_tbb by_rows_reversed) (seq 0 2) example_array
  = ImageArray.nanmeanImageArray (with_tbb by_rows_reversed) example_array.
Proof.
  split; [split; [apply fair_by_rows_reversed | example_hyps]|].
  apply (nanmean_keep_all_frames spec_float binary32 (with_tbb by_rows_reversed)
           example_array 2 1 2); [apply fair_by_rows_reversed | example_hyps..].
Defined.

Lemma nanmean_of_no_frame_example :
  (fair_backend (with_tbb one_block) /\ is_image_array example_no_frame 0 1 2) /\
  exists mean,
    ImageArray.nanmeanImageArray (with_tbb one_block) example_no_frame
    = (Returned mean, example_no_frame) /\
    is_image mean 1 2 /\
    (forall j k, j < 1 -> k < 2 -> isnan (at2 mean j k) = true).
Proof.
  split; [split; [apply fair_one_block | example_hyps]|].
  apply (nanmean_of_no_frame spec_float binary32 (with_tbb one_block) example_no_frame 1 2);
    [apply fair_one_block | example_hyps].
Defined.

Lemma nan_variant_keeps_nan_example :
  (is_image example_nan_image 1 2 /\ is_image example_mask 1 2) /\
  exists r,
    Image.maskImageDataNan_ET (f32 0) (f32 10) example_nan_image = (Returned tt, r) /\
    is_image r 1 2 /\
    (forall j k, j < 1 -> k < 2 ->
       isnan (at2 example_nan_image j k) = true -> isnan (at2 r j k) = true).
Proof.
  split; [example_hyps|].
  apply (nan_variant_keeps_nan example_mask (f32 0) (f32 10) example_nan_image 1 2);
    example_hyps.
Defined.

Lemma array_arithmetic_builds_agree_example :
  (fair by_rows_reversed /\ is_image_array example_array 2 1 2) /\
  ImageArray.movingAvgImageData (with_tbb by_rows_reversed) example_array 2 example_array
  = ImageArray.movingAvgImageData without_tbb example_array 2 example_array.
Proof.
  split; [split; [apply fair_by_rows_reversed | example_hyps]|].
  apply (array_arithmetic_builds_agree spec_float binary32 by_rows_reversed OffsetPolicy
           example_array example_array example_array example_array 2 2 1 2);
    [apply fair_by_rows_reversed | example_hyps].
Defined.

Lemma correct_offset_then_gain_example :
  (is_image (pixel (f32 7)) 1 1 /\ is_image (pixel (f32 3)) 1 1 /\
   is_image (pixel (f32 2)) 1 1) /\
  exists shifted r,
    Image.correctImageData OffsetPolicy (pixel (f32 2)) (pixel (f32 7))
    = (Returned tt, shifted) /\
    Image.correctImageData GainPolicy (pixel (f32 3)) shifted = (Returned tt, r) /\
    Image.correctImageData_gain_offset (pixel (f32 3)) (pixel (f32 2)) (pixel (f32 7))
    = (Returned tt, r).
Proof.
  split; [example_hyps|].
  apply (correct_offset_then_gain (pixel (f32 3)) (pixel (f32 2)) (pixel (f32 7)) 1 1);
    example_hyps.
Defined.

Lemma nanmean_without_nan_example :
  (fair_backend without_tbb /\ is_image_array example_array 2 1 2 /\ [0; 1] <> [] /\
   Forall (fun i => i < 2) [0; 1] /\ 0 < 1 /\ 0 < 2 /\
   Forall (fun v => isnan v = false) (selected_values example_array [0; 1] 0 0)) /\
  exists mean,
    ImageArray.nanmeanImageArray_keep without_tbb [0; 1] example_array
    = (Returned mean, example_array) /\
    at2 mean 0 0 = fdiv (foldl fadd fzero (selected_values example_array [0; 1] 0 0))
                        (of_size (length [0; 1])).
Proof.
  assert (Forall (fun i => i < 2) [0; 1]) as Hkeep by (repeat constructor).
  assert (Forall (fun v : spec_float => isnan v = false)
            (selected_values example_array [0; 1] 0 0)) as Hnum by (repeat constructor).
  split; [split_and!; try done; try lia; example_hyps|].
  apply (nanmean_without_nan spec_float binary32 without_tbb [0; 1] example_array 2 1 2 0 0);
    try done; try lia; example_hyps.
Defined.
